(** * NutriBuddy prompt module: prompt assembly and JSON extraction

    A shallow embedding of [buildMessages] and [parseAssistantJson] from
    [src/prompts.ts], together with the parts of the JavaScript runtime
    they call ([String.prototype.trim], [startsWith], [indexOf],
    [lastIndexOf], [substring], [JSON.stringify], [JSON.parse]).

    JavaScript strings are sequences of UTF-16 code units; they are
    modelled as lists of [N].  Every character the runtime functions
    below inspect lies in the Basic Multilingual Plane, so working on
    code units is exact.  Numbers read by [JSON.parse] are rounded to
    IEEE 754 binary64 values, and objects list their keys in the order
    of [OrdinaryOwnPropertyKeys].  The array and the message objects
    that [buildMessages] allocates are followed in an explicit heap. *)

From Stdlib Require Import List NArith ZArith Lia Bool String Ascii.
From Stdlib Require DecimalN DecimalFacts.
Import ListNotations.

Set Warnings "-register-all,-notation-for-abbreviation".

Local Open Scope list_scope.
Local Open Scope N_scope.

(* ===================================================================== *)
(** ** JavaScript strings *)
(* ===================================================================== *)

Module JsString.

Notation code_unit := N (only parsing).
Notation jsstring := (list N) (only parsing).

(** Decoding of the UTF-8 bytes of a source literal into UTF-16 code
    units, so that the literals of [prompts.ts] can be written as they
    appear in the file. *)
Definition cont6 (b : N) : N := N.land b 63.

Definition utf16_of_code_point (cp : N) : jsstring :=
  if cp <? 65536 then [cp]
  else let c := cp - 65536 in
       [55296 + N.shiftr c 10; 56320 + N.land c 1023].

Fixpoint utf8_decode (bs : list N) : jsstring :=
  match bs with
  | [] => []
  | b0 :: r =>
    if b0 <? 128 then b0 :: utf8_decode r
    else if b0 <? 224 then
      match r with
      | b1 :: r1 =>
        utf16_of_code_point (N.shiftl (N.land b0 31) 6 + cont6 b1)
          ++ utf8_decode r1
      | _ => []
      end
    else if b0 <? 240 then
      match r with
      | b1 :: b2 :: r2 =>
        utf16_of_code_point
          (N.shiftl (N.land b0 15) 12 + N.shiftl (cont6 b1) 6 + cont6 b2)
          ++ utf8_decode r2
      | _ => []
      end
    else
      match r with
      | b1 :: b2 :: b3 :: r3 =>
        utf16_of_code_point
          (N.shiftl (N.land b0 7) 18 + N.shiftl (cont6 b1) 12
           + N.shiftl (cont6 b2) 6 + cont6 b3)
          ++ utf8_decode r3
      | _ => []
      end
  end.

Definition bytes_of_string (s : string) : list N :=
  map N_of_ascii (list_ascii_of_string s).

(** A string literal of the source. *)
Definition lit (s : string) : jsstring := utf8_decode (bytes_of_string s).

(** A string literal of the source in which the double quote character
    is written as a backquote (the source's texts contain no backquote,
    they are template literals). *)
Definition DQUOTE : code_unit := 34.
Definition BACKQUOTE : code_unit := 96.
Definition litq (s : string) : jsstring :=
  map (fun c => if c =? BACKQUOTE then DQUOTE else c) (lit s).

Definition LF : jsstring := [10].

Fixpoint eqb (s t : jsstring) : bool :=
  match s, t with
  | [], [] => true
  | c :: s', d :: t' => (c =? d) && eqb s' t'
  | _, _ => false
  end.

(** WhiteSpace and LineTerminator code points of ECMAScript, the ones
    stripped by [String.prototype.trim]. *)
Definition is_white_space (c : code_unit) : bool :=
  (c =? 9) || (c =? 10) || (c =? 11) || (c =? 12) || (c =? 13)
  || (c =? 32) || (c =? 160) || (c =? 5760)
  || ((8192 <=? c) && (c <=? 8202))
  || (c =? 8232) || (c =? 8233) || (c =? 8239) || (c =? 8287)
  || (c =? 12288) || (c =? 65279).

Fixpoint trimStart (s : jsstring) : jsstring :=
  match s with
  | c :: s' => if is_white_space c then trimStart s' else s
  | [] => []
  end.

Definition trimEnd (s : jsstring) : jsstring := rev (trimStart (rev s)).

Definition trim (s : jsstring) : jsstring := trimEnd (trimStart s).

(** [s.startsWith(p)] *)
Fixpoint startsWith (s p : jsstring) : bool :=
  match p, s with
  | [], _ => true
  | d :: p', c :: s' => (c =? d) && startsWith s' p'
  | _ :: _, [] => false
  end.

(** [s.endsWith(p)] *)
Definition endsWith (s p : jsstring) : bool := startsWith (rev s) (rev p).

(** [s.indexOf(p)]: the least index at which [p] occurs in [s], or -1. *)
Fixpoint indexOf_from (s p : jsstring) (i : Z) : Z :=
  if startsWith s p then i
  else match s with
       | [] => (-1)%Z
       | _ :: s' => indexOf_from s' p (i + 1)%Z
       end.

Definition indexOf (s p : jsstring) : Z := indexOf_from s p 0%Z.

(** [s.lastIndexOf(p)]: the greatest index at which [p] occurs, or -1. *)
Fixpoint lastIndexOf_from (s p : jsstring) (i : Z) (found : Z) : Z :=
  let found' := if startsWith s p then i else found in
  match s with
  | [] => found'
  | _ :: s' => lastIndexOf_from s' p (i + 1)%Z found'
  end.

Definition lastIndexOf (s p : jsstring) : Z :=
  lastIndexOf_from s p 0%Z (-1)%Z.

(** [s.includes(p)] *)
Definition includes (s p : jsstring) : bool := (0 <=? indexOf s p)%Z.

(** [s.substring(start, end)]: both arguments are clamped to
    [0 .. s.length] and swapped when [start > end]. *)
Definition clamp (len i : Z) : Z := Z.min (Z.max i 0) len.

Definition substring (s : jsstring) (start_ end_ : Z) : jsstring :=
  let len := Z.of_nat (List.length s) in
  let a := clamp len start_ in
  let b := clamp len end_ in
  let from := Z.min a b in
  let to := Z.max a b in
  firstn (Z.to_nat (to - from)) (skipn (Z.to_nat from) s).

(** Decimal digits of a natural number, as code units. *)
Fixpoint units_of_uint (u : Decimal.uint) : jsstring :=
  match u with
  | Decimal.Nil => []
  | Decimal.D0 u' => 48 :: units_of_uint u'
  | Decimal.D1 u' => 49 :: units_of_uint u'
  | Decimal.D2 u' => 50 :: units_of_uint u'
  | Decimal.D3 u' => 51 :: units_of_uint u'
  | Decimal.D4 u' => 52 :: units_of_uint u'
  | Decimal.D5 u' => 53 :: units_of_uint u'
  | Decimal.D6 u' => 54 :: units_of_uint u'
  | Decimal.D7 u' => 55 :: units_of_uint u'
  | Decimal.D8 u' => 56 :: units_of_uint u'
  | Decimal.D9 u' => 57 :: units_of_uint u'
  end.

Definition decimal (n : N) : jsstring := units_of_uint (N.to_uint n).

Definition hex_digit (d : N) : code_unit :=
  if d <? 10 then 48 + d else 97 + (d - 10).

(** The four lowercase hexadecimal digits of a code unit. *)
Definition hex4 (c : code_unit) : jsstring :=
  [hex_digit (N.land (N.shiftr c 12) 15); hex_digit (N.land (N.shiftr c 8) 15);
   hex_digit (N.land (N.shiftr c 4) 15); hex_digit (N.land c 15)].

End JsString.
Import JsString.

Arguments lit s%_string.
Arguments litq s%_string.


(* ===================================================================== *)
(** ** JavaScript values and [JSON.stringify] *)
(* ===================================================================== *)

Module JsValue.

(** A Number value.  A finite number is kept as a decimal
    [(-1)^negative * mantissa * 10^exponent]: the digits and the
    exponent that Number::toString prints for it, that is the shortest
    decimal whose nearest IEEE 754 binary64 value it is. *)
Inductive number : Type :=
| NaN
| Infinity (negative : bool)
| Finite (negative : bool) (mantissa : N) (exponent : Z).

Definition num_of_Z (z : Z) : number := Finite (z <? 0)%Z (Z.abs_N z) 0.

(** The values that JSON texts and the typed inputs of the module range
    over.  An object is the list of its own enumerable string-keyed
    properties, in the order [Object.keys] yields them. *)
Inductive jsval : Type :=
| JUndefined
| JNull
| JBool (b : bool)
| JNumber (n : number)
| JString (s : jsstring)
| JArray (elements : list jsval)
| JObject (properties : list (jsstring * jsval)).

Definition jsobject := list (jsstring * jsval).

(** [Object.keys(o)] *)
Definition Object_keys (o : jsobject) : list jsstring := map fst o.

(** Property read [o.k] on a value: the value bound to [k], [JUndefined]
    when there is none. *)
Fixpoint lookup (k : jsstring) (o : jsobject) : jsval :=
  match o with
  | [] => JUndefined
  | (k', v) :: o' => if JsString.eqb k k' then v else lookup k o'
  end.

Definition get (v : jsval) (k : jsstring) : jsval :=
  match v with
  | JObject o => lookup k o
  | _ => JUndefined
  end.

(** An array index: the canonical decimal text of an integer below
    [2^32 - 1]. *)
Definition array_index (k : jsstring) : option N :=
  let n := fold_left (fun acc c => acc * 10 + (c - 48)) k 0 in
  if JsString.eqb k (decimal n) && (n <? 4294967295) then Some n else None.

(** [key_before a b]: in the order of [OrdinaryOwnPropertyKeys], the
    key [a] comes before the key [b] whenever both are present: array
    indices in ascending order come first, the other keys follow in the
    order of their creation. *)
Definition key_before (a b : jsstring) : bool :=
  match array_index a, array_index b with
  | Some i, Some j => i <? j
  | Some _, None => true
  | None, _ => false
  end.

Definition has_key (k : jsstring) (o : jsobject) : bool :=
  existsb (fun p => JsString.eqb k (fst p)) o.

(** An existing key keeps its position and takes the new value. *)
Fixpoint update_property (o : jsobject) (k : jsstring) (v : jsval) : jsobject :=
  match o with
  | [] => []
  | (k', v') :: o' =>
    if JsString.eqb k k' then (k', v) :: o'
    else (k', v') :: update_property o' k v
  end.

(** A new key takes its place in the order of the keys. *)
Fixpoint insert_property (o : jsobject) (k : jsstring) (v : jsval) : jsobject :=
  match o with
  | [] => [(k, v)]
  | (k', v') :: o' =>
    if key_before k k' then (k, v) :: (k', v') :: o'
    else (k', v') :: insert_property o' k v
  end.

(** [CreateDataProperty] on an ordinary object. *)
Definition define_property (o : jsobject) (k : jsstring) (v : jsval) : jsobject :=
  if has_key k o then update_property o k v else insert_property o k v.

(** *** Number::toString, radix 10 *)

Fixpoint strip_zeros (s : jsstring) : jsstring :=
  match s with
  | 48 :: s' => strip_zeros s'
  | _ => s
  end.

Definition exponent_part (e : Z) : jsstring :=
  lit "e" ++ (if (e <? 0)%Z then lit "-" else lit "+") ++ decimal (Z.abs_N e).

Definition Number_toString (x : number) : jsstring :=
  match x with
  | NaN => lit "NaN"
  | Infinity neg => if neg then lit "-Infinity" else lit "Infinity"
  | Finite neg m e =>
    if m =? 0 then lit "0"
    else
      let ds := decimal m in
      let s := rev (strip_zeros (rev ds)) in
      let k := Z.of_nat (List.length s) in
      let n := (Z.of_nat (List.length ds) + e)%Z in
      let body :=
        if ((k <=? n) && (n <=? 21))%Z then
          s ++ repeat 48 (Z.to_nat (n - k))
        else if ((0 <? n) && (n <=? 21))%Z then
          firstn (Z.to_nat n) s ++ lit "." ++ skipn (Z.to_nat n) s
        else if ((-6 <? n) && (n <=? 0))%Z then
          lit "0." ++ repeat 48 (Z.to_nat (- n)) ++ s
        else if (k =? 1)%Z then
          s ++ exponent_part (n - 1)
        else
          firstn 1 s ++ lit "." ++ skipn 1 s ++ exponent_part (n - 1)
      in
      (if neg then lit "-" else []) ++ body
  end.

Definition is_finite (x : number) : bool :=
  match x with
  | Finite _ _ _ => true
  | _ => false
  end.

(** *** QuoteJSONString *)

Definition is_high_surrogate (c : code_unit) : bool :=
  (55296 <=? c) && (c <=? 56319).
Definition is_low_surrogate (c : code_unit) : bool :=
  (56320 <=? c) && (c <=? 57343).

Definition unicode_escape (c : code_unit) : jsstring := lit "\u" ++ hex4 c.

Definition quote_code_unit (c : code_unit) : jsstring :=
  if c =? 8 then lit "\b"
  else if c =? 9 then lit "\t"
  else if c =? 10 then lit "\n"
  else if c =? 12 then lit "\f"
  else if c =? 13 then lit "\r"
  else if c =? 34 then [92; 34]
  else if c =? 92 then [92; 92]
  else if c <? 32 then unicode_escape c
  else [c].

Fixpoint quote_units (s : jsstring) : jsstring :=
  match s with
  | [] => []
  | c :: r =>
    if is_high_surrogate c then
      match r with
      | d :: r' =>
        if is_low_surrogate d then c :: d :: quote_units r'
        else unicode_escape c ++ quote_units r
      | [] => unicode_escape c
      end
    else if is_low_surrogate c then unicode_escape c ++ quote_units r
    else quote_code_unit c ++ quote_units r
  end.

Definition QuoteJSONString (s : jsstring) : jsstring :=
  [DQUOTE] ++ quote_units s ++ [DQUOTE].

(** [Array.prototype.join] on strings *)
Fixpoint join (sep : jsstring) (l : list jsstring) : jsstring :=
  match l with
  | [] => []
  | [x] => x
  | x :: l' => x ++ sep ++ join sep l'
  end.

(** *** SerializeJSONProperty, without replacer and without indentation.
    [None] is the [undefined] result. *)
Fixpoint SerializeJSONProperty (v : jsval) : option jsstring :=
  match v with
  | JUndefined => None
  | JNull => Some (lit "null")
  | JBool b => Some (if b then lit "true" else lit "false")
  | JNumber n => Some (if is_finite n then Number_toString n else lit "null")
  | JString s => Some (QuoteJSONString s)
  | JArray l =>
    Some (lit "[" ++
          join (lit ",")
            (map (fun x => match SerializeJSONProperty x with
                           | Some t => t
                           | None => lit "null"
                           end) l) ++
          lit "]")
  | JObject ps =>
    Some (lit "{" ++
          join (lit ",")
            (flat_map (fun p => match SerializeJSONProperty (snd p) with
                                | Some t => [QuoteJSONString (fst p) ++ lit ":" ++ t]
                                | None => []
                                end) ps) ++
          lit "}")
  end.

Definition JSON_stringify (v : jsval) : option jsstring :=
  SerializeJSONProperty v.

(** ToString on the result of a call that yields a string or
    [undefined], as a template literal applies it. *)
Definition ToString_opt (r : option jsstring) : jsstring :=
  match r with
  | Some s => s
  | None => lit "undefined"
  end.

End JsValue.
Import JsValue.

(* ===================================================================== *)
(** ** [JSON.parse] *)
(* ===================================================================== *)

Module JsonParse.

(** Result of a sub-parser: the value read and the input left, a syntax
    error, or an exhausted recursion budget. *)
Inductive presult (A : Type) : Type :=
| Ok (a : A) (rest : jsstring)
| SyntaxError
| OutOfFuel.
Arguments Ok {A} a rest.
Arguments SyntaxError {A}.
Arguments OutOfFuel {A}.

(** JSON white space: tab, line feed, carriage return, space. *)
Definition is_json_ws (c : code_unit) : bool :=
  (c =? 9) || (c =? 10) || (c =? 13) || (c =? 32).

Fixpoint skip_ws (s : jsstring) : jsstring :=
  match s with
  | c :: s' => if is_json_ws c then skip_ws s' else s
  | [] => []
  end.

Definition is_digit (c : code_unit) : bool := (48 <=? c) && (c <=? 57).

Definition hex_value (c : code_unit) : option N :=
  if is_digit c then Some (c - 48)
  else if (97 <=? c) && (c <=? 102) then Some (c - 87)
  else if (65 <=? c) && (c <=? 70) then Some (c - 55)
  else None.

Definition hex4_value (a b c d : code_unit) : option code_unit :=
  match hex_value a, hex_value b, hex_value c, hex_value d with
  | Some x, Some y, Some z, Some w => Some (((x * 16 + y) * 16 + z) * 16 + w)
  | _, _, _, _ => None
  end.

(** The character a two-character escape denotes. *)
Definition simple_escape (e : code_unit) : option code_unit :=
  if e =? 34 then Some 34          (* quotation mark *)
  else if e =? 92 then Some 92     (* reverse solidus *)
  else if e =? 47 then Some 47     (* solidus *)
  else if e =? 98 then Some 8      (* b: backspace *)
  else if e =? 102 then Some 12    (* f: form feed *)
  else if e =? 110 then Some 10    (* n: line feed *)
  else if e =? 114 then Some 13    (* r: carriage return *)
  else if e =? 116 then Some 9     (* t: tab *)
  else None.

Definition push_unit (c : code_unit) (r : option (jsstring * jsstring))
  : option (jsstring * jsstring) :=
  match r with
  | Some (str, rest) => Some (c :: str, rest)
  | None => None
  end.

(** The characters of a string after its opening quote, up to and
    including the closing quote. *)
Fixpoint parse_string_body (s : jsstring) : option (jsstring * jsstring) :=
  match s with
  | [] => None
  | c :: r =>
    if c =? 34 then Some ([], r)
    else if c =? 92 then
      match r with
      | [] => None
      | e :: r1 =>
        if e =? 117 then
          match r1 with
          | h1 :: h2 :: h3 :: h4 :: r2 =>
            match hex4_value h1 h2 h3 h4 with
            | Some u => push_unit u (parse_string_body r2)
            | None => None
            end
          | _ => None
          end
        else
          match simple_escape e with
          | Some u => push_unit u (parse_string_body r1)
          | None => None
          end
      end
    else if c <? 32 then None
    else push_unit c (parse_string_body r)
  end.

Fixpoint span_digits (s : jsstring) : jsstring * jsstring :=
  match s with
  | c :: s' =>
    if is_digit c then let (ds, r) := span_digits s' in (c :: ds, r)
    else ([], s)
  | [] => ([], [])
  end.

Definition N_of_digits (ds : jsstring) : N :=
  fold_left (fun acc c => acc * 10 + (c - 48)) ds 0.

(** Integer part: a single 0, or a non-empty run of digits that does not
    start with 0. *)
Definition parse_int_part (s : jsstring) : option (jsstring * jsstring) :=
  match s with
  | c :: r =>
    if c =? 48 then Some ([48], r)
    else if is_digit c then Some (span_digits s)
    else None
  | [] => None
  end.

Definition parse_frac_part (s : jsstring) : option (jsstring * jsstring) :=
  match s with
  | c :: r =>
    if c =? 46 then
      match span_digits r with
      | ([], _) => None
      | (ds, r') => Some (ds, r')
      end
    else Some ([], s)
  | [] => Some ([], [])
  end.

Definition parse_exp_digits (neg : bool) (s : jsstring) : option (Z * jsstring) :=
  match span_digits s with
  | ([], _) => None
  | (ds, r) =>
    let e := Z.of_N (N_of_digits ds) in
    Some ((if neg then - e else e)%Z, r)
  end.

Definition parse_exp_part (s : jsstring) : option (Z * jsstring) :=
  match s with
  | c :: r =>
    if (c =? 101) || (c =? 69) then
      match r with
      | g :: r' =>
        if g =? 43 then parse_exp_digits false r'
        else if g =? 45 then parse_exp_digits true r'
        else parse_exp_digits false r
      | [] => None
      end
    else Some (0%Z, s)
  | [] => Some (0%Z, [])
  end.

(** *** The Number value of a decimal literal

    The mathematical value of the literal is rounded to the nearest
    IEEE 754 binary64 value, ties to even; a Number is kept as the
    shortest decimal that denotes it, the one Number::toString prints. *)

(** A non-negative rational [a / b], [b] positive. *)
Definition ratio : Type := (N * N)%type.

(** [m * 10^e] *)
Definition ratio_of_decimal (m : N) (e : Z) : ratio :=
  if (0 <=? e)%Z then (m * 10 ^ Z.to_N e, 1) else (m, 10 ^ Z.to_N (- e)).

(** [x / 2^q] and [x / 10^t] *)
Definition scale (base : N) (x : ratio) (q : Z) : ratio :=
  let (a, b) := x in
  if (0 <=? q)%Z then (a, b * base ^ Z.to_N q) else (a * base ^ Z.to_N (- q), b).

(** [floor (log2 (a / b))] for a positive ratio *)
Definition ilog2 (x : ratio) : Z :=
  let (a, b) := x in
  let l := (Z.of_N (N.log2 a) - Z.of_N (N.log2 b))%Z in
  let (a', b') := scale 2 x l in
  if a' <? b' then (l - 1)%Z else l.

(** The integer nearest to [a / b], the even one of two. *)
Definition round_half_even (x : ratio) : N :=
  let (a, b) := x in
  let (d, r) := N.div_eucl a b in
  if 2 * r <? b then d
  else if b <? 2 * r then d + 1
  else if N.even d then d else d + 1.

(** The magnitude of a Number value: zero, infinity, or
    [mant * 2^expo] with [mant < 2^53], [-1074 <= expo <= 971], and
    [2^52 <= mant] unless [expo = -1074]. *)
Inductive double : Type :=
| DZero
| DInf
| DFinite (mant : N) (expo : Z).

Definition double_eqb (x y : double) : bool :=
  match x, y with
  | DZero, DZero => true
  | DInf, DInf => true
  | DFinite m q, DFinite m' q' => (m =? m') && (q =? q')%Z
  | _, _ => false
  end.

(** Round to nearest, ties to even (IEEE 754 binary64). *)
Definition round_to_double (x : ratio) : double :=
  if fst x =? 0 then DZero
  else
    let p := ilog2 x in
    let q := Z.max (p - 52) (-1074) in
    let m := round_half_even (scale 2 x q) in
    if m =? 0 then DZero
    else
      let (m', q') := if m =? 2 ^ 53 then (2 ^ 52, (q + 1)%Z) else (m, q) in
      if (971 <? q')%Z then DInf else DFinite m' q'.

Definition ratio_of_double (m : N) (q : Z) : ratio :=
  if (0 <=? q)%Z then (m * 2 ^ Z.to_N q, 1) else (m, 2 ^ Z.to_N (- q)).

(** The least [n >= n0] with [a < b * 10^n], where [bn = b * 10^n0]. *)
Fixpoint digits_above (fuel : nat) (a bn : N) (n : Z) : Z :=
  match fuel with
  | O => n
  | S f => if a <? bn then n else digits_above f a (bn * 10) (n + 1)%Z
  end.

(** The least [k >= k0] with [b <= a * 10^k], where [ak = a * 10^k0]. *)
Fixpoint digits_below (fuel : nat) (ak b : N) (k : Z) : Z :=
  match fuel with
  | O => k
  | S f => if b <=? ak then k else digits_below f (ak * 10) b (k + 1)%Z
  end.

(** The [n] with [10^(n-1) <= a / b < 10^n], for a positive ratio. *)
Definition decimal_point (x : ratio) : Z :=
  let (a, b) := x in
  if b <=? a then digits_above (S (N.to_nat (N.log2 a))) a (b * 10) 1
  else (1 - digits_below (S (N.to_nat (N.log2 b))) (a * 10) b 1)%Z.

(** The two decimals [s * 10^t] and [(s + 1) * 10^t] that enclose [x],
    and which of them, if any, has the Number value [d]: the nearer
    one, the even one of two equally near. *)
Definition candidate (d : double) (x : ratio) (t : Z) : option N :=
  let (a, b) := scale 10 x t in
  let (s, r) := N.div_eucl a b in
  let lo := double_eqb (round_to_double (ratio_of_decimal s t)) d in
  let hi := double_eqb (round_to_double (ratio_of_decimal (s + 1) t)) d in
  if lo && hi then
    if 2 * r <? b then Some s
    else if b <? 2 * r then Some (s + 1)
    else if N.even s then Some s else Some (s + 1)
  else if lo then Some s
  else if hi then Some (s + 1)
  else None.

(** Number::toString, step 5: the decimal [s * 10^t] with the fewest
    digits whose Number value is [mant * 2^expo]; at most 17 digits are
    needed. *)
Fixpoint shortest_from (fuel : nat) (d : double) (x : ratio) (t : Z) : N * Z :=
  match fuel with
  | O => (round_half_even (scale 10 x t), t)
  | S f =>
    match candidate d x t with
    | Some s => (s, t)
    | None => shortest_from f d x (t - 1)%Z
    end
  end.

Definition shortest_decimal (m : N) (q : Z) : N * Z :=
  let x := ratio_of_double m q in
  shortest_from 17 (DFinite m q) x (decimal_point x - 1)%Z.

(** The mantissa without trailing zeros while the exponent is negative. *)
Fixpoint strip_fraction (fuel : nat) (s : N) (t : Z) : N * Z :=
  match fuel with
  | O => (s, t)
  | S f =>
    if (t <? 0)%Z && (s mod 10 =? 0) then strip_fraction f (s / 10) (t + 1)%Z
    else (s, t)
  end.

(** An integer is kept with exponent 0, a fraction with a mantissa
    that is not a multiple of ten. *)
Definition canonical (neg : bool) (s : N) (t : Z) : number :=
  if (0 <=? t)%Z then Finite neg (s * 10 ^ Z.to_N t) 0
  else let (s', t') := strip_fraction (Z.to_nat (- t)) s t in Finite neg s' t'.

(** The Number value of the decimal [(-1)^neg * m * 10^e]. *)
Definition number_of_decimal (neg : bool) (m : N) (e : Z) : number :=
  match round_to_double (ratio_of_decimal m e) with
  | DZero => Finite neg 0 0
  | DInf => Infinity neg
  | DFinite mant expo =>
    let (s, t) := shortest_decimal mant expo in canonical neg s t
  end.

(** The sign, the digits and the decimal exponent of a number literal:
    the literal denotes [(-1)^neg * m * 10^e]. *)
Definition parse_decimal (s : jsstring) : option ((bool * N * Z) * jsstring) :=
  let (neg, s1) := match s with
                   | c :: r => if c =? 45 then (true, r) else (false, s)
                   | [] => (false, s)
                   end in
  match parse_int_part s1 with
  | None => None
  | Some (ip, s2) =>
    match parse_frac_part s2 with
    | None => None
    | Some (fp, s3) =>
      match parse_exp_part s3 with
      | None => None
      | Some (e, s4) =>
        Some ((neg, N_of_digits (ip ++ fp),
               (e - Z.of_nat (List.length fp))%Z), s4)
      end
    end
  end.

Definition parse_number (s : jsstring) : option (number * jsstring) :=
  match parse_decimal s with
  | Some ((neg, m, e), r) => Some (number_of_decimal neg m e, r)
  | None => None
  end.

Definition parse_keyword (kw : jsstring) (v : jsval) (s : jsstring)
  : presult jsval :=
  if startsWith s kw then Ok v (skipn (List.length kw) s) else SyntaxError.

Fixpoint parse_value (fuel : nat) (s : jsstring) {struct fuel} : presult jsval :=
  match fuel with
  | O => OutOfFuel
  | S f =>
    match skip_ws s with
    | [] => SyntaxError
    | c :: r =>
      if c =? 123 then
        match skip_ws r with
        | d :: r' => if d =? 125 then Ok (JObject []) r'
                     else parse_members f [] r
        | [] => SyntaxError
        end
      else if c =? 91 then
        match skip_ws r with
        | d :: r' => if d =? 93 then Ok (JArray []) r'
                     else parse_elements f [] r
        | [] => SyntaxError
        end
      else if c =? 34 then
        match parse_string_body r with
        | Some (str, r') => Ok (JString str) r'
        | None => SyntaxError
        end
      else if (c =? 45) || is_digit c then
        match parse_number (c :: r) with
        | Some (n, r') => Ok (JNumber n) r'
        | None => SyntaxError
        end
      else if c =? 116 then parse_keyword (lit "true") (JBool true) (c :: r)
      else if c =? 102 then parse_keyword (lit "false") (JBool false) (c :: r)
      else if c =? 110 then parse_keyword (lit "null") JNull (c :: r)
      else SyntaxError
    end
  end

(** The elements of an array after its opening bracket or after a comma;
    [acc] holds the elements read so far, last first. *)
with parse_elements (fuel : nat) (acc : list jsval) (s : jsstring)
       {struct fuel} : presult jsval :=
  match fuel with
  | O => OutOfFuel
  | S f =>
    match parse_value f s with
    | Ok v r =>
      match skip_ws r with
      | d :: r' =>
        if d =? 44 then parse_elements f (v :: acc) r'
        else if d =? 93 then Ok (JArray (rev (v :: acc))) r'
        else SyntaxError
      | [] => SyntaxError
      end
    | SyntaxError => SyntaxError
    | OutOfFuel => OutOfFuel
    end
  end

(** The members of an object after its opening brace or after a comma;
    a later member overwrites an earlier one of the same name. *)
with parse_members (fuel : nat) (acc : jsobject) (s : jsstring)
       {struct fuel} : presult jsval :=
  match fuel with
  | O => OutOfFuel
  | S f =>
    match skip_ws s with
    | q :: r =>
      if q =? 34 then
        match parse_string_body r with
        | Some (k, r1) =>
          match skip_ws r1 with
          | col :: r2 =>
            if col =? 58 then
              match parse_value f r2 with
              | Ok v r3 =>
                match skip_ws r3 with
                | d :: r4 =>
                  if d =? 44 then parse_members f (define_property acc k v) r4
                  else if d =? 125 then Ok (JObject (define_property acc k v)) r4
                  else SyntaxError
                | [] => SyntaxError
                end
              | SyntaxError => SyntaxError
              | OutOfFuel => OutOfFuel
              end
            else SyntaxError
          | [] => SyntaxError
          end
        | None => SyntaxError
        end
      else SyntaxError
    | [] => SyntaxError
    end
  end.

(** Recursion budget that no input exhausts (see [parse_value_fuel]). *)
Definition fuel_for (s : jsstring) : nat := 2 * List.length s + 1.

End JsonParse.
Import JsonParse.

(* ===================================================================== *)
(** ** Calls, statements and completions *)
(* ===================================================================== *)

Module Js.

(** Values a [throw] carries; [JSON.parse] throws a SyntaxError. *)
Inductive error : Type :=
| SyntaxErrorExn.

(** Result of a call: a value, or an exception that reaches the caller. *)
Inductive result (A : Type) : Type :=
| Value (a : A)
| Raise (e : error).
Arguments Value {A} a.
Arguments Raise {A} e.

(** [JSON.parse(s)]: the whole text must be one JSON value surrounded by
    JSON white space. *)
Definition JSON_parse (s : jsstring) : result jsval :=
  match parse_value (fuel_for s) s with
  | Ok v r =>
    match skip_ws r with
    | [] => Value v
    | _ :: _ => Raise SyntaxErrorExn
    end
  | SyntaxError => Raise SyntaxErrorExn
  | OutOfFuel => Raise SyntaxErrorExn
  end.

(** The calls of [JSON.parse] an evaluation makes, oldest first, each
    with its argument. *)
Definition trace := list jsstring.

(** An evaluated call together with the calls of [JSON.parse] made. *)
Definition outcome (A : Type) : Type := (trace * result A)%type.

Definition call_JSON_parse (s : jsstring) : outcome jsval := ([s], JSON_parse s).

(** Completion of a statement of a function body. *)
Inductive completion : Type :=
| Normal
| Return (v : jsval)
| Throw (e : error).

Definition stmt : Type := (trace * completion)%type.

Definition Skip : stmt := ([], Normal).

(** [return v;] *)
Definition Return_ (v : jsval) : stmt := ([], Return v).

(** [return f(...);] *)
Definition ReturnCall (c : outcome jsval) : stmt :=
  match c with
  | (t, Value v) => (t, Return v)
  | (t, Raise e) => (t, Throw e)
  end.

(** [s1; s2]: [s2] runs only when [s1] completes normally. *)
Definition Seq (s1 s2 : stmt) : stmt :=
  match s1 with
  | (t1, Normal) => let (t2, c) := s2 in (t1 ++ t2, c)
  | _ => s1
  end.

(** [if (b) s] *)
Definition If (b : bool) (s : stmt) : stmt := if b then s else Skip.

(** [try { body } catch (err) { handler }] *)
Definition TryCatch (body : stmt) (handler : error -> stmt) : stmt :=
  match body with
  | (t1, Throw e) => let (t2, c) := handler e in (t1 ++ t2, c)
  | _ => body
  end.

(** A call of a function with the given body. *)
Definition run_body (body : stmt) : outcome jsval :=
  match body with
  | (t, Normal) => (t, Value JUndefined)
  | (t, Return v) => (t, Value v)
  | (t, Throw e) => (t, Raise e)
  end.

End Js.
Import Js.

Notation "s1 ;; s2" := (Seq s1 s2) (at level 61, right associativity).

(* ===================================================================== *)
(** ** Response extractor: [parseAssistantJson] *)
(* ===================================================================== *)

(** The argument is a string, or [null] ([None]). *)
Definition ToBoolean_text (text : option jsstring) : bool :=
  match text with
  | None => false
  | Some [] => false
  | Some (_ :: _) => true
  end.

(** The string [text] is, once the guard [if (!text) return null] has
    been passed. *)
Definition string_of_text (text : option jsstring) : jsstring :=
  match text with
  | Some s => s
  | None => []
  end.

Definition parseAssistantJson (text : option jsstring) : outcome jsval :=
  run_body (
    If (negb (ToBoolean_text text)) (Return_ JNull) ;;
    let trimmed := trim (string_of_text text) in
    TryCatch (
      If (startsWith trimmed (lit "{") || startsWith trimmed (lit "["))
         (ReturnCall (call_JSON_parse trimmed)) ;;
      let first := indexOf trimmed (lit "{") in
      let last := lastIndexOf trimmed (lit "}") in
      If (negb (first =? -1)%Z && negb (last =? -1)%Z && (last >? first)%Z)
         (let sub := substring trimmed first (last + 1)%Z in
          ReturnCall (call_JSON_parse sub))
    ) (fun err => Skip (* ignore parse errors *)) ;;
    Return_ JNull).

(** *** The algorithm in the words of its specification

    [None] is the absent result. *)

(** A parse attempt: the value, or absent when the parser raises. *)
Definition try_parse (s : jsstring) : option jsval :=
  match JSON_parse s with
  | Value v => Some v
  | Raise _ => None
  end.

(** Steps (1) and (2): the text handed to the JSON parser, if any. *)
Definition extract_candidate (text : option jsstring) : option jsstring :=
  match text with
  | None => None
  | Some [] => None
  | Some t =>
    let trimmed := trim t in
    if startsWith trimmed (lit "{") || startsWith trimmed (lit "[") then
      Some trimmed
    else
      let first := indexOf trimmed (lit "{") in
      let last := lastIndexOf trimmed (lit "}") in
      if (0 <=? first)%Z && (0 <=? last)%Z && (first <? last)%Z then
        Some (firstn (Z.to_nat (last - first + 1))
                (skipn (Z.to_nat first) trimmed))
      else None
  end.

(** Step (3): the parsed value, or absent when there is no candidate or
    the parse raises. *)
Definition extract_spec (text : option jsstring) : option jsval :=
  match extract_candidate text with
  | Some s => try_parse s
  | None => None
  end.

(** A parsed object or array; the absent result is none of them. *)
Definition is_structured (v : jsval) : bool :=
  match v with
  | JObject _ | JArray _ => true
  | _ => false
  end.

(** The absent result is [null]. *)
Definition value_of_option (r : option jsval) : jsval :=
  match r with
  | Some v => v
  | None => JNull
  end.

(* ===================================================================== *)
(** ** Prompt builder: [buildMessages] *)
(* ===================================================================== *)

Module Prompt.

Inductive Role : Type :=
| system
| user
| assistant.

Record ChatMessage : Type := mkMessage {
  role : Role;
  content : jsstring
}.

(** [BuildMessagesOptions]; an optional field is [None] when omitted or
    [undefined].  A [UserProfile] and a [SessionState] are objects. *)
Record BuildMessagesOptions : Type := mkOptions {
  userName : option jsstring;
  userProfile : option jsobject;
  sessionState : option jsobject;
  userMessage : jsstring;
  requireJSONResponse : option bool;
  language : option jsstring
}.

(** Default of a destructuring pattern: [{ x = d } = opts]. *)
Definition default_to {A : Type} (d : A) (x : option A) : A :=
  match x with
  | Some a => a
  | None => d
  end.

Definition obj (ps : list (jsstring * jsval)) : jsval := JObject ps.
Definition str (s : string) : jsval := JString (lit s).
Definition num (z : Z) : jsval := JNumber (num_of_Z z).

Definition fewShotExamples : list ChatMessage :=
  [ {| role := user;
       content := lit "Hi, my daily calorie goal is 2000 kcal. I had 2 boiled eggs and one slice whole wheat toast this morning. Please log that." |};
    {| role := assistant;
       content := ToString_opt (JSON_stringify (obj
         [ (lit "intent", str "log_food");
           (lit "fulfillment_text",
            str "Logged 2 boiled eggs (≈156 kcal) and 1 slice whole-wheat toast (≈70 kcal). Added ≈226 kcal to today.");
           (lit "data", obj
              [ (lit "items", JArray
                   [ obj [ (lit "name", str "Boiled egg"); (lit "quantity", str "2"); (lit "kcal", num 156) ];
                     obj [ (lit "name", str "Whole wheat toast"); (lit "quantity", str "1 slice"); (lit "kcal", num 70) ] ]);
                (lit "added_kcal", num 226);
                (lit "new_total_kcal", num 226);
                (lit "goal_kcal", num 2000);
                (lit "progress_percent", JNumber (Finite false 113 (-1))) ]);
           (lit "follow_up", obj
              [ (lit "should_ask", JBool false); (lit "questions", JArray []) ]) ])) |};

    {| role := user;
       content := lit "I have chickpeas, tomatoes, spinach, and oats. Vegetarian — want lunch under 600 kcal. Suggestions?" |};
    {| role := assistant;
       content := ToString_opt (JSON_stringify (obj
         [ (lit "intent", str "suggest_meal");
           (lit "fulfillment_text",
            str "Here are 3 vegetarian lunch ideas under ~600 kcal using those ingredients. Which would you like the recipe for?");
           (lit "data", obj
              [ (lit "suggestions", JArray
                   [ obj [ (lit "title", str "Chickpea & Spinach Curry with Brown Rice");
                           (lit "ingredients", JArray [ str "chickpeas"; str "spinach"; str "tomato"; str "onion"; str "spices"; str "1/2 cup brown rice" ]);
                           (lit "est_kcal", num 520);
                           (lit "short_prep", str "Sauté onion, add tomatoes & spices, add chickpeas & spinach, simmer. Serve with cooked brown rice.") ];
                     obj [ (lit "title", str "Savory Oat & Chickpea Patties with Tomato Chutney");
                           (lit "ingredients", JArray [ str "oats"; str "chickpeas"; str "spinach"; str "tomato"; str "garlic" ]);
                           (lit "est_kcal", num 470) ] ]) ]);
           (lit "follow_up", obj
              [ (lit "should_ask", JBool true);
                (lit "questions", JArray [ str "Which recipe would you like?" ]) ]) ])) |};

    {| role := user;
       content := lit "I had a bowl of cereal this morning." |};
    {| role := assistant;
       content := lit "Could you tell me which cereal (brand) and approximate portion (cups or grams)? If unknown, tell me bowl size (small/medium/large)." |} ].

(** [Array.prototype.push] *)
Definition push {A : Type} (arr : list A) (x : A) : list A := arr ++ [x].

(** The two trailing instructions of the session-context message. *)
Definition STRICT_INSTRUCTION : jsstring :=
  LF ++ LF ++ lit "IMPORTANT: Respond with ONLY valid JSON using the schema in the system prompt. Do NOT include any extra explanatory text.".

Definition PERMISSIVE_INSTRUCTION (language : jsstring) : jsstring :=
  LF ++ LF ++ lit "You may respond in natural " ++ language
    ++ litq " text. If helpful, include a short JSON payload labeled `assistant_payload`.".

Section Prompts.

(** The constants [prompts.ts] imports from [./config]. *)
Variables AI_NAME OWNER_NAME DATE_AND_TIME : jsstring.

Definition IDENTITY_PROMPT : jsstring :=
  trim (lit "
You are "
    ++ AI_NAME
    ++ lit ", an agentic assistant. You are designed by "
    ++ OWNER_NAME
    ++ lit ", not OpenAI, Anthropic, or any other third-party AI vendor.
").

Definition TOOL_CALLING_PROMPT : jsstring :=
  trim (lit "
- In order to be as truthful as possible, call tools to gather context before answering.
- Prioritize retrieving from the vector database; if the answer is not found there, then search the web.
").

Definition TONE_STYLE_PROMPT : jsstring :=
  trim (lit "
- Maintain a friendly, approachable, and helpful tone at all times.
- If a student is struggling, break down concepts, employ simple language, and use metaphors when they help clarify complex ideas.
").

Definition GUARDRAILS_PROMPT : jsstring :=
  trim (lit "
- Strictly refuse and end engagement if a request involves dangerous, illegal, shady, or inappropriate activities.
").

Definition CITATIONS_PROMPT : jsstring :=
  trim (lit "
- Always cite your sources using inline markdown, e.g., [Source #](https://example.com).
- Do not ever write [Source #] without providing the URL as a markdown link.
").

Definition COURSE_CONTEXT_PROMPT : jsstring :=
  trim (lit "
- Most basic questions about the course can be answered by reading the syllabus.
").

Definition NUTRIBUDDY_GUIDANCE : jsstring :=
  trim (litq "
You are NutriBuddy — a friendly nutrition & meal-planning assistant with these core responsibilities:
 - Log food items and estimate calories and macros when asked.
 - Keep track of the user's daily kcal progress vs their goal.
 - Suggest recipes and meals based on ingredients provided and dietary preferences.
 - Ask focused clarifying questions when key details are missing (e.g., portion size, brand, or preparation method).
 - When asked to output structured data (the app will set requireJSONResponse=true), respond with ONLY valid JSON that follows the schema described below.

JSON schema (the assistant must follow when app requests JSON):
{
  `intent`: `<string: one of log_food | suggest_meal | get_snapshot | set_goal | greet | farewell | ask_clarifying | info | generic>`,
  `fulfillment_text`: `<human-friendly reply (string)>`,
  `data`: { /* intent-specific payload: see examples below */ },
  `follow_up`: {
    `should_ask`: boolean,
    `questions`: [ `<question 1>`, `<question 2>` ]
  }
}

"
    ++ litq "Example payloads:
 - log_food: data = { items: [{name, quantity, kcal}], added_kcal, new_total_kcal, goal_kcal, progress_percent }
 - suggest_meal: data = { suggestions: [{title, ingredients, est_kcal, short_prep}], ... }
 - get_snapshot: data = { today_kcal_consumed, remaining_kcal, goal_kcal, top_items }
 - set_goal: data = { new_goal_kcal }

Label estimates clearly (e.g., `≈220 kcal`) and avoid definitive medical claims.
If the user requests medical or therapeutic diet advice, refuse to provide specialized medical guidance and recommend a registered dietitian or doctor.
").

Definition SYSTEM_PROMPT : jsstring :=
  trim (lit "
"
    ++ IDENTITY_PROMPT
    ++ lit "

<tool_calling>
"
    ++ TOOL_CALLING_PROMPT
    ++ lit "
</tool_calling>

<tone_style>
"
    ++ TONE_STYLE_PROMPT
    ++ lit "
</tone_style>

<guardrails>
"
    ++ GUARDRAILS_PROMPT
    ++ lit "
</guardrails>

<citations>
"
    ++ CITATIONS_PROMPT
    ++ lit "
</citations>

<course_context>
"
    ++ COURSE_CONTEXT_PROMPT
    ++ lit "
</course_context>

<nutribuddy>
"
    ++ NUTRIBUDDY_GUIDANCE
    ++ lit "
</nutribuddy>

<date_time>
"
    ++ DATE_AND_TIME
    ++ lit "
</date_time>
").

Definition profileBlock (userProfile : option jsobject) : jsstring :=
  match userProfile with
  | Some o =>
    if negb (List.length (Object_keys o) =? 0)%nat
    then lit "User profile: " ++ ToString_opt (JSON_stringify (JObject o)) ++ lit "."
    else lit "User profile: Not provided."
  | None => lit "User profile: Not provided."
  end.

Definition sessionBlock (sessionState : option jsobject) : jsstring :=
  match sessionState with
  | Some o =>
    if negb (List.length (Object_keys o) =? 0)%nat
    then lit "Session state: " ++ ToString_opt (JSON_stringify (JObject o)) ++ lit "."
    else lit "Session state: Not provided."
  | None => lit "Session state: Not provided."
  end.

Definition jsonInstruction (requireJSONResponse : bool) (language : jsstring)
  : jsstring :=
  if requireJSONResponse then STRICT_INSTRUCTION
  else PERMISSIVE_INSTRUCTION language.

Definition buildMessages (opts : BuildMessagesOptions) : list ChatMessage :=
  let userName := default_to (lit "User") (userName opts) in
  let userProfile := userProfile opts in
  let sessionState := sessionState opts in
  let userMessage := userMessage opts in
  let requireJSONResponse := default_to true (requireJSONResponse opts) in
  let language := default_to (lit "English") (language opts) in
  let profileBlock := profileBlock userProfile in
  let sessionBlock := sessionBlock sessionState in
  let jsonInstruction := jsonInstruction requireJSONResponse language in
  let messages :=
    [ {| role := system; content := SYSTEM_PROMPT |};
      {| role := system;
         content :=
           lit "Context for this session:" ++ LF ++
           (lit "User display name: " ++ userName ++ lit "." ++ LF) ++
           profileBlock ++
           LF ++
           sessionBlock ++
           (LF ++ lit "Assistant response language: " ++ language ++ lit ".") ++
           jsonInstruction |} ] in
  (* Append few-shot examples *)
  let messages :=
    fold_left (fun messages ex =>
                 push messages {| role := role ex; content := content ex |})
              fewShotExamples messages in
  (* Add the live user message *)
  let messages := push messages {| role := user; content := userMessage |} in
  messages.

(** Content of the second message, the per-session context. *)
Definition session_context_content (opts : BuildMessagesOptions) : jsstring :=
  match buildMessages opts with
  | _ :: m :: _ => content m
  | _ => []
  end.

(** The part of the session-context message that precedes the trailing
    instruction. *)
Definition session_context_prefix (opts : BuildMessagesOptions) : jsstring :=
  lit "Context for this session:" ++ LF ++
  (lit "User display name: " ++ default_to (lit "User") (userName opts)
     ++ lit "." ++ LF) ++
  profileBlock (userProfile opts) ++
  LF ++
  sessionBlock (sessionState opts) ++
  (LF ++ lit "Assistant response language: "
     ++ default_to (lit "English") (language opts) ++ lit ".").

(** The instruction appended after it. *)
Definition trailing_instruction (opts : BuildMessagesOptions) : jsstring :=
  jsonInstruction (default_to true (requireJSONResponse opts))
                  (default_to (lit "English") (language opts)).

End Prompts.

(** Options that differ from [o] in one field. *)
Definition with_userName (x : option jsstring) (o : BuildMessagesOptions) :=
  mkOptions x (userProfile o) (sessionState o) (userMessage o)
            (requireJSONResponse o) (language o).
Definition with_userProfile (x : option jsobject) (o : BuildMessagesOptions) :=
  mkOptions (userName o) x (sessionState o) (userMessage o)
            (requireJSONResponse o) (language o).
Definition with_sessionState (x : option jsobject) (o : BuildMessagesOptions) :=
  mkOptions (userName o) (userProfile o) x (userMessage o)
            (requireJSONResponse o) (language o).
Definition with_requireJSONResponse (x : option bool) (o : BuildMessagesOptions) :=
  mkOptions (userName o) (userProfile o) (sessionState o) (userMessage o)
            x (language o).
Definition with_language (x : option jsstring) (o : BuildMessagesOptions) :=
  mkOptions (userName o) (userProfile o) (sessionState o) (userMessage o)
            (requireJSONResponse o) x.

(** The sample request of [exampleBuild]. *)
Definition sampleProfile : jsobject :=
  [ (lit "name", str "Riya");
    (lit "age", num 28);
    (lit "sex", str "female");
    (lit "height_cm", num 160);
    (lit "weight_kg", num 58);
    (lit "daily_kcal_goal", num 2000);
    (lit "dietary_preferences", JArray [ str "vegetarian" ]);
    (lit "allergies", JArray []) ].

Definition sampleSession : jsobject :=
  [ (lit "today_kcal_consumed", num 560);
    (lit "today_log", JArray
       [ obj [ (lit "name", str "Boiled egg"); (lit "quantity", str "2"); (lit "kcal", num 156) ];
         obj [ (lit "name", str "Whole wheat toast"); (lit "quantity", str "1 slice"); (lit "kcal", num 70) ];
         obj [ (lit "name", str "Greek yogurt"); (lit "quantity", str "1 cup"); (lit "kcal", num 334) ] ]);
    (lit "timezone", str "Asia/Kolkata") ].

Definition exampleOptions : BuildMessagesOptions :=
  {| userName := Some (lit "Riya");
     userProfile := Some sampleProfile;
     sessionState := Some sampleSession;
     userMessage := lit "I just ate a veg sandwich with cheese. Log it and tell me how close I am to my goal.";
     requireJSONResponse := Some true;
     language := None |}.

Definition exampleBuild (AI_NAME OWNER_NAME DATE_AND_TIME : jsstring)
  : list ChatMessage :=
  buildMessages AI_NAME OWNER_NAME DATE_AND_TIME exampleOptions.

Definition with_userMessage (x : jsstring) (o : BuildMessagesOptions) :=
  mkOptions (userName o) (userProfile o) (sessionState o) x
            (requireJSONResponse o) (language o).

(** Structural equality of two options values, field by field. *)
Definition options_equal (o1 o2 : BuildMessagesOptions) : Prop :=
  userName o1 = userName o2 /\
  userProfile o1 = userProfile o2 /\
  sessionState o1 = sessionState o2 /\
  userMessage o1 = userMessage o2 /\
  requireJSONResponse o1 = requireJSONResponse o2 /\
  language o1 = language o2.

(** Two requests whose profiles hold the same properties in a different
    order. *)
Definition nameFirstOptions : BuildMessagesOptions :=
  {| userName := None;
     userProfile := Some [ (lit "name", str "Riya"); (lit "age", num 28) ];
     sessionState := None; userMessage := lit "hi";
     requireJSONResponse := None; language := None |}.

Definition ageFirstOptions : BuildMessagesOptions :=
  {| userName := None;
     userProfile := Some [ (lit "age", num 28); (lit "name", str "Riya") ];
     sessionState := None; userMessage := lit "hi";
     requireJSONResponse := None; language := None |}.

(** A request whose display name is the text of the strict instruction
    while it asks for a free-text reply, and one whose display name is
    the text of the permissive instruction while it asks for JSON. *)
Definition strictNameOptions : BuildMessagesOptions :=
  {| userName := Some STRICT_INSTRUCTION; userProfile := None;
     sessionState := None; userMessage := lit "hi";
     requireJSONResponse := Some false; language := None |}.

Definition permissiveNameOptions : BuildMessagesOptions :=
  {| userName := Some (PERMISSIVE_INSTRUCTION (lit "English"));
     userProfile := None; sessionState := None; userMessage := lit "hi";
     requireJSONResponse := Some true; language := None |}.

(** A request whose profile is present and has no key. *)
Definition emptyProfileOptions : BuildMessagesOptions :=
  {| userName := None; userProfile := Some []; sessionState := None;
     userMessage := lit "hi"; requireJSONResponse := None; language := None |}.

(** Values of the [./config] constants used to evaluate the builder on
    concrete requests. *)
Definition AI_NAME_sample : jsstring := lit "NutriBuddy".
Definition OWNER_NAME_sample : jsstring := lit "Owner".
Definition DATE_AND_TIME_sample : jsstring := lit "2025-01-01 09:00".

End Prompt.
Import Prompt.

(* ===================================================================== *)
(** ** The objects [buildMessages] allocates and reads *)
(* ===================================================================== *)

(** [buildMessages] returns a new array of new message objects; it
    reads the module's array [fewShotExamples] and the message objects
    in it.  Here the heap those objects live in is explicit, so that a
    call can be followed through the heap its callers share with the
    module: a reference is a position in the heap. *)
Module Heap.

Inductive cell : Type :=
| MessageObject (m : ChatMessage)
| ArrayObject (elements : list nat).

Definition heap : Type := list cell.

(** A new object: its reference and the heap that holds it. *)
Definition alloc (c : cell) (h : heap) : nat * heap :=
  (List.length h, h ++ [c]).

Definition read (h : heap) (r : nat) : option cell := nth_error h r.

(** Assignment to the object at [r]. *)
Fixpoint write (h : heap) (r : nat) (c : cell) : heap :=
  match h, r with
  | [], _ => []
  | _ :: h', O => c :: h'
  | x :: h', S r' => x :: write h' r' c
  end.

(** [arr.push(x)] *)
Definition array_push (arr x : nat) (h : heap) : heap :=
  match read h arr with
  | Some (ArrayObject l) => write h arr (ArrayObject (l ++ [x]))
  | _ => h
  end.

(** [for (const x of arr) body], from index [i] on: each turn reads the
    array anew, as the array iterator does. *)
Fixpoint for_of (fuel : nat) (arr i : nat) (body : nat -> heap -> heap)
         (h : heap) : heap :=
  match fuel with
  | O => h
  | S f =>
    match read h arr with
    | Some (ArrayObject l) =>
      match nth_error l i with
      | Some x => for_of f arr (S i) body (body x h)
      | None => h
      end
    | _ => h
    end
  end.

(** The body of the loop of [buildMessages]:
    [messages.push({ role: ex.role, content: ex.content })]. *)
Definition push_copy (messages ex : nat) (h : heap) : heap :=
  match read h ex with
  | Some (MessageObject e) =>
    let (m, h) :=
      alloc (MessageObject {| role := role e; content := content e |}) h in
    array_push messages m h
  | _ => h
  end.

Definition array_length (h : heap) (arr : nat) : nat :=
  match read h arr with
  | Some (ArrayObject l) => List.length l
  | _ => 0
  end.

(** Evaluation of the array literal bound to [fewShotExamples] when the
    module is loaded: the reference of the array and the heap. *)
Fixpoint alloc_messages (ms : list ChatMessage) (h : heap) : list nat * heap :=
  match ms with
  | [] => ([], h)
  | m :: ms' =>
    let (r, h1) := alloc (MessageObject m) h in
    let (rs, h2) := alloc_messages ms' h1 in
    (r :: rs, h2)
  end.

Definition load_module (h : heap) : nat * heap :=
  let (rs, h1) := alloc_messages fewShotExamples h in
  alloc (ArrayObject rs) h1.

(** The array at [r] holds references to message objects with the
    contents [ms], in order. *)
Definition array_holds (h : heap) (r : nat) (ms : list ChatMessage) : Prop :=
  exists l, read h r = Some (ArrayObject l)
            /\ Forall2 (fun x m => read h x = Some (MessageObject m)) l ms.

Section Builder.

Variables AI_NAME OWNER_NAME DATE_AND_TIME : jsstring.

(** [buildMessages(opts)] in a heap where [fewShot] is the reference
    the module's constant [fewShotExamples] is bound to: the reference
    of the array returned and the heap after the call. *)
Definition buildMessages_heap (fewShot : nat) (opts : BuildMessagesOptions)
           (h : heap) : nat * heap :=
  let userName := default_to (lit "User") (userName opts) in
  let userProfile := userProfile opts in
  let sessionState := sessionState opts in
  let userMessage := userMessage opts in
  let requireJSONResponse := default_to true (requireJSONResponse opts) in
  let language := default_to (lit "English") (language opts) in
  let profileBlock := profileBlock userProfile in
  let sessionBlock := sessionBlock sessionState in
  let jsonInstruction := jsonInstruction requireJSONResponse language in
  let (m1, h) :=
    alloc (MessageObject
             {| role := system;
                content := SYSTEM_PROMPT AI_NAME OWNER_NAME DATE_AND_TIME |}) h in
  let (m2, h) :=
    alloc (MessageObject
             {| role := system;
                content :=
                  lit "Context for this session:" ++ LF ++
                  (lit "User display name: " ++ userName ++ lit "." ++ LF) ++
                  profileBlock ++
                  LF ++
                  sessionBlock ++
                  (LF ++ lit "Assistant response language: " ++ language
                      ++ lit ".") ++
                  jsonInstruction |}) h in
  let (messages, h) := alloc (ArrayObject [m1; m2]) h in
  (* Append few-shot examples *)
  let h :=
    for_of (S (array_length h fewShot)) fewShot 0 (push_copy messages) h in
  (* Add the live user message *)
  let (u, h) :=
    alloc (MessageObject {| role := user; content := userMessage |}) h in
  let h := array_push messages u h in
  (messages, h).

End Builder.

End Heap.
Import Heap.

(** *** Structural equality, key order left aside

    Two values are structurally equal when they are the same primitive,
    arrays of structurally equal elements, or objects with the same keys
    bound to structurally equal values. *)
Definition number_eqb (x y : number) : bool :=
  match x, y with
  | NaN, NaN => true
  | Infinity a, Infinity b => Bool.eqb a b
  | Finite a m e, Finite b m' e' => Bool.eqb a b && (m =? m') && (e =? e')%Z
  | _, _ => false
  end.

Fixpoint find_property (k : jsstring) (o : jsobject) : option jsval :=
  match o with
  | [] => None
  | (k', v) :: o' => if JsString.eqb k k' then Some v else find_property k o'
  end.

Fixpoint structurally_equal (a b : jsval) : bool :=
  match a, b with
  | JUndefined, JUndefined => true
  | JNull, JNull => true
  | JBool x, JBool y => Bool.eqb x y
  | JNumber x, JNumber y => number_eqb x y
  | JString x, JString y => JsString.eqb x y
  | JArray la, JArray lb =>
    (fix all2 (la lb : list jsval) : bool :=
       match la, lb with
       | [], [] => true
       | x :: la', y :: lb' => structurally_equal x y && all2 la' lb'
       | _, _ => false
       end) la lb
  | JObject pa, JObject pb =>
    (List.length pa =? List.length pb)%nat
    && forallb (fun p => match find_property (fst p) pb with
                         | Some w => structurally_equal (snd p) w
                         | None => false
                         end) pa
  | _, _ => false
  end.

Definition option_eqb {A : Type} (eqb : A -> A -> bool) (x y : option A) : bool :=
  match x, y with
  | Some a, Some b => eqb a b
  | None, None => true
  | _, _ => false
  end.

Definition options_structurally_equal (o1 o2 : BuildMessagesOptions) : bool :=
  option_eqb JsString.eqb (userName o1) (userName o2)
  && option_eqb (fun a b => structurally_equal (JObject a) (JObject b))
                (userProfile o1) (userProfile o2)
  && option_eqb (fun a b => structurally_equal (JObject a) (JObject b))
                (sessionState o1) (sessionState o2)
  && JsString.eqb (userMessage o1) (userMessage o2)
  && option_eqb Bool.eqb (requireJSONResponse o1) (requireJSONResponse o2)
  && option_eqb JsString.eqb (language o1) (language o2).

(* ===================================================================== *)
(** ** Notions used by the further properties *)
(* ===================================================================== *)


(** A string whose first (last) character is one that [trim] keeps. *)
Definition starts_solid (s : jsstring) : bool :=
  match s with
  | c :: _ => negb (is_white_space c)
  | [] => false
  end.

Definition ends_solid (s : jsstring) : bool := starts_solid (rev s).

(** What may follow a value inside a JSON text: nothing, a comma, or a
    closing bracket or brace. *)
Definition follow_ok (rest : jsstring) : bool :=
  match rest with
  | [] => true
  | c :: _ => (c =? 44) || (c =? 93) || (c =? 125)
  end.

(** The decimals that Number::toString writes without an exponent and
    whose digits are read back as they are: integers of at most 21
    digits other than negative zero, and fractions [m * 10^e] with
    [e < 0] and [m] not a multiple of ten. *)
Definition plain_decimal (x : number) : bool :=
  match x with
  | Finite neg m e =>
    let len := Z.of_nat (List.length (decimal m)) in
    if (e =? 0)%Z then (len <=? 21)%Z && negb (neg && (m =? 0))
    else (e <? 0)%Z && negb (m mod 10 =? 0)
         && (-6 <? len + e)%Z && (len + e <=? 21)%Z
  | _ => false
  end.

(** The safe integers: the integers of magnitude below [2^53], each of
    them a Number value of its own; negative zero, which is printed as
    0, is left out. *)
Definition number_ok (x : number) : bool :=
  match x with
  | Finite neg m e =>
    (e =? 0)%Z && (m <? 9007199254740992) && negb (neg && (m =? 0))
  | _ => false
  end.

(** A sequence of keys in the order an object lists them: no key
    stands after one it has to come before. *)
Fixpoint ordered_keys (ks : list jsstring) : bool :=
  match ks with
  | [] => true
  | k :: r => forallb (fun k' => negb (key_before k' k)) r && ordered_keys r
  end.

Fixpoint distinct_keys (ks : list jsstring) : bool :=
  match ks with
  | [] => true
  | k :: r => negb (existsb (JsString.eqb k) r) && distinct_keys r
  end.

(** A string of UTF-16 code units. *)
Definition is_code_units (s : jsstring) : bool :=
  forallb (fun c => c <? 65536) s.

(** Values that [JSON.stringify] writes and [JSON.parse] reads back:
    no [undefined], numbers as in [number_ok], strings and keys of
    code units, objects whose keys are distinct and in the order objects
    list them. *)
Fixpoint json_ok (v : jsval) : bool :=
  match v with
  | JUndefined => false
  | JNull => true
  | JBool _ => true
  | JNumber n => number_ok n
  | JString s => is_code_units s
  | JArray l => forallb json_ok l
  | JObject ps =>
    forallb is_code_units (map fst ps)
    && distinct_keys (map fst ps) && ordered_keys (map fst ps)
    && forallb (fun p => json_ok (snd p)) ps
  end.

(** A recursion budget that suffices to read a value's text. *)
Fixpoint weight (v : jsval) : nat :=
  match v with
  | JArray l => S (list_sum (map (fun x => S (weight x)) l))
  | JObject ps => S (list_sum (map (fun p => S (weight (snd p))) ps))
  | _ => 1
  end.

(** The text of a value as an array element: [undefined] is written as
    null. *)
Definition text_of (v : jsval) : jsstring :=
  match SerializeJSONProperty v with
  | Some t => t
  | None => lit "null"
  end.

Definition member_text (p : jsstring * jsval) : jsstring :=
  QuoteJSONString (fst p) ++ lit ":" ++ text_of (snd p).

(** First characters of the text of a value. *)
Definition opens_value (c : code_unit) : bool :=
  negb (is_json_ws c) && negb (c =? 93) && negb (c =? 125).

Definition is_undefined (v : jsval) : bool :=
  match v with
  | JUndefined => true
  | _ => false
  end.

(** The properties [JSON.stringify] writes. *)
Definition defined_properties (o : jsobject) : jsobject :=
  filter (fun p => negb (is_undefined (snd p))) o.

(* ===================================================================== *)
(** ** Proof tools *)
(* ===================================================================== *)

(** Equations between concatenations that differ by bracketing only: the
    literals are first replaced by variables, so that no rewriting step
    looks into them. *)
Ltac hide_literals :=
  repeat match goal with
         | |- context [lit ?s] =>
           let x := fresh "piece" in generalize (lit s); intro x
         | |- context [litq ?s] =>
           let x := fresh "piece" in generalize (litq s); intro x
         end.

Ltac reassociate := hide_literals; rewrite <- ?app_assoc; reflexivity.

(** A literal is the concatenation of its parts. *)
Ltac split_literal whole parts :=
  let E := fresh "E" in
  assert (E : whole = parts) by (vm_compute; reflexivity);
  rewrite E; clear E.

(* ===================================================================== *)
(** * Properties *)
(* ===================================================================== *)

(** The literals are kept folded in the symbolic proofs below; closed
    computations go through [vm_compute]. *)
Opaque lit litq.


(* ===================================================================== *)
(** ** The runtime model on concrete inputs *)
(* ===================================================================== *)

Example lit_ascii : lit "a{" = [97; 123].
Proof. vm_compute. reflexivity. Qed.

Example lit_bmp : lit "≈é—" = [8776; 233; 8212].
Proof. vm_compute. reflexivity. Qed.

Example trim_ex : trim (lit "  {x}  " ++ LF) = lit "{x}".
Proof. vm_compute. reflexivity. Qed.

Example indexOf_ex :
  indexOf (lit "ab{c}d}") (lit "{") = 2%Z /\
  lastIndexOf (lit "ab{c}d}") (lit "}") = 6%Z /\
  indexOf (lit "abc") (lit "{") = (-1)%Z /\
  substring (lit "ab{c}d}") 2 5 = lit "{c}" /\
  substring (lit "ab{c}d}") 5 2 = lit "{c}" /\
  substring (lit "ab{c}d}") (-3) 100 = lit "ab{c}d}".
Proof. vm_compute. repeat split. Qed.

Example stringify_ex :
  JSON_stringify
    (JObject [ (lit "name", JString (lit "Boiled egg"));
               (lit "q", JUndefined);
               (lit "kcal", JNumber (num_of_Z 2000));
               (lit "p", JNumber (Finite false 113 (-1)));
               (lit "l", JArray [JNull; JUndefined; JBool true]) ])
  = Some (litq "{`name`:`Boiled egg`,`kcal`:2000,`p`:11.3,`l`:[null,null,true]}").
Proof. vm_compute. reflexivity. Qed.

Example stringify_escapes :
  JSON_stringify (JString ([34; 92; 10; 1; 233; 55357; 56832; 56832]))
  = Some ([34] ++ lit "\" ++ [34] ++ lit "\\\n\u0001" ++ [233; 55357; 56832]
          ++ lit "\ude00" ++ [34]).
Proof. vm_compute. reflexivity. Qed.

Example tostring_ex :
  map Number_toString
      [ Finite false 1 (-6); Finite false 1 (-7); Finite false 1 21;
        Finite true 12345 (-2); Finite false 123 20; Finite false 0 5;
        Finite false 15 (-1) ]
  = map lit ["0.000001"; "1e-7"; "1e+21"; "-123.45"; "1.23e+22"; "0"; "1.5"]%string.
Proof. vm_compute. reflexivity. Qed.

Example parse_ex :
  parse_value 100
    (litq " {`a` : [1, -2.50e1, true, null, `x\nA}`], `b`:{}, `a`:0} tail")
  = Ok (JObject [ (lit "a", JNumber (Finite false 0 0)); (lit "b", JObject []) ])
       (lit " tail").
Proof. vm_compute. reflexivity. Qed.

Example parse_ex2 :
  parse_value 100 (litq "[1, -2.50e1, true, null, `x\nA}`]")
  = Ok (JArray [ JNumber (Finite false 1 0); JNumber (Finite true 25 0);
                 JBool true; JNull; JString (lit "x" ++ LF ++ lit "A}") ])
       [].
Proof. vm_compute. reflexivity. Qed.

Example parse_key_order :
  JSON_parse (litq "{`b`:1,`2`:2,`x`:0,`1`:3,`b`:4}")
  = Value (JObject [ (lit "1", JNumber (Finite false 3 0));
                     (lit "2", JNumber (Finite false 2 0));
                     (lit "b", JNumber (Finite false 4 0));
                     (lit "x", JNumber (Finite false 0 0)) ]).
Proof. vm_compute. reflexivity. Qed.

Example parse_number_values :
  map JSON_parse
      [ lit "9007199254740993"; lit "1.0"; lit "0.10"; lit "1e400";
        lit "-0"; lit "-1e-400"; lit "5e-324"; lit "1E21";
        lit "0.30000000000000004"; lit "0.30000000000000001" ]
  = [ Value (JNumber (Finite false 9007199254740992 0));
      Value (JNumber (Finite false 1 0));
      Value (JNumber (Finite false 1 (-1)));
      Value (JNumber (Infinity false));
      Value (JNumber (Finite true 0 0));
      Value (JNumber (Finite true 0 0));
      Value (JNumber (Finite false 5 (-324)));
      Value (JNumber (Finite false 1000000000000000000000 0));
      Value (JNumber (Finite false 30000000000000004 (-17)));
      Value (JNumber (Finite false 3 (-1))) ].
Proof. vm_compute. reflexivity. Qed.

Example parse_long_numbers :
  map JSON_parse
      [ lit "9223372036854775808"; lit "123456789.123456789"; lit "1e23";
        lit "9007199254740991"; lit "-9007199254740992" ]
  = [ Value (JNumber (Finite false 9223372036854776000 0));
      Value (JNumber (Finite false 12345678912345679 (-8)));
      Value (JNumber (Finite false 100000000000000000000000 0));
      Value (JNumber (Finite false 9007199254740991 0));
      Value (JNumber (Finite true 9007199254740992 0)) ].
Proof. vm_compute. reflexivity. Qed.

Example array_index_values :
  map array_index
      [ lit "0"; lit "7"; lit "42"; lit "4294967294"; lit "4294967295";
        lit "00"; lit "01"; lit ""; lit "-1"; lit "1.5"; lit "b" ]
  = [ Some 0; Some 7; Some 42; Some 4294967294; None;
      None; None; None; None; None; None ].
Proof. vm_compute. reflexivity. Qed.

Example parse_ex3 :
  map JSON_parse
      [ lit "01"; lit "-"; lit "1."; lit "[1,]"; litq "{`a`:1,}";
        litq "{`a` 1}"; lit "tru"; lit "1e"; litq "`abc"; lit "";
        lit "[1] x"; lit "{'a':1}" ]
  = repeat (Raise SyntaxErrorExn) 12.
Proof. vm_compute. reflexivity. Qed.

(** The examples of the specification for the response extractor. *)
Example parse_null_and_empty :
  parseAssistantJson None = ([], Value JNull)
  /\ parseAssistantJson (Some (lit "")) = ([], Value JNull).
Proof. split; vm_compute; reflexivity. Qed.

Example parse_greet :
  exists v,
    snd (parseAssistantJson
           (Some (litq "{`intent`:`greet`,`fulfillment_text`:`hi`,`data`:{},`follow_up`:{`should_ask`:false,`questions`:[]}}")))
    = Value v
    /\ get v (lit "intent") = str "greet".
Proof. eexists. split; vm_compute; reflexivity. Qed.

Example parse_no_braces :
  parseAssistantJson (Some (lit "Sorry, I cannot help with that."))
  = ([], Value JNull).
Proof. vm_compute. reflexivity. Qed.

(** An object followed by prose, with nothing before it, is not
    recovered: step (1) hands the whole text to the parser. *)
Example parse_object_then_prose :
  parseAssistantJson (Some (litq "{`a`:1} Let me know."))
  = ([litq "{`a`:1} Let me know."], Value JNull).
Proof. vm_compute. reflexivity. Qed.

(** The session context of the module's own [exampleBuild]. *)
Example exampleBuild_context :
  session_context_content AI_NAME_sample OWNER_NAME_sample DATE_AND_TIME_sample
    exampleOptions
  = lit "Context for this session:" ++ LF
    ++ lit "User display name: Riya." ++ LF
    ++ litq "User profile: {`name`:`Riya`,`age`:28,`sex`:`female`,`height_cm`:160,`weight_kg`:58,`daily_kcal_goal`:2000,`dietary_preferences`:[`vegetarian`],`allergies`:[]}."
    ++ LF
    ++ litq "Session state: {`today_kcal_consumed`:560,`today_log`:[{`name`:`Boiled egg`,`quantity`:`2`,`kcal`:156},{`name`:`Whole wheat toast`,`quantity`:`1 slice`,`kcal`:70},{`name`:`Greek yogurt`,`quantity`:`1 cup`,`kcal`:334}],`timezone`:`Asia/Kolkata`}."
    ++ LF
    ++ lit "Assistant response language: English." ++ LF ++ LF
    ++ lit "IMPORTANT: Respond with ONLY valid JSON using the schema in the system prompt. Do NOT include any extra explanatory text.".
Proof. vm_compute. reflexivity. Qed.

Example fewShot_first_reply :
  option_map content (nth_error fewShotExamples 1)
  = Some (litq "{`intent`:`log_food`,`fulfillment_text`:`Logged 2 boiled eggs (≈156 kcal) and 1 slice whole-wheat toast (≈70 kcal). Added ≈226 kcal to today.`,`data`:{`items`:[{`name`:`Boiled egg`,`quantity`:`2`,`kcal`:156},{`name`:`Whole wheat toast`,`quantity`:`1 slice`,`kcal`:70}],`added_kcal`:226,`new_total_kcal`:226,`goal_kcal`:2000,`progress_percent`:11.3},`follow_up`:{`should_ask`:false,`questions`:[]}}").
Proof. vm_compute. reflexivity. Qed.

(** The order of an object's keys is part of its structure: it shows in
    the serialized profile. *)
Example key_order_is_observable :
  buildMessages AI_NAME_sample OWNER_NAME_sample DATE_AND_TIME_sample
    nameFirstOptions
  <> buildMessages AI_NAME_sample OWNER_NAME_sample DATE_AND_TIME_sample
       ageFirstOptions.
Proof. vm_compute. discriminate. Qed.

(* ===================================================================== *)
(** ** Strings *)
(* ===================================================================== *)

Lemma startsWith_nil (s : jsstring) : startsWith s [] = true.
Proof. destruct s; reflexivity. Qed.

Lemma startsWith_app (p s : jsstring) : startsWith (p ++ s) p = true.
Proof.
  induction p as [|d p IH]; simpl; [apply startsWith_nil|].
  now rewrite N.eqb_refl, IH.
Qed.

Lemma endsWith_app (a p : jsstring) : endsWith (a ++ p) p = true.
Proof. unfold endsWith. rewrite rev_app_distr. apply startsWith_app. Qed.

(** Two strings whose last-but-one code units differ are not suffixes
    of one another. *)
Lemma endsWith_last2 (a b : jsstring) (x x' y y' : code_unit) :
  (x =? x') = false ->
  endsWith (a ++ [x; y]) (b ++ [x'; y']) = false.
Proof.
  intros Hx. unfold endsWith. rewrite !rev_app_distr. simpl.
  rewrite Hx. now rewrite andb_false_r.
Qed.

Lemma indexOf_from_lower (s p : jsstring) (i : Z) :
  (indexOf_from s p i = -1 \/ i <= indexOf_from s p i)%Z.
Proof.
  revert i. induction s as [|c s IH]; intros i;
    cbn [indexOf_from].
  - destruct (startsWith [] p); [right; lia | left; reflexivity].
  - destruct (startsWith (c :: s) p); [right; lia|].
    destruct (IH (i + 1)%Z) as [H|H]; [left; exact H | right; lia].
Qed.

Lemma indexOf_from_found (a p b : jsstring) (i : Z) :
  (i <= indexOf_from (a ++ p ++ b) p i)%Z.
Proof.
  revert i. induction a as [|c a IH]; intros i.
  - simpl app. pose proof (startsWith_app p b) as E.
    destruct (p ++ b); cbn [indexOf_from]; rewrite E; lia.
  - simpl app. cbn [indexOf_from].
    destruct (startsWith (c :: a ++ p ++ b) p); [lia|].
    specialize (IH (i + 1)%Z). lia.
Qed.

Lemma includes_app (a p b : jsstring) : includes (a ++ p ++ b) p = true.
Proof.
  unfold includes, indexOf. apply Z.leb_le. apply indexOf_from_found.
Qed.

Lemma includes_intro (s a p b : jsstring) :
  s = a ++ p ++ b -> includes s p = true.
Proof. intros ->. apply includes_app. Qed.

Lemma includes_suffix (a p : jsstring) : includes (a ++ p) p = true.
Proof.
  rewrite <- (app_nil_r p) at 1. apply includes_app.
Qed.

(* ===================================================================== *)
(** ** The JSON parser *)
(* ===================================================================== *)

Local Open Scope nat_scope.

Lemma skip_ws_length (s : jsstring) : List.length (skip_ws s) <= List.length s.
Proof.
  induction s as [|c s IH]; cbn [skip_ws]; [lia|].
  destruct (is_json_ws c); cbn [List.length] in *; lia.
Qed.

Lemma skip_ws_cons (s r : jsstring) (c : code_unit) :
  skip_ws s = c :: r -> List.length r < List.length s.
Proof.
  intros E. pose proof (skip_ws_length s) as H. rewrite E in H.
  cbn [List.length] in H. lia.
Qed.

Lemma push_unit_length (c : code_unit) (x : option (jsstring * jsstring))
      (str r : jsstring) :
  push_unit c x = Some (str, r) ->
  exists str', x = Some (str', r).
Proof.
  destruct x as [[str' r']|]; cbn; [|discriminate].
  intros [= _ <-]. now exists str'.
Qed.

Lemma parse_string_body_length (s str r : jsstring) :
  parse_string_body s = Some (str, r) -> List.length r < List.length s.
Proof.
  remember (List.length s) as n eqn:En.
  assert (Hn : List.length s <= n) by lia. clear En.
  revert s str r Hn. induction n as [|n IH]; intros s str r Hn.
  - destruct s; [discriminate | cbn in Hn; lia].
  - destruct s as [|c s]; [discriminate|]. cbn [parse_string_body].
    cbn [List.length] in Hn.
    destruct (c =? 34)%N.
    { intros [= _ <-]. cbn. lia. }
    destruct (c =? 92)%N.
    { destruct s as [|e r1]; [discriminate|].
      destruct (e =? 117)%N.
      - destruct r1 as [|h1 [|h2 [|h3 [|h4 r2]]]]; try discriminate.
        destruct (hex4_value h1 h2 h3 h4); [|discriminate].
        intros H. apply push_unit_length in H as [str' H].
        apply IH in H; cbn [List.length] in *; lia.
      - destruct (simple_escape e); [|discriminate].
        intros H. apply push_unit_length in H as [str' H].
        apply IH in H; cbn [List.length] in *; lia. }
    destruct (c <? 32)%N; [discriminate|].
    intros H. apply push_unit_length in H as [str' H].
    apply IH in H; cbn [List.length] in *; lia.
Qed.

Lemma span_digits_length (s : jsstring) :
  List.length (snd (span_digits s)) <= List.length s.
Proof.
  induction s as [|c s IH]; cbn [span_digits]; [cbn; lia|].
  destruct (is_digit c); [|cbn; lia].
  destruct (span_digits s) as [ds r]. cbn [snd List.length] in *. lia.
Qed.

Lemma parse_int_part_length (s ip r : jsstring) :
  parse_int_part s = Some (ip, r) -> List.length r < List.length s.
Proof.
  unfold parse_int_part. destruct s as [|c s']; [discriminate|].
  destruct (c =? 48)%N.
  { intros [= _ <-]. cbn. lia. }
  destruct (is_digit c) eqn:Hd; [|discriminate].
  intros [= H]. cbn [span_digits] in H. rewrite Hd in H.
  pose proof (span_digits_length s') as L.
  destruct (span_digits s') as [ds r']. injection H as _ <-.
  cbn [snd List.length] in *. lia.
Qed.

Lemma parse_frac_part_length (s fp r : jsstring) :
  parse_frac_part s = Some (fp, r) -> List.length r <= List.length s.
Proof.
  unfold parse_frac_part. destruct s as [|c s']; [intros [= _ <-]; lia|].
  destruct (c =? 46)%N; [|intros [= _ <-]; lia].
  pose proof (span_digits_length s') as L.
  destruct (span_digits s') as [[|d ds] r']; [discriminate|].
  intros [= _ <-]. cbn [snd List.length] in *. lia.
Qed.

Lemma parse_exp_digits_length (neg : bool) (s r : jsstring) (e : Z) :
  parse_exp_digits neg s = Some (e, r) -> List.length r <= List.length s.
Proof.
  unfold parse_exp_digits. pose proof (span_digits_length s) as L.
  destruct (span_digits s) as [[|d ds] r']; [discriminate|].
  intros [= _ <-]. cbn [snd] in L. lia.
Qed.

Lemma parse_exp_part_length (s r : jsstring) (e : Z) :
  parse_exp_part s = Some (e, r) -> List.length r <= List.length s.
Proof.
  unfold parse_exp_part. destruct s as [|c s']; [intros [= _ <-]; lia|].
  destruct ((c =? 101) || (c =? 69))%N; [|intros [= _ <-]; lia].
  destruct s' as [|g r']; [discriminate|].
  destruct (g =? 43)%N; [|destruct (g =? 45)%N];
    intros H; apply parse_exp_digits_length in H; cbn [List.length] in *; lia.
Qed.

Lemma parse_decimal_length (s r : jsstring) (d : bool * N * Z) :
  parse_decimal s = Some (d, r) -> List.length r < List.length s.
Proof.
  unfold parse_decimal.
  set (sign := match s with
               | c :: r => if (c =? 45)%N then (true, r) else (false, s)
               | [] => (false, s)
               end).
  assert (Hs : List.length (snd sign) <= List.length s).
  { subst sign. destruct s as [|c s']; [cbn; lia|].
    destruct (c =? 45)%N; cbn; lia. }
  destruct sign as [neg s1]. cbn [snd] in Hs.
  destruct (parse_int_part s1) as [[ip s2]|] eqn:E1; [|discriminate].
  destruct (parse_frac_part s2) as [[fp s3]|] eqn:E2; [|discriminate].
  destruct (parse_exp_part s3) as [[e s4]|] eqn:E3; [|discriminate].
  intros [= _ <-].
  apply parse_int_part_length in E1. apply parse_frac_part_length in E2.
  apply parse_exp_part_length in E3. lia.
Qed.

Lemma parse_number_length (s r : jsstring) (n : number) :
  parse_number s = Some (n, r) -> List.length r < List.length s.
Proof.
  unfold parse_number.
  destruct (parse_decimal s) as [[[[neg m] e] r']|] eqn:E; [|discriminate].
  intros [= _ <-]. now apply parse_decimal_length in E.
Qed.

Lemma parse_keyword_length (kw s r : jsstring) (v0 v : jsval) :
  kw <> [] ->
  parse_keyword kw v0 s = Ok v r -> List.length r < List.length s.
Proof.
  unfold parse_keyword. intros Hk.
  destruct (startsWith s kw) eqn:E; [|discriminate].
  intros [= _ <-]. rewrite length_skipn.
  destruct kw as [|k kw]; [congruence|].
  destruct s as [|c s]; [discriminate|]. cbn [List.length]. lia.
Qed.

(** A successful sub-parser consumes input. *)
Lemma parse_consumes (fuel : nat) :
  (forall s v r, parse_value fuel s = Ok v r -> List.length r < List.length s)
  /\ (forall acc s v r, parse_elements fuel acc s = Ok v r ->
                        List.length r < List.length s)
  /\ (forall acc s v r, parse_members fuel acc s = Ok v r ->
                        List.length r < List.length s).
Proof.
  induction fuel as [|f (IHv & IHe & IHm)].
  { repeat split; intros; discriminate. }
  split; [|split].
  - intros s v r. cbn [parse_value].
    destruct (skip_ws s) as [|c r0] eqn:Es; [discriminate|].
    apply skip_ws_cons in Es.
    destruct (c =? 123)%N.
    { destruct (skip_ws r0) as [|d r'] eqn:Er; [discriminate|].
      apply skip_ws_cons in Er.
      destruct (d =? 125)%N; [intros [= _ <-]; lia|].
      intros H. apply IHm in H. lia. }
    destruct (c =? 91)%N.
    { destruct (skip_ws r0) as [|d r'] eqn:Er; [discriminate|].
      apply skip_ws_cons in Er.
      destruct (d =? 93)%N; [intros [= _ <-]; lia|].
      intros H. apply IHe in H. lia. }
    destruct (c =? 34)%N.
    { destruct (parse_string_body r0) as [[str r']|] eqn:Eb; [|discriminate].
      apply parse_string_body_length in Eb. intros [= _ <-]. lia. }
    destruct ((c =? 45)%N || is_digit c).
    { destruct (parse_number (c :: r0)) as [[n r']|] eqn:En; [|discriminate].
      apply parse_number_length in En. cbn [List.length] in En.
      intros [= _ <-]. lia. }
    destruct (c =? 116)%N.
    { intros H. apply parse_keyword_length in H;
        [cbn [List.length] in H; lia | vm_compute; discriminate]. }
    destruct (c =? 102)%N.
    { intros H. apply parse_keyword_length in H;
        [cbn [List.length] in H; lia | vm_compute; discriminate]. }
    destruct (c =? 110)%N; [|discriminate].
    intros H. apply parse_keyword_length in H;
      [cbn [List.length] in H; lia | vm_compute; discriminate].
  - intros acc s v r. cbn [parse_elements].
    destruct (parse_value f s) as [v1 r1| |] eqn:Ev; try discriminate.
    apply IHv in Ev.
    destruct (skip_ws r1) as [|d r'] eqn:Er; [discriminate|].
    apply skip_ws_cons in Er.
    destruct (d =? 44)%N; [intros H; apply IHe in H; lia|].
    destruct (d =? 93)%N; [intros [= _ <-]; lia | discriminate].
  - intros acc s v r. cbn [parse_members].
    destruct (skip_ws s) as [|q r0] eqn:Es; [discriminate|].
    apply skip_ws_cons in Es.
    destruct (q =? 34)%N; [|discriminate].
    destruct (parse_string_body r0) as [[k r1]|] eqn:Eb; [|discriminate].
    apply parse_string_body_length in Eb.
    destruct (skip_ws r1) as [|col r2] eqn:E1; [discriminate|].
    apply skip_ws_cons in E1.
    destruct (col =? 58)%N; [|discriminate].
    destruct (parse_value f r2) as [v1 r3| |] eqn:Ev; try discriminate.
    apply IHv in Ev.
    destruct (skip_ws r3) as [|d r4] eqn:E3; [discriminate|].
    apply skip_ws_cons in E3.
    destruct (d =? 44)%N; [intros H; apply IHm in H; lia|].
    destruct (d =? 125)%N; [intros [= _ <-]; lia | discriminate].
Qed.

(** The recursion budget is never the reason a parse stops. *)
Lemma parse_enough_fuel (fuel : nat) :
  (forall s, 2 * List.length s + 1 <= fuel -> parse_value fuel s <> OutOfFuel)
  /\ (forall acc s, 2 * List.length s + 2 <= fuel ->
                    parse_elements fuel acc s <> OutOfFuel)
  /\ (forall acc s, 2 * List.length s + 2 <= fuel ->
                    parse_members fuel acc s <> OutOfFuel).
Proof.
  induction fuel as [|f (IHv & IHe & IHm)].
  { repeat split; intros; lia. }
  split; [|split].
  - intros s Hf. cbn [parse_value].
    destruct (skip_ws s) as [|c r0] eqn:Es; [discriminate|].
    apply skip_ws_cons in Es.
    destruct (c =? 123)%N.
    { destruct (skip_ws r0) as [|d r'] eqn:Er; [discriminate|].
      destruct (d =? 125)%N; [discriminate|]. apply IHm. lia. }
    destruct (c =? 91)%N.
    { destruct (skip_ws r0) as [|d r'] eqn:Er; [discriminate|].
      destruct (d =? 93)%N; [discriminate|]. apply IHe. lia. }
    destruct (c =? 34)%N.
    { destruct (parse_string_body r0) as [[str r']|]; discriminate. }
    destruct ((c =? 45)%N || is_digit c).
    { destruct (parse_number (c :: r0)) as [[n r']|]; discriminate. }
    unfold parse_keyword.
    destruct (c =? 116)%N; [destruct (startsWith _ _); discriminate|].
    destruct (c =? 102)%N; [destruct (startsWith _ _); discriminate|].
    destruct (c =? 110)%N; [destruct (startsWith _ _); discriminate|].
    discriminate.
  - intros acc s Hf. cbn [parse_elements].
    destruct (parse_value f s) as [v1 r1| |] eqn:Ev; [|discriminate|].
    + apply (proj1 (parse_consumes f)) in Ev.
      destruct (skip_ws r1) as [|d r'] eqn:Er; [discriminate|].
      apply skip_ws_cons in Er.
      destruct (d =? 44)%N; [apply IHe; lia|].
      destruct (d =? 93)%N; discriminate.
    + exfalso. revert Ev. apply IHv. lia.
  - intros acc s Hf. cbn [parse_members].
    destruct (skip_ws s) as [|q r0] eqn:Es; [discriminate|].
    apply skip_ws_cons in Es.
    destruct (q =? 34)%N; [|discriminate].
    destruct (parse_string_body r0) as [[k r1]|] eqn:Eb; [|discriminate].
    apply parse_string_body_length in Eb.
    destruct (skip_ws r1) as [|col r2] eqn:E1; [discriminate|].
    apply skip_ws_cons in E1.
    destruct (col =? 58)%N; [|discriminate].
    destruct (parse_value f r2) as [v1 r3| |] eqn:Ev; [|discriminate|].
    + apply (proj1 (parse_consumes f)) in Ev.
      destruct (skip_ws r3) as [|d r4] eqn:E3; [discriminate|].
      apply skip_ws_cons in E3.
      destruct (d =? 44)%N; [apply IHm; lia|].
      destruct (d =? 125)%N; discriminate.
    + exfalso. revert Ev. apply IHv. lia.
Qed.

Lemma parse_value_fuel (s : jsstring) : parse_value (fuel_for s) s <> OutOfFuel.
Proof. apply (proj1 (parse_enough_fuel (fuel_for s))). unfold fuel_for. lia. Qed.

(** [JSON.parse] returns what the parser reads when only white space
    follows it, and throws a SyntaxError otherwise. *)
Lemma JSON_parse_spec (s : jsstring) :
  (exists v r, parse_value (fuel_for s) s = Ok v r /\ skip_ws r = []
               /\ JSON_parse s = Value v)
  \/ (JSON_parse s = Raise SyntaxErrorExn
      /\ ((exists v r c r', parse_value (fuel_for s) s = Ok v r
                            /\ skip_ws r = c :: r')
          \/ parse_value (fuel_for s) s = SyntaxError)).
Proof.
  unfold JSON_parse. pose proof (parse_value_fuel s) as Hf.
  destruct (parse_value (fuel_for s) s) as [v r| |]; [| |congruence].
  - destruct (skip_ws r) as [|c r'] eqn:Er.
    + left. now exists v, r.
    + right. split; [reflexivity|]. left. now exists v, r, c, r'.
  - right. split; [reflexivity|]. now right.
Qed.

Local Close Scope nat_scope.

(* ===================================================================== *)
(** ** Response extractor *)
(* ===================================================================== *)

Lemma lastIndexOf_from_lower (s p : jsstring) (i found : Z) :
  (lastIndexOf_from s p i found = found \/ i <= lastIndexOf_from s p i found)%Z.
Proof.
  revert i found. induction s as [|c s IH]; intros i found;
    cbn [lastIndexOf_from].
  - destruct (startsWith [] p); [right; lia | left; reflexivity].
  - destruct (startsWith (c :: s) p).
    + destruct (IH (i + 1)%Z i) as [H|H]; right; lia.
    + destruct (IH (i + 1)%Z found) as [H|H]; [left; exact H | right; lia].
Qed.

Lemma indexOf_range (s p : jsstring) :
  (indexOf s p = -1 \/ 0 <= indexOf s p)%Z.
Proof. apply indexOf_from_lower. Qed.

Lemma lastIndexOf_range (s p : jsstring) :
  (lastIndexOf s p = -1 \/ 0 <= lastIndexOf s p)%Z.
Proof. apply lastIndexOf_from_lower. Qed.

(** The test of the source and the test of the specification agree. *)
Lemma markers_test (first last : Z) :
  (first = -1 \/ 0 <= first)%Z ->
  (last = -1 \/ 0 <= last)%Z ->
  (negb (first =? -1) && negb (last =? -1) && (last >? first))%Z
  = ((0 <=? first) && (0 <=? last) && (first <? last))%Z.
Proof.
  intros Hf Hl.
  destruct (Z.eqb_spec first (-1)), (Z.eqb_spec last (-1)),
           (Z.leb_spec 0 first), (Z.leb_spec 0 last),
           (Z.ltb_spec first last); rewrite ?Z.gtb_ltb; cbn [negb andb];
    try reflexivity; try lia;
    destruct (Z.ltb_spec first last); try reflexivity; lia.
Qed.

(** [substring(first, last + 1)] is the inclusive span from [first] to
    [last]. *)
Lemma substring_span (s : jsstring) (first last : Z) :
  (0 <= first)%Z -> (first < last)%Z ->
  substring s first (last + 1)
  = firstn (Z.to_nat (last - first + 1)) (skipn (Z.to_nat first) s).
Proof.
  intros H0 Hlt. unfold substring, clamp.
  set (len := Z.of_nat (List.length s)).
  assert (Hlen : (0 <= len)%Z) by (unfold len; lia).
  destruct (Z_lt_le_dec first len) as [Hin|Hout].
  - replace (Z.min (Z.min (Z.max first 0) len) (Z.min (Z.max (last + 1) 0) len))
      with first by lia.
    destruct (Z_le_gt_dec (last + 1) len) as [Hl|Hl].
    + replace (Z.max (Z.min (Z.max first 0) len)
                     (Z.min (Z.max (last + 1) 0) len))
        with (last + 1)%Z by lia.
      f_equal. lia.
    + replace (Z.max (Z.min (Z.max first 0) len)
                     (Z.min (Z.max (last + 1) 0) len))
        with len by lia.
      rewrite !firstn_all2; [reflexivity | |];
        rewrite length_skipn; unfold len in *; lia.
  - replace (Z.min (Z.min (Z.max first 0) len) (Z.min (Z.max (last + 1) 0) len))
      with len by lia.
    replace (Z.max (Z.min (Z.max first 0) len)
                   (Z.min (Z.max (last + 1) 0) len))
      with len by lia.
    rewrite !skipn_all2 by (unfold len in *; lia).
    now rewrite !firstn_nil.
Qed.

(** The source computes the algorithm of the specification, and hands
    the parser exactly the candidate the specification names. *)
Lemma parseAssistantJson_eq (text : option jsstring) :
  parseAssistantJson text
  = (match extract_candidate text with Some s => [s] | None => [] end,
     Value (value_of_option (extract_spec text))).
Proof.
  unfold parseAssistantJson, extract_spec, extract_candidate.
  destruct text as [[|c t]|]; [reflexivity | | reflexivity].
  cbn [ToBoolean_text negb If string_of_text].
  generalize (trim (c :: t)). intros trimmed. cbn [Seq Skip app].
  destruct (startsWith trimmed (lit "{") || startsWith trimmed (lit "[")).
  - unfold If, ReturnCall, call_JSON_parse, try_parse.
    destruct (JSON_parse trimmed); reflexivity.
  - cbn [If Seq Skip app].
    rewrite (markers_test _ _ (indexOf_range trimmed (lit "{"))
               (lastIndexOf_range trimmed (lit "}"))).
    destruct ((0 <=? indexOf trimmed (lit "{"))%Z) eqn:Hf; [|reflexivity].
    destruct ((0 <=? lastIndexOf trimmed (lit "}"))%Z) eqn:Hl; [|reflexivity].
    destruct ((indexOf trimmed (lit "{") <? lastIndexOf trimmed (lit "}"))%Z)
      eqn:Hlt; [|reflexivity].
    cbn [andb If].
    rewrite substring_span by (apply Z.leb_le in Hf; apply Z.ltb_lt in Hlt; lia).
    unfold ReturnCall, call_JSON_parse, try_parse.
    destruct (JSON_parse _); reflexivity.
Qed.

Lemma lit_lbrace : lit "{" = [123].
Proof. vm_compute. reflexivity. Qed.

Lemma lit_lbracket : lit "[" = [91].
Proof. vm_compute. reflexivity. Qed.

Lemma lit_rbrace : lit "}" = [125].
Proof. vm_compute. reflexivity. Qed.

(** A successful parse of an array body is an array, of an object body
    an object. *)
Lemma parse_structured (fuel : nat) :
  (forall acc s v r, parse_elements fuel acc s = Ok v r -> is_structured v = true)
  /\ (forall acc s v r, parse_members fuel acc s = Ok v r -> is_structured v = true).
Proof.
  induction fuel as [|f (IHe & IHm)].
  { split; intros; discriminate. }
  split.
  - intros acc s v r. cbn [parse_elements].
    destruct (parse_value f s) as [v1 r1| |]; try discriminate.
    destruct (skip_ws r1) as [|d r']; [discriminate|].
    destruct (d =? 44); [apply IHe|].
    destruct (d =? 93); [intros [= <- _]; reflexivity | discriminate].
  - intros acc s v r. cbn [parse_members].
    destruct (skip_ws s) as [|q r0]; [discriminate|].
    destruct (q =? 34); [|discriminate].
    destruct (parse_string_body r0) as [[k r1]|]; [|discriminate].
    destruct (skip_ws r1) as [|col r2]; [discriminate|].
    destruct (col =? 58); [|discriminate].
    destruct (parse_value f r2) as [v1 r3| |]; try discriminate.
    destruct (skip_ws r3) as [|d r4]; [discriminate|].
    destruct (d =? 44); [apply IHm|].
    destruct (d =? 125); [intros [= <- _]; reflexivity | discriminate].
Qed.

Lemma JSON_parse_structured (s : jsstring) (v : jsval) :
  startsWith s (lit "{") || startsWith s (lit "[") = true ->
  JSON_parse s = Value v -> is_structured v = true.
Proof.
  rewrite lit_lbrace, lit_lbracket. unfold JSON_parse.
  destruct s as [|c s']; [discriminate|]. cbn [startsWith].
  rewrite !startsWith_nil, !andb_true_r. intros Hc.
  destruct (fuel_for (c :: s')) as [|f]; [discriminate|].
  cbn [parse_value skip_ws].
  assert (Hws : is_json_ws c = false).
  { apply orb_true_iff in Hc as [Hc|Hc]; apply N.eqb_eq in Hc; now subst c. }
  rewrite Hws.
  destruct (c =? 123) eqn:E1.
  { destruct (skip_ws s') as [|d r']; [discriminate|].
    destruct (d =? 125).
    - destruct (skip_ws r'); [intros [= <-]; reflexivity | discriminate].
    - destruct (parse_members f [] s') as [v1 r1| |] eqn:Em; try discriminate.
      apply (proj2 (parse_structured f)) in Em.
      destruct (skip_ws r1); [intros [= <-]; exact Em | discriminate]. }
  cbn [orb] in Hc. rewrite Hc.
  destruct (skip_ws s') as [|d r']; [discriminate|].
  destruct (d =? 93).
  - destruct (skip_ws r'); [intros [= <-]; reflexivity | discriminate].
  - destruct (parse_elements f [] s') as [v1 r1| |] eqn:Em; try discriminate.
    apply (proj1 (parse_structured f)) in Em.
    destruct (skip_ws r1); [intros [= <-]; exact Em | discriminate].
Qed.

Lemma indexOf_from_startsWith (s p : jsstring) (i : Z) :
  (0 <= i)%Z -> (i <= indexOf_from s p i)%Z ->
  startsWith (skipn (Z.to_nat (indexOf_from s p i - i)) s) p = true.
Proof.
  revert i. induction s as [|c s IH]; intros i Hi; cbn [indexOf_from].
  - destruct (startsWith [] p) eqn:E; [|lia].
    intros _. now rewrite Z.sub_diag.
  - destruct (startsWith (c :: s) p) eqn:E.
    + intros _. now rewrite Z.sub_diag.
    + intros H.
      destruct (indexOf_from_lower s p (i + 1)) as [Hn|Hge]; [lia|].
      specialize (IH (i + 1)%Z ltac:(lia) Hge).
      replace (Z.to_nat (indexOf_from s p (i + 1) - i))
        with (S (Z.to_nat (indexOf_from s p (i + 1) - (i + 1)))) by lia.
      exact IH.
Qed.

(** The candidate handed to the parser starts with a brace or a
    bracket. *)
Lemma extract_candidate_structured (text : option jsstring) (cand : jsstring) :
  extract_candidate text = Some cand ->
  startsWith cand (lit "{") || startsWith cand (lit "[") = true.
Proof.
  unfold extract_candidate. destruct text as [[|c t]|]; try discriminate.
  generalize (trim (c :: t)). intros trimmed.
  destruct (startsWith trimmed (lit "{") || startsWith trimmed (lit "["))
    eqn:E1; [intros [= <-]; exact E1|].
  destruct ((0 <=? indexOf trimmed (lit "{"))%Z) eqn:Hf; [|discriminate].
  destruct ((0 <=? lastIndexOf trimmed (lit "}"))%Z) eqn:Hl; [|discriminate].
  destruct ((indexOf trimmed (lit "{") <? lastIndexOf trimmed (lit "}"))%Z)
    eqn:Hlt; [|discriminate].
  intros [= <-]. apply Z.leb_le in Hf. apply Z.ltb_lt in Hlt.
  pose proof (indexOf_from_startsWith trimmed (lit "{") 0 (Z.le_refl 0) Hf)
    as Hs.
  fold (indexOf trimmed (lit "{")) in Hs. rewrite Z.sub_0_r in Hs.
  apply orb_true_iff. left. rewrite lit_lbrace in *.
  destruct (skipn (Z.to_nat (indexOf trimmed [123])) trimmed) as [|d rest];
    [discriminate|].
  replace (Z.to_nat (lastIndexOf trimmed (lit "}") - indexOf trimmed [123] + 1))
    with (S (Z.to_nat (lastIndexOf trimmed (lit "}") - indexOf trimmed [123])))
    by lia.
  cbn [firstn startsWith] in *. now rewrite startsWith_nil in *.
Qed.

(** A value the extractor returns is an object or an array, so [null]
    stands for the absent result only. *)
Lemma extract_spec_structured (text : option jsstring) (v : jsval) :
  extract_spec text = Some v -> is_structured v = true.
Proof.
  unfold extract_spec, try_parse.
  destruct (extract_candidate text) as [cand|] eqn:Ec; [|discriminate].
  destruct (JSON_parse cand) as [v'|] eqn:Ep; [|discriminate].
  intros [= <-]. apply extract_candidate_structured in Ec.
  eapply JSON_parse_structured; eassumption.
Qed.

(** *** Recovery of an object embedded in prose *)

Lemma trimStart_app (a x : jsstring) :
  trimStart a <> [] -> trimStart (a ++ x) = trimStart a ++ x.
Proof.
  induction a as [|c a IH]; cbn [trimStart app]; [congruence|].
  destruct (is_white_space c); [exact IH | reflexivity].
Qed.

Lemma trimStart_stop (a z : jsstring) (c : code_unit) :
  is_white_space c = false ->
  trimStart (a ++ c :: z) = trimStart a ++ c :: z.
Proof.
  intros Hc. induction a as [|d a IH]; cbn [trimStart app].
  - now rewrite Hc.
  - destruct (is_white_space d); [exact IH | reflexivity].
Qed.

Lemma trimEnd_stop (y post : jsstring) (c : code_unit) :
  is_white_space c = false ->
  trimEnd (y ++ c :: post) = y ++ c :: trimEnd post.
Proof.
  intros Hc. unfold trimEnd.
  rewrite rev_app_distr. cbn [rev]. rewrite <- app_assoc. cbn [app].
  rewrite (trimStart_stop _ _ _ Hc).
  rewrite rev_app_distr. cbn [rev]. rewrite rev_involutive.
  now rewrite <- app_assoc.
Qed.

Lemma trimStart_suffix (s : jsstring) (c : code_unit) :
  In c (trimStart s) -> In c s.
Proof.
  induction s as [|d s IH]; cbn [trimStart]; [easy|].
  destruct (is_white_space d); [right; auto | easy].
Qed.

Lemma trimEnd_prefix (s : jsstring) (c : code_unit) :
  In c (trimEnd s) -> In c s.
Proof.
  unfold trimEnd. rewrite <- in_rev. intros H.
  apply trimStart_suffix in H. now apply in_rev.
Qed.

Lemma startsWith_single (s : jsstring) (c : code_unit) :
  startsWith s [c] = match s with d :: _ => d =? c | [] => false end.
Proof.
  destruct s as [|d s]; [reflexivity|]. cbn [startsWith].
  now rewrite startsWith_nil, andb_true_r.
Qed.

Lemma not_includes_single (s : jsstring) (c : code_unit) :
  includes s [c] = false -> ~ In c s.
Proof.
  unfold includes, indexOf.
  assert (G : forall i, (0 <= i)%Z ->
              (0 <=? indexOf_from s [c] i)%Z = false -> ~ In c s).
  { induction s as [|d s IH]; intros i Hi; [easy|].
    cbn [indexOf_from]. rewrite startsWith_single.
    destruct (N.eqb_spec d c) as [->|Hn].
    - intros H. apply Z.leb_gt in H. lia.
    - intros H [->|Hin]; [congruence|].
      now apply (IH (i + 1)%Z ltac:(lia) H). }
  apply (G 0%Z). lia.
Qed.

Lemma indexOf_from_first (a z : jsstring) (c : code_unit) (i : Z) :
  ~ In c a -> indexOf_from (a ++ c :: z) [c] i = (i + Z.of_nat (List.length a))%Z.
Proof.
  revert i. induction a as [|d a IH]; intros i Hn; cbn [app indexOf_from].
  - rewrite startsWith_single, N.eqb_refl. cbn [List.length]. lia.
  - rewrite startsWith_single.
    destruct (N.eqb_spec d c) as [->|Hd]; [exfalso; apply Hn; now left|].
    rewrite IH by (intros H; apply Hn; now right).
    cbn [List.length]. lia.
Qed.

Lemma lastIndexOf_from_none (z : jsstring) (c : code_unit) (i found : Z) :
  ~ In c z -> lastIndexOf_from z [c] i found = found.
Proof.
  revert i. induction z as [|d z IH]; intros i Hn; cbn [lastIndexOf_from].
  - reflexivity.
  - rewrite startsWith_single.
    destruct (N.eqb_spec d c) as [->|Hd]; [exfalso; apply Hn; now left|].
    apply IH. intros H; apply Hn; now right.
Qed.

Lemma lastIndexOf_from_last (a z : jsstring) (c : code_unit) (i found : Z) :
  ~ In c z ->
  lastIndexOf_from (a ++ c :: z) [c] i found = (i + Z.of_nat (List.length a))%Z.
Proof.
  intros Hz. revert i found.
  induction a as [|d a IH]; intros i found; cbn [app lastIndexOf_from].
  - rewrite startsWith_single, N.eqb_refl.
    rewrite lastIndexOf_from_none by exact Hz. cbn [List.length]. lia.
  - rewrite IH. cbn [List.length]. lia.
Qed.

Lemma embed_assoc (a mid z : jsstring) :
  a ++ (123 :: mid ++ [125]) ++ z = (a ++ 123 :: mid) ++ 125 :: z.
Proof. cbn [app]. rewrite <- !app_assoc. reflexivity. Qed.

Lemma span_of_embedded (a b z : jsstring) :
  firstn (List.length b) (skipn (List.length a) (a ++ b ++ z)) = b.
Proof.
  rewrite skipn_app, skipn_all, Nat.sub_diag. cbn [skipn app].
  now rewrite firstn_app, Nat.sub_diag, firstn_all, firstn_O, app_nil_r.
Qed.

(** An object between a leading text without opening brace and a
    trailing text without closing brace is what the parser is given;
    braces inside the object, in string literals or not, do not matter.
    The leading text must not be blank and must not start with a
    bracket, or step (1) takes the whole text. *)
Lemma embedded_object_candidate (pre mid post : jsstring) :
  includes pre (lit "{") = false ->
  includes post (lit "}") = false ->
  trimStart pre <> [] ->
  startsWith (trimStart pre) (lit "[") = false ->
  extract_candidate (Some (pre ++ (lit "{" ++ mid ++ lit "}") ++ post))
  = Some (lit "{" ++ mid ++ lit "}").
Proof.
  rewrite lit_lbrace, lit_rbrace, lit_lbracket.
  intros Hpre Hpost Hne Hbr.
  apply not_includes_single in Hpre. apply not_includes_single in Hpost.
  change ([123] ++ mid ++ [125]) with (123 :: mid ++ [125]).
  set (obj := 123 :: mid ++ [125]).
  set (pre' := trimStart pre) in *. set (post' := trimEnd post).
  assert (Hpre' : ~ In 123 pre')
    by (intros H; apply Hpre; now apply trimStart_suffix).
  assert (Hpost' : ~ In 125 post')
    by (intros H; apply Hpost; now apply trimEnd_prefix).
  assert (Et : trim (pre ++ obj ++ post) = pre' ++ obj ++ post').
  { unfold trim. rewrite trimStart_app by exact Hne. fold pre'.
    unfold obj. rewrite !embed_assoc.
    now rewrite trimEnd_stop by reflexivity. }
  assert (Hfirst : indexOf (pre' ++ obj ++ post') [123]
                   = Z.of_nat (List.length pre')).
  { unfold indexOf.
    change (pre' ++ obj ++ post')
      with (pre' ++ 123 :: (mid ++ [125]) ++ post').
    rewrite indexOf_from_first by exact Hpre'. lia. }
  assert (Hlast : lastIndexOf (pre' ++ obj ++ post') [125]
                  = Z.of_nat (List.length pre' + S (List.length mid))).
  { unfold lastIndexOf, obj. rewrite embed_assoc.
    rewrite lastIndexOf_from_last by exact Hpost'.
    rewrite length_app. cbn [List.length]. lia. }
  assert (Es : startsWith (pre' ++ obj ++ post') [123]
               || startsWith (pre' ++ obj ++ post') [91] = false).
  { rewrite !startsWith_single. rewrite startsWith_single in Hbr.
    destruct pre' as [|c p]; [congruence|]. cbn [app].
    rewrite Hbr, orb_false_r. apply N.eqb_neq.
    intros ->. apply Hpre'. now left. }
  assert (Hc : exists c0 p0, pre = c0 :: p0).
  { destruct pre as [|c0 p0]; [now cbn in Hne | now exists c0, p0]. }
  destruct Hc as (c0 & p0 & Hc).
  unfold extract_candidate.
  rewrite ?lit_lbrace, ?lit_rbrace, ?lit_lbracket, Et, Es, Hfirst, Hlast.
  rewrite Hc at 1. cbn [app].
  rewrite (proj2 (Z.leb_le _ _)) by lia.
  rewrite (proj2 (Z.leb_le _ _)) by lia.
  rewrite (proj2 (Z.ltb_lt _ _)) by lia.
  cbn [andb]. f_equal.
  replace (Z.to_nat (Z.of_nat (List.length pre'))) with (List.length pre')
    by lia.
  replace (Z.to_nat (Z.of_nat (List.length pre' + S (List.length mid))
                     - Z.of_nat (List.length pre') + 1))
    with (List.length obj)
    by (unfold obj; cbn [List.length]; rewrite length_app;
        cbn [List.length]; lia).
  apply span_of_embedded.
Qed.

Lemma embedded_object_recovered (pre mid post : jsstring) :
  includes pre (lit "{") = false ->
  includes post (lit "}") = false ->
  trimStart pre <> [] ->
  startsWith (trimStart pre) (lit "[") = false ->
  parseAssistantJson (Some (pre ++ (lit "{" ++ mid ++ lit "}") ++ post))
  = ([lit "{" ++ mid ++ lit "}"],
     Value (value_of_option (try_parse (lit "{" ++ mid ++ lit "}")))).
Proof.
  intros H1 H2 H3 H4. rewrite parseAssistantJson_eq. unfold extract_spec.
  now rewrite embedded_object_candidate.
Qed.

(** C2: [parseAssistantJson] follows the algorithm of the
    specification: (1) a trimmed text that starts with a brace or a
    bracket is parsed whole; (2) otherwise the inclusive span from the
    first opening brace to the last closing brace, when the last lies
    after the first, is parsed; (3) without such a candidate, or when
    the parse raises, the result is absent.  An object embedded in prose
    is recovered: in general when the text before it is not blank, does
    not start with a bracket and has no opening brace, and the text
    after it has no closing brace; in particular on the example of the
    specification. *)
Theorem parseAssistantJson_algorithm :
  (forall text,
     parseAssistantJson text
     = (match extract_candidate text with Some s => [s] | None => [] end,
        Value (value_of_option (extract_spec text))))
  /\ (forall text v, extract_spec text = Some v -> is_structured v = true)
  /\ (forall pre mid post,
        includes pre (lit "{") = false ->
        includes post (lit "}") = false ->
        trimStart pre <> [] ->
        startsWith (trimStart pre) (lit "[") = false ->
        parseAssistantJson (Some (pre ++ (lit "{" ++ mid ++ lit "}") ++ post))
        = ([lit "{" ++ mid ++ lit "}"],
           Value (value_of_option (try_parse (lit "{" ++ mid ++ lit "}")))))
  /\ exists v,
       parseAssistantJson
         (Some (litq "Sure! {`intent`:`get_snapshot`,`data`:{`today_kcal_consumed`:500}} Let me know if you need more."))
       = ([litq "{`intent`:`get_snapshot`,`data`:{`today_kcal_consumed`:500}}"],
          Value v)
       /\ get v (lit "intent") = str "get_snapshot"
       /\ get (get v (lit "data")) (lit "today_kcal_consumed") = num 500.
Proof.
  split; [exact parseAssistantJson_eq|].
  split; [exact extract_spec_structured|].
  split; [exact embedded_object_recovered|].
  eexists. split; [vm_compute; reflexivity|].
  split; vm_compute; reflexivity.
Qed.

(** C5: [parseAssistantJson] never throws to its caller.  On [null], on
    the empty string and on a blank string it returns the absent result
    without calling the parser; a parse that raises is caught and the
    result is absent. *)
Theorem parseAssistantJson_never_throws :
  (forall text, exists t v, parseAssistantJson text = (t, Value v))
  /\ parseAssistantJson None = ([], Value JNull)
  /\ parseAssistantJson (Some []) = ([], Value JNull)
  /\ (forall text, trim text = [] ->
                   parseAssistantJson (Some text) = ([], Value JNull))
  /\ (forall text s e,
        extract_candidate text = Some s -> JSON_parse s = Raise e ->
        parseAssistantJson text = ([s], Value JNull))
  /\ JSON_parse (litq "{`intent`: `broken`") = Raise SyntaxErrorExn
  /\ parseAssistantJson (Some (litq "{`intent`: `broken`"))
     = ([litq "{`intent`: `broken`"], Value JNull).
Proof.
  split; [intros text; rewrite parseAssistantJson_eq; eauto|].
  split; [reflexivity|]. split; [reflexivity|].
  split.
  { intros text Ht. rewrite parseAssistantJson_eq.
    unfold extract_spec, extract_candidate.
    destruct text as [|c t]; [reflexivity|]. rewrite Ht.
    rewrite lit_lbrace, lit_lbracket, lit_rbrace. reflexivity. }
  split.
  { intros text s e Ec Ep. rewrite parseAssistantJson_eq.
    unfold extract_spec, try_parse. now rewrite Ec, Ep. }
  split; vm_compute; reflexivity.
Qed.

(** *** Text after a complete value

    What the parser reads from a text it also reads from the text
    followed by more input, as long as the value read does not end
    where the text ends (a number could go on). *)


















Local Open Scope nat_scope.

(** A larger recursion budget does not change a result that a smaller
    one already reaches. *)
Lemma parse_fuel_mono (f : nat) :
  (forall s f', f <= f' -> parse_value f s <> OutOfFuel ->
                parse_value f' s = parse_value f s)
  /\ (forall acc s f', f <= f' -> parse_elements f acc s <> OutOfFuel ->
                       parse_elements f' acc s = parse_elements f acc s)
  /\ (forall acc s f', f <= f' -> parse_members f acc s <> OutOfFuel ->
                       parse_members f' acc s = parse_members f acc s).
Proof.
  induction f as [|f (IHv & IHe & IHm)].
  { repeat split; intros; cbn in *; congruence. }
  split; [|split].
  - intros s [|f'] Hle; [lia|]. assert (Hf : f <= f') by lia.
    cbn [parse_value].
    destruct (skip_ws s) as [|c r]; [reflexivity|].
    destruct (c =? 123)%N.
    { destruct (skip_ws r) as [|d r']; [reflexivity|].
      destruct (d =? 125)%N; [reflexivity|]. intros H. now apply IHm. }
    destruct (c =? 91)%N.
    { destruct (skip_ws r) as [|d r']; [reflexivity|].
      destruct (d =? 93)%N; [reflexivity|]. intros H. now apply IHe. }
    reflexivity.
  - intros acc s [|f'] Hle; [lia|]. assert (Hf : f <= f') by lia.
    cbn [parse_elements].
    destruct (parse_value f s) as [v r| |] eqn:E; [| |congruence];
      rewrite (IHv s f' Hf) by (rewrite E; discriminate); rewrite E;
      [|reflexivity].
    destruct (skip_ws r) as [|d r']; [reflexivity|].
    destruct (d =? 44)%N; [|reflexivity]. intros H. now apply IHe.
  - intros acc s [|f'] Hle; [lia|]. assert (Hf : f <= f') by lia.
    cbn [parse_members].
    destruct (skip_ws s) as [|q r]; [reflexivity|].
    destruct (q =? 34)%N; [|reflexivity].
    destruct (parse_string_body r) as [[k r1]|]; [|reflexivity].
    destruct (skip_ws r1) as [|col r2]; [reflexivity|].
    destruct (col =? 58)%N; [|reflexivity].
    destruct (parse_value f r2) as [v r3| |] eqn:E; [| |congruence];
      rewrite (IHv r2 f' Hf) by (rewrite E; discriminate); rewrite E;
      [|reflexivity].
    destruct (skip_ws r3) as [|d r4]; [reflexivity|].
    destruct (d =? 44)%N; [|reflexivity]. intros H. now apply IHm.
Qed.

Local Close Scope nat_scope.



(* ===================================================================== *)
(** ** Prompt builder *)
(* ===================================================================== *)

Lemma fold_left_push_copy (l init : list ChatMessage) :
  fold_left (fun messages ex =>
               push messages {| role := role ex; content := content ex |})
            l init
  = init ++ l.
Proof.
  revert init. induction l as [|ex l IH]; intros init; simpl.
  - now rewrite app_nil_r.
  - rewrite IH. unfold push. rewrite <- app_assoc. now destruct ex.
Qed.

(** [JSON.stringify] of an object is a string, never [undefined]. *)
Lemma JSON_stringify_object (o : jsobject) :
  exists s, JSON_stringify (JObject o) = Some s /\ startsWith s (lit "{") = true.
Proof.
  eexists. split; [reflexivity|].
  cbn [SerializeJSONProperty]. apply startsWith_app.
Qed.

Section BuilderProperties.

Variables AI_NAME OWNER_NAME DATE_AND_TIME : jsstring.

Local Notation SYSTEM_PROMPT := (Prompt.SYSTEM_PROMPT AI_NAME OWNER_NAME DATE_AND_TIME).
Local Notation buildMessages := (Prompt.buildMessages AI_NAME OWNER_NAME DATE_AND_TIME).
Local Notation session_context_content :=
  (Prompt.session_context_content AI_NAME OWNER_NAME DATE_AND_TIME).

Lemma buildMessages_shape (opts : BuildMessagesOptions) :
  buildMessages opts =
    [ {| role := system; content := SYSTEM_PROMPT |};
      {| role := system;
         content := session_context_prefix opts ++ trailing_instruction opts |} ]
    ++ fewShotExamples
    ++ [ {| role := user; content := userMessage opts |} ].
Proof.
  unfold Prompt.buildMessages, push. rewrite fold_left_push_copy.
  unfold session_context_prefix, trailing_instruction.
  reassociate.
Qed.

Lemma session_context_content_eq (opts : BuildMessagesOptions) :
  session_context_content opts
  = session_context_prefix opts ++ trailing_instruction opts.
Proof.
  unfold Prompt.session_context_content. now rewrite buildMessages_shape.
Qed.

(** C1: for every options value, [buildMessages] returns exactly nine
    messages in a fixed order: the system message holding
    [SYSTEM_PROMPT], the system message holding the session context, the
    six few-shot turns (three user/assistant pairs), and one trailing
    user message whose content is [userMessage]; the first message has
    role [system] and the last has role [user]. *)
Theorem buildMessages_sequence (opts : BuildMessagesOptions) :
  buildMessages opts =
    {| role := system; content := SYSTEM_PROMPT |}
    :: {| role := system;
          content := session_context_prefix opts ++ trailing_instruction opts |}
    :: fewShotExamples
    ++ [ {| role := user; content := userMessage opts |} ]
  /\ List.length fewShotExamples = 6%nat
  /\ List.length (buildMessages opts) = 9%nat
  /\ map role (buildMessages opts)
     = [system; system; user; assistant; user; assistant; user; assistant; user]
  /\ option_map role (hd_error (buildMessages opts)) = Some system
  /\ last (buildMessages opts) {| role := system; content := [] |}
     = {| role := user; content := userMessage opts |}.
Proof.
  rewrite buildMessages_shape. repeat split.
Qed.

(** C6: [buildMessages] is total: every options value yields the
    nine-message sequence, and an empty or whitespace-only [userMessage]
    is not rejected but passed on as the content of the last message. *)
Theorem buildMessages_total (opts : BuildMessagesOptions) :
  (exists ctx,
     buildMessages opts =
       {| role := system; content := SYSTEM_PROMPT |}
       :: {| role := system; content := ctx |}
       :: fewShotExamples
       ++ [ {| role := user; content := userMessage opts |} ])
  /\ List.length (buildMessages (with_userMessage [] opts)) = 9%nat
  /\ last (buildMessages (with_userMessage [] opts))
          {| role := system; content := [] |}
     = {| role := user; content := [] |}
  /\ trim (lit "   ") = []
  /\ List.length (buildMessages (with_userMessage (lit "   ") opts)) = 9%nat
  /\ last (buildMessages (with_userMessage (lit "   ") opts))
          {| role := system; content := [] |}
     = {| role := user; content := lit "   " |}.
Proof.
  split.
  - eexists. rewrite buildMessages_shape. reflexivity.
  - rewrite !buildMessages_shape. repeat split.
Qed.

(** C9: an omitted [requireJSONResponse] behaves as [true] (the session
    context ends with the strict JSON-only instruction), an omitted
    [language] as English and an omitted [userName] as User. *)
Theorem omitted_fields_default (opts : BuildMessagesOptions) :
  buildMessages (with_requireJSONResponse None opts)
  = buildMessages (with_requireJSONResponse (Some true) opts)
  /\ endsWith (session_context_content (with_requireJSONResponse None opts))
              STRICT_INSTRUCTION = true
  /\ buildMessages (with_language None opts)
     = buildMessages (with_language (Some (lit "English")) opts)
  /\ includes (session_context_content (with_language None opts))
              (lit "Assistant response language: English.") = true
  /\ buildMessages (with_userName None opts)
     = buildMessages (with_userName (Some (lit "User")) opts)
  /\ includes (session_context_content (with_userName None opts))
              (lit "User display name: User.") = true.
Proof.
  rewrite !session_context_content_eq.
  split; [reflexivity|]. split.
  { unfold trailing_instruction.
    cbn [with_requireJSONResponse requireJSONResponse default_to
         jsonInstruction].
    apply endsWith_app. }
  split; [reflexivity|]. split.
  { apply includes_intro with
      (a := lit "Context for this session:" ++ LF ++
            (lit "User display name: " ++ default_to (lit "User") (userName opts)
               ++ lit "." ++ LF) ++
            profileBlock (userProfile opts) ++ LF ++
            sessionBlock (sessionState opts) ++ LF)
      (b := trailing_instruction (with_language None opts)).
    unfold session_context_prefix.
    cbn [with_language userName userProfile sessionState language default_to].
    split_literal (lit "Assistant response language: English.")
      (lit "Assistant response language: " ++ lit "English" ++ lit ".").
    reassociate. }
  split; [reflexivity|].
  apply includes_intro with
    (a := lit "Context for this session:" ++ LF)
    (b := LF ++ profileBlock (userProfile opts) ++ LF ++
          sessionBlock (sessionState opts) ++
          (LF ++ lit "Assistant response language: "
             ++ default_to (lit "English") (language opts) ++ lit ".") ++
          trailing_instruction (with_userName None opts)).
  unfold session_context_prefix.
  cbn [with_userName userName userProfile sessionState language default_to].
  split_literal (lit "User display name: User.")
    (lit "User display name: " ++ lit "User" ++ lit ".").
  reassociate.
Qed.

(** C10: a profile or session state that is present but has no key is
    treated exactly as an absent one: the placeholder block is used and
    the whole output is the same. *)
Theorem empty_object_as_absent (opts : BuildMessagesOptions) :
  buildMessages (with_userProfile (Some []) opts)
  = buildMessages (with_userProfile None opts)
  /\ profileBlock (Some []) = lit "User profile: Not provided."
  /\ buildMessages (with_sessionState (Some []) opts)
     = buildMessages (with_sessionState None opts)
  /\ sessionBlock (Some []) = lit "Session state: Not provided.".
Proof.
  assert (Hp : profileBlock (Some []) = profileBlock None) by reflexivity.
  assert (Hs : sessionBlock (Some []) = sessionBlock None) by reflexivity.
  rewrite !buildMessages_shape.
  unfold session_context_prefix, trailing_instruction.
  cbn [with_userProfile with_sessionState userName userProfile sessionState
       userMessage requireJSONResponse language].
  rewrite Hp, Hs. repeat apply conj; reflexivity.
Qed.

Lemma strict_tail : exists f, STRICT_INSTRUCTION = f ++ [116; 46].
Proof.
  exists (removelast (removelast STRICT_INSTRUCTION)).
  vm_compute. reflexivity.
Qed.

Lemma permissive_text_tail :
  exists t,
    litq " text. If helpful, include a short JSON payload labeled `assistant_payload`."
    = t ++ [34; 46].
Proof.
  exists (removelast (removelast
    (litq " text. If helpful, include a short JSON payload labeled `assistant_payload`."))).
  vm_compute. reflexivity.
Qed.

Lemma permissive_tail (lang : jsstring) :
  exists g, PERMISSIVE_INSTRUCTION lang = g ++ [34; 46].
Proof.
  destruct permissive_text_tail as [t Et].
  exists (LF ++ LF ++ lit "You may respond in natural " ++ lang ++ t).
  unfold PERMISSIVE_INSTRUCTION. rewrite Et. reassociate.
Qed.

(** No string ends with both trailing instructions. *)
Lemma trailing_exclusive (a lang : jsstring) :
  endsWith (a ++ STRICT_INSTRUCTION) (PERMISSIVE_INSTRUCTION lang) = false
  /\ endsWith (a ++ PERMISSIVE_INSTRUCTION lang) STRICT_INSTRUCTION = false.
Proof.
  destruct strict_tail as [f Ef]. destruct (permissive_tail lang) as [g Eg].
  rewrite Ef, Eg, !app_assoc.
  split; apply endsWith_last2; reflexivity.
Qed.

(** C4 (amended): the session-context message is the part that does not
    depend on the flag followed by exactly one trailing instruction.
    With [requireJSONResponse] true (or omitted) the content ends with,
    hence contains, the strict JSON-only instruction and does not end
    with the permissive one; with the flag false it ends with the
    permissive instruction, which names the configured language, and
    does not end with the strict one. *)
Theorem requireJSONResponse_toggles (opts : BuildMessagesOptions) :
  let c := session_context_content opts in
  let lang := default_to (lit "English") (language opts) in
  c = session_context_prefix opts ++ trailing_instruction opts
  /\ (forall b, session_context_prefix (with_requireJSONResponse b opts)
                = session_context_prefix opts)
  /\ if default_to true (requireJSONResponse opts)
     then trailing_instruction opts = STRICT_INSTRUCTION
          /\ endsWith c STRICT_INSTRUCTION = true
          /\ includes c STRICT_INSTRUCTION = true
          /\ endsWith c (PERMISSIVE_INSTRUCTION lang) = false
     else trailing_instruction opts = PERMISSIVE_INSTRUCTION lang
          /\ endsWith c (PERMISSIVE_INSTRUCTION lang) = true
          /\ includes c (PERMISSIVE_INSTRUCTION lang) = true
          /\ includes c lang = true
          /\ endsWith c STRICT_INSTRUCTION = false.
Proof.
  cbv zeta. rewrite session_context_content_eq.
  split; [reflexivity|]. split; [reflexivity|].
  unfold trailing_instruction.
  destruct (default_to true (requireJSONResponse opts));
    cbn [jsonInstruction].
  - split; [reflexivity|]. split; [apply endsWith_app|].
    split; [apply includes_suffix|]. apply trailing_exclusive.
  - split; [reflexivity|]. split; [apply endsWith_app|].
    split; [apply includes_suffix|]. split; [|apply trailing_exclusive].
    apply includes_intro with
      (a := session_context_prefix opts ++ LF ++ LF
            ++ lit "You may respond in natural ")
      (b := litq " text. If helpful, include a short JSON payload labeled `assistant_payload`.").
    unfold PERMISSIVE_INSTRUCTION.
    generalize (session_context_prefix opts). intros pre. reassociate.
Qed.

Lemma block_nonempty (label rest : jsstring) :
  label <> [] -> label ++ rest <> [].
Proof. destruct label; [congruence | discriminate]. Qed.

(** C7 (amended): the session-context message contains the profile
    block and the session block.  For an absent field the block is the
    placeholder text Not provided; for a field that is present with at
    least one key the block holds its [JSON.stringify] serialization;
    no block is the empty string. *)
Theorem context_blocks (opts : BuildMessagesOptions) :
  let c := session_context_content opts in
  includes c (profileBlock (userProfile opts)) = true
  /\ includes c (sessionBlock (sessionState opts)) = true
  /\ profileBlock (userProfile opts) <> []
  /\ sessionBlock (sessionState opts) <> []
  /\ match userProfile opts with
     | None =>
       profileBlock None = lit "User profile: " ++ lit "Not provided" ++ lit "."
       /\ includes c (lit "User profile: " ++ lit "Not provided" ++ lit ".") = true
     | Some [] => profileBlock (Some []) = profileBlock None
     | Some (p :: o) =>
       exists json,
         JSON_stringify (JObject (p :: o)) = Some json
         /\ profileBlock (Some (p :: o)) = lit "User profile: " ++ json ++ lit "."
         /\ includes c (lit "User profile: " ++ json ++ lit ".") = true
     end
  /\ match sessionState opts with
     | None =>
       sessionBlock None = lit "Session state: " ++ lit "Not provided" ++ lit "."
       /\ includes c (lit "Session state: " ++ lit "Not provided" ++ lit ".") = true
     | Some [] => sessionBlock (Some []) = sessionBlock None
     | Some (p :: o) =>
       exists json,
         JSON_stringify (JObject (p :: o)) = Some json
         /\ sessionBlock (Some (p :: o)) = lit "Session state: " ++ json ++ lit "."
         /\ includes c (lit "Session state: " ++ json ++ lit ".") = true
     end.
Proof.
  cbv zeta. rewrite session_context_content_eq.
  assert (Hp : includes (session_context_prefix opts ++ trailing_instruction opts)
                 (profileBlock (userProfile opts)) = true).
  { apply includes_intro with
      (a := lit "Context for this session:" ++ LF ++
            (lit "User display name: " ++ default_to (lit "User") (userName opts)
               ++ lit "." ++ LF))
      (b := LF ++ sessionBlock (sessionState opts) ++
            (LF ++ lit "Assistant response language: "
               ++ default_to (lit "English") (language opts) ++ lit ".") ++
            trailing_instruction opts).
    unfold session_context_prefix.
    generalize (profileBlock (userProfile opts)),
               (sessionBlock (sessionState opts)), (trailing_instruction opts).
    intros pb sb ti. reassociate. }
  assert (Hs : includes (session_context_prefix opts ++ trailing_instruction opts)
                 (sessionBlock (sessionState opts)) = true).
  { apply includes_intro with
      (a := lit "Context for this session:" ++ LF ++
            (lit "User display name: " ++ default_to (lit "User") (userName opts)
               ++ lit "." ++ LF) ++
            profileBlock (userProfile opts) ++ LF)
      (b := (LF ++ lit "Assistant response language: "
               ++ default_to (lit "English") (language opts) ++ lit ".") ++
            trailing_instruction opts).
    unfold session_context_prefix.
    generalize (profileBlock (userProfile opts)),
               (sessionBlock (sessionState opts)), (trailing_instruction opts).
    intros pb sb ti. reassociate. }
  assert (Ep : lit "User profile: Not provided."
               = lit "User profile: " ++ lit "Not provided" ++ lit ".")
    by (vm_compute; reflexivity).
  assert (Es : lit "Session state: Not provided."
               = lit "Session state: " ++ lit "Not provided" ++ lit ".")
    by (vm_compute; reflexivity).
  assert (Np : lit "User profile: " <> []) by (vm_compute; discriminate).
  assert (Ns : lit "Session state: " <> []) by (vm_compute; discriminate).
  split; [exact Hp|]. split; [exact Hs|].
  split.
  { destruct (userProfile opts) as [[|p o]|]; cbn [profileBlock];
      try rewrite Ep; try (cbn [Object_keys map List.length Nat.eqb negb]);
      now apply block_nonempty. }
  split.
  { destruct (sessionState opts) as [[|p o]|]; cbn [sessionBlock];
      try rewrite Es; try (cbn [Object_keys map List.length Nat.eqb negb]);
      now apply block_nonempty. }
  split.
  - destruct (userProfile opts) as [[|p o]|]; [reflexivity | |].
    + destruct (JSON_stringify_object (p :: o)) as (json & Ej & _).
      exists json. split; [exact Ej|].
      assert (Eb : profileBlock (Some (p :: o))
                   = lit "User profile: " ++ json ++ lit ".").
      { cbn [profileBlock Object_keys map List.length Nat.eqb negb].
        now rewrite Ej. }
      split; [exact Eb|]. now rewrite <- Eb.
    + assert (Eb : profileBlock None = lit "User profile: Not provided.")
        by reflexivity.
      rewrite <- Ep. split; [exact Eb|]. now rewrite <- Eb.
  - destruct (sessionState opts) as [[|p o]|]; [reflexivity | |].
    + destruct (JSON_stringify_object (p :: o)) as (json & Ej & _).
      exists json. split; [exact Ej|].
      assert (Eb : sessionBlock (Some (p :: o))
                   = lit "Session state: " ++ json ++ lit ".").
      { cbn [sessionBlock Object_keys map List.length Nat.eqb negb].
        now rewrite Ej. }
      split; [exact Eb|]. now rewrite <- Eb.
    + assert (Eb : sessionBlock None = lit "Session state: Not provided.")
        by reflexivity.
      rewrite <- Es. split; [exact Eb|]. now rewrite <- Eb.
Qed.

End BuilderProperties.

(** C4, as first stated, fails: a caller-supplied display name can carry
    the text of either instruction into the message, whatever the flag. *)
Lemma requireJSONResponse_toggles_counterexample :
  requireJSONResponse strictNameOptions = Some false
  /\ includes (session_context_content AI_NAME_sample OWNER_NAME_sample
                 DATE_AND_TIME_sample strictNameOptions)
              STRICT_INSTRUCTION = true
  /\ requireJSONResponse permissiveNameOptions = Some true
  /\ includes (session_context_content AI_NAME_sample OWNER_NAME_sample
                 DATE_AND_TIME_sample permissiveNameOptions)
              (PERMISSIVE_INSTRUCTION
                 (default_to (lit "English") (language permissiveNameOptions)))
     = true.
Proof. vm_compute. repeat split. Qed.

(** C7, as first stated, fails: a profile that is present but has no key
    is not serialized, the placeholder stands in its place. *)
Lemma context_blocks_counterexample :
  userProfile emptyProfileOptions = Some []
  /\ JSON_stringify (JObject []) = Some (lit "{}")
  /\ includes (session_context_content AI_NAME_sample OWNER_NAME_sample
                 DATE_AND_TIME_sample emptyProfileOptions)
              (lit "{}") = false
  /\ includes (session_context_content AI_NAME_sample OWNER_NAME_sample
                 DATE_AND_TIME_sample emptyProfileOptions)
              (lit "User profile: Not provided.") = true.
Proof. vm_compute. repeat split. Qed.


(* ===================================================================== *)
(** ** Further properties: trimming *)
(* ===================================================================== *)

Lemma trimStart_all (a x : jsstring) :
  forallb is_white_space a = true -> trimStart (a ++ x) = trimStart x.
Proof.
  induction a as [|c a IH]; cbn [forallb app trimStart]; [reflexivity|].
  intros H. apply andb_true_iff in H as [Hc Ha]. now rewrite Hc, IH.
Qed.

Lemma trimStart_solid (s : jsstring) : starts_solid s = true -> trimStart s = s.
Proof.
  destruct s as [|c s]; [discriminate|]. cbn [starts_solid trimStart].
  now destruct (is_white_space c).
Qed.

Lemma trimEnd_all (x b : jsstring) :
  forallb is_white_space b = true -> trimEnd (x ++ b) = trimEnd x.
Proof.
  intros H. unfold trimEnd. rewrite rev_app_distr.
  rewrite trimStart_all; [reflexivity|].
  rewrite forallb_forall in *. intros c Hc. apply H. now apply in_rev.
Qed.

Lemma trimEnd_solid (s : jsstring) : ends_solid s = true -> trimEnd s = s.
Proof.
  unfold ends_solid, trimEnd. intros H.
  now rewrite trimStart_solid, rev_involutive.
Qed.

Lemma trim_framed (a core b : jsstring) :
  forallb is_white_space a = true -> forallb is_white_space b = true ->
  starts_solid core = true -> ends_solid core = true ->
  trim (a ++ core ++ b) = core.
Proof.
  intros Ha Hb Hs He. unfold trim.
  rewrite trimStart_all by exact Ha.
  assert (E : trimStart (core ++ b) = core ++ b).
  { apply trimStart_solid. destruct core; [discriminate | exact Hs]. }
  rewrite E, trimEnd_all by exact Hb. now apply trimEnd_solid.
Qed.

Lemma starts_solid_app (p x : jsstring) :
  starts_solid p = true -> starts_solid (p ++ x) = true.
Proof. destruct p; [discriminate | trivial]. Qed.

Lemma ends_solid_app (x q : jsstring) :
  ends_solid q = true -> ends_solid (x ++ q) = true.
Proof.
  unfold ends_solid. rewrite rev_app_distr. apply starts_solid_app.
Qed.

(* ===================================================================== *)
(** ** System prompt *)
(* ===================================================================== *)

Section PromptShape.
Variables AI_NAME OWNER_NAME DATE_AND_TIME : jsstring.

Lemma IDENTITY_PROMPT_eq :
  IDENTITY_PROMPT AI_NAME OWNER_NAME
  = lit "You are " ++ AI_NAME
    ++ lit ", an agentic assistant. You are designed by " ++ OWNER_NAME
    ++ lit ", not OpenAI, Anthropic, or any other third-party AI vendor.".
Proof.
  unfold IDENTITY_PROMPT.
  split_literal (lit "
You are ") (LF ++ lit "You are ").
  split_literal (lit ", not OpenAI, Anthropic, or any other third-party AI vendor.
") (lit ", not OpenAI, Anthropic, or any other third-party AI vendor." ++ LF).
  transitivity (trim (LF ++
    (lit "You are " ++ AI_NAME
     ++ lit ", an agentic assistant. You are designed by " ++ OWNER_NAME
     ++ lit ", not OpenAI, Anthropic, or any other third-party AI vendor.")
    ++ LF)).
  { f_equal. reassociate. }
  apply trim_framed.
  - reflexivity.
  - reflexivity.
  - apply starts_solid_app. vm_compute. reflexivity.
  - rewrite !app_assoc. apply ends_solid_app. vm_compute. reflexivity.
Qed.

(** X1: whatever the configured names and date are, trimming the
    template of [SYSTEM_PROMPT] removes exactly its first and last line
    break: the prompt is the identity sentence followed by the seven
    tagged sections, in order, each separated from the next by one
    empty line, and it ends with the closing date tag. *)
Theorem system_prompt_layout :
  SYSTEM_PROMPT AI_NAME OWNER_NAME DATE_AND_TIME
  = IDENTITY_PROMPT AI_NAME OWNER_NAME ++ LF ++ LF
    ++ lit "<tool_calling>" ++ LF ++ TOOL_CALLING_PROMPT ++ LF
    ++ lit "</tool_calling>" ++ LF ++ LF
    ++ lit "<tone_style>" ++ LF ++ TONE_STYLE_PROMPT ++ LF
    ++ lit "</tone_style>" ++ LF ++ LF
    ++ lit "<guardrails>" ++ LF ++ GUARDRAILS_PROMPT ++ LF
    ++ lit "</guardrails>" ++ LF ++ LF
    ++ lit "<citations>" ++ LF ++ CITATIONS_PROMPT ++ LF
    ++ lit "</citations>" ++ LF ++ LF
    ++ lit "<course_context>" ++ LF ++ COURSE_CONTEXT_PROMPT ++ LF
    ++ lit "</course_context>" ++ LF ++ LF
    ++ lit "<nutribuddy>" ++ LF ++ NUTRIBUDDY_GUIDANCE ++ LF
    ++ lit "</nutribuddy>" ++ LF ++ LF
    ++ lit "<date_time>" ++ LF ++ DATE_AND_TIME ++ LF
    ++ lit "</date_time>".
Proof.
  unfold SYSTEM_PROMPT.
  split_literal (lit "
") LF.
  split_literal (lit "

<tool_calling>
") (LF ++ LF ++ lit "<tool_calling>" ++ LF).
  split_literal (lit "
</tool_calling>

<tone_style>
") (LF ++ lit "</tool_calling>" ++ LF ++ LF ++ lit "<tone_style>" ++ LF).
  split_literal (lit "
</tone_style>

<guardrails>
") (LF ++ lit "</tone_style>" ++ LF ++ LF ++ lit "<guardrails>" ++ LF).
  split_literal (lit "
</guardrails>

<citations>
") (LF ++ lit "</guardrails>" ++ LF ++ LF ++ lit "<citations>" ++ LF).
  split_literal (lit "
</citations>

<course_context>
") (LF ++ lit "</citations>" ++ LF ++ LF ++ lit "<course_context>" ++ LF).
  split_literal (lit "
</course_context>

<nutribuddy>
") (LF ++ lit "</course_context>" ++ LF ++ LF ++ lit "<nutribuddy>" ++ LF).
  split_literal (lit "
</nutribuddy>

<date_time>
") (LF ++ lit "</nutribuddy>" ++ LF ++ LF ++ lit "<date_time>" ++ LF).
  split_literal (lit "
</date_time>
") (LF ++ lit "</date_time>" ++ LF).
  generalize TOOL_CALLING_PROMPT, TONE_STYLE_PROMPT, GUARDRAILS_PROMPT,
    CITATIONS_PROMPT, COURSE_CONTEXT_PROMPT, NUTRIBUDDY_GUIDANCE.
  intros p1 p2 p3 p4 p5 p6.
  match goal with
  | |- _ = ?core => transitivity (trim (LF ++ core ++ LF));
                      [ f_equal | apply trim_framed ]
  end.
  - generalize (IDENTITY_PROMPT AI_NAME OWNER_NAME). intros idp. reassociate.
  - reflexivity.
  - reflexivity.
  - rewrite IDENTITY_PROMPT_eq, <- !app_assoc.
    apply starts_solid_app. vm_compute. reflexivity.
  - generalize (IDENTITY_PROMPT AI_NAME OWNER_NAME). intros idp.
    rewrite !app_assoc. apply ends_solid_app. vm_compute. reflexivity.
Qed.

End PromptShape.

(* ===================================================================== *)
(** ** Response extractor: white space, texts without braces *)
(* ===================================================================== *)

Lemma trimStart_ws (b : jsstring) :
  forallb is_white_space b = true -> trimStart b = [].
Proof.
  intros H. rewrite <- (app_nil_r b). now rewrite trimStart_all.
Qed.

Lemma trim_pad (a t b : jsstring) :
  forallb is_white_space a = true -> forallb is_white_space b = true ->
  trim (a ++ t ++ b) = trim t.
Proof.
  intros Ha Hb. unfold trim. rewrite trimStart_all by exact Ha. clear a Ha.
  induction t as [|c t IH]; cbn [app].
  - now rewrite trimStart_ws.
  - cbn [trimStart]. destruct (is_white_space c); [exact IH|].
    change (c :: t ++ b) with ((c :: t) ++ b).
    now rewrite (trimEnd_all (c :: t) b Hb).
Qed.

Lemma extract_candidate_trim (x y : jsstring) :
  trim x = trim y -> extract_candidate (Some x) = extract_candidate (Some y).
Proof.
  assert (E : forall c t, trim (c :: t) = [] ->
                          extract_candidate (Some (c :: t)) = None).
  { intros c t H. unfold extract_candidate. rewrite H.
    rewrite lit_lbrace, lit_lbracket, lit_rbrace. reflexivity. }
  intros H. destruct x as [|c t], y as [|d u].
  - reflexivity.
  - symmetry. apply E. now rewrite <- H.
  - apply E. now rewrite H.
  - unfold extract_candidate. now rewrite H.
Qed.

(** X2: white space around a reply changes neither the result of
    [parseAssistantJson] nor the text it hands to the parser. *)
Theorem surrounding_white_space_ignored (a t b : jsstring) :
  forallb is_white_space a = true -> forallb is_white_space b = true ->
  parseAssistantJson (Some (a ++ t ++ b)) = parseAssistantJson (Some t).
Proof.
  intros Ha Hb. rewrite !parseAssistantJson_eq. unfold extract_spec.
  now rewrite (extract_candidate_trim (a ++ t ++ b) t (trim_pad a t b Ha Hb)).
Qed.

Lemma indexOf_from_none (s : jsstring) (c : code_unit) (i : Z) :
  ~ In c s -> indexOf_from s [c] i = (-1)%Z.
Proof.
  revert i. induction s as [|d s IH]; intros i Hn; cbn [indexOf_from].
  - reflexivity.
  - rewrite startsWith_single.
    destruct (N.eqb_spec d c) as [->|Hd]; [exfalso; apply Hn; now left|].
    apply IH. intros H. apply Hn. now right.
Qed.

Lemma trim_sub (s : jsstring) (c : code_unit) : In c (trim s) -> In c s.
Proof.
  unfold trim. intros H. apply trimEnd_prefix in H.
  now apply trimStart_suffix.
Qed.

(** X3: a text that, trimmed, starts with neither a brace nor a
    bracket and that lacks an opening or a closing brace gives the absent
    result without any call of the parser; so a JSON number, string or
    keyword on its own is never returned. *)
Theorem no_brace_no_value (text : jsstring) :
  startsWith (trim text) (lit "{") = false ->
  startsWith (trim text) (lit "[") = false ->
  includes text (lit "{") = false \/ includes text (lit "}") = false ->
  parseAssistantJson (Some text) = ([], Value JNull).
Proof.
  rewrite lit_lbrace, lit_lbracket, lit_rbrace. intros H1 H2 H3.
  rewrite parseAssistantJson_eq. unfold extract_spec, extract_candidate.
  destruct text as [|c t]; [reflexivity|].
  rewrite lit_lbrace, lit_lbracket, lit_rbrace, H1, H2. cbn [orb].
  destruct H3 as [H|H]; apply not_includes_single in H.
  - unfold indexOf. rewrite indexOf_from_none; [reflexivity|].
    intros Hin. apply H. now apply trim_sub.
  - unfold lastIndexOf. rewrite lastIndexOf_from_none.
    + now rewrite andb_false_r.
    + intros Hin. apply H. now apply trim_sub.
Qed.

(* ===================================================================== *)
(** ** [JSON.parse] reads back what [JSON.stringify] writes *)
(* ===================================================================== *)

Lemma fold_digits_acc (u : Decimal.uint) (acc : positive) :
  fold_left (fun a c => a * 10 + (c - 48)) (units_of_uint u) (Npos acc)
  = Npos (Pos.of_uint_acc u acc).
Proof.
  revert acc. induction u; intros acc; cbn [units_of_uint fold_left Pos.of_uint_acc];
    try reflexivity; rewrite <- IHu; f_equal; lia.
Qed.

Lemma N_of_digits_uint (u : Decimal.uint) :
  N_of_digits (units_of_uint u) = N.of_uint u.
Proof.
  unfold N_of_digits, N.of_uint.
  induction u; cbn [units_of_uint fold_left Pos.of_uint]; try reflexivity;
    try exact IHu; apply (fold_digits_acc u).
Qed.

Lemma N_of_digits_decimal (m : N) : N_of_digits (decimal m) = m.
Proof.
  unfold decimal. rewrite N_of_digits_uint. apply DecimalN.Unsigned.of_to.
Qed.

Lemma units_are_digits (u : Decimal.uint) :
  forallb is_digit (units_of_uint u) = true.
Proof. induction u; cbn [units_of_uint forallb]; try reflexivity; exact IHu. Qed.

Lemma decimal_head (m : N) :
  m <> 0 ->
  exists d ds, decimal m = d :: ds /\ is_digit d = true /\ (d =? 48) = false.
Proof.
  intros Hm. unfold decimal.
  assert (Hn : N.to_uint m = Decimal.unorm (N.to_uint m)).
  { rewrite <- (DecimalN.Unsigned.of_to m) at 1.
    apply DecimalN.Unsigned.to_of. }
  assert (Hz : Decimal.nzhead (N.to_uint m) <> Decimal.Nil).
  { intros E. apply DecimalFacts.unorm_0 in E. apply Hm.
    rewrite <- (DecimalN.Unsigned.of_to m), Hn, E. reflexivity. }
  rewrite (DecimalFacts.unorm_nzhead _ Hz) in Hn.
  pose proof (DecimalFacts.nzhead_nonzero (N.to_uint m)) as Hd.
  rewrite <- Hn in Hd, Hz.
  destruct (N.to_uint m) as [|u|u|u|u|u|u|u|u|u|u];
    [congruence | exfalso; now apply (Hd u) | ..];
    cbn [units_of_uint]; eexists _, _; repeat split.
Qed.



Lemma strip_zeros_cons (c : code_unit) (s : jsstring) :
  strip_zeros (c :: s) = if c =? 48 then strip_zeros s else c :: s.
Proof.
  destruct c as [|p]; [reflexivity|].
  do 7 (try (destruct p as [p|p|]; try reflexivity)).
Qed.

Lemma strip_zeros_split (x : jsstring) :
  exists j, x = repeat 48 j ++ strip_zeros x
            /\ List.length x = (j + List.length (strip_zeros x))%nat.
Proof.
  induction x as [|c x (j & E & L)].
  - exists 0%nat. split; reflexivity.
  - rewrite strip_zeros_cons. destruct (N.eqb_spec c 48) as [->|Hc].
    + exists (S j). cbn [repeat app List.length]. split; [now rewrite <- E | lia].
    + exists 0%nat. split; reflexivity.
Qed.

Lemma strip_zeros_head (c : code_unit) (s : jsstring) :
  (c =? 48) = false -> strip_zeros (c :: s) = c :: s.
Proof. intros H. now rewrite strip_zeros_cons, H. Qed.

(** The digits with their trailing zeros stripped and put back. *)
Lemma digits_restore (ds : jsstring) :
  exists j, ds = rev (strip_zeros (rev ds)) ++ repeat 48 j
            /\ List.length ds = (List.length (rev (strip_zeros (rev ds))) + j)%nat.
Proof.
  destruct (strip_zeros_split (rev ds)) as (j & E & L).
  exists j. split.
  - rewrite <- (rev_involutive ds) at 1. rewrite E at 1.
    now rewrite rev_app_distr, rev_repeat.
  - rewrite length_rev in *. lia.
Qed.

Lemma span_digits_app (ds rest : jsstring) :
  forallb is_digit ds = true ->
  match rest with c :: _ => is_digit c = false | [] => True end ->
  span_digits (ds ++ rest) = (ds, rest).
Proof.
  intros Hd Hr. induction ds as [|d ds IH]; cbn [app].
  - destruct rest as [|c r]; [reflexivity|]. cbn [span_digits]. now rewrite Hr.
  - cbn [forallb] in Hd. apply andb_true_iff in Hd as [H1 H2].
    cbn [span_digits]. now rewrite H1, IH.
Qed.

Lemma follow_not_digit (rest : jsstring) :
  follow_ok rest = true ->
  match rest with c :: _ => is_digit c = false | [] => True end.
Proof.
  destruct rest as [|c r]; [trivial|]. cbn [follow_ok]. intros H.
  apply orb_true_iff in H as [H|H]; [apply orb_true_iff in H as [H|H]|];
    apply N.eqb_eq in H; now subst c.
Qed.

Lemma parse_frac_none (rest : jsstring) :
  follow_ok rest = true -> parse_frac_part rest = Some ([], rest).
Proof.
  destruct rest as [|c r]; [reflexivity|]. cbn [follow_ok parse_frac_part].
  intros H.
  apply orb_true_iff in H as [H|H]; [apply orb_true_iff in H as [H|H]|];
    apply N.eqb_eq in H; now subst c.
Qed.

Lemma parse_exp_none (rest : jsstring) :
  follow_ok rest = true -> parse_exp_part rest = Some (0%Z, rest).
Proof.
  destruct rest as [|c r]; [reflexivity|]. cbn [follow_ok parse_exp_part].
  intros H.
  apply orb_true_iff in H as [H|H]; [apply orb_true_iff in H as [H|H]|];
    apply N.eqb_eq in H; now subst c.
Qed.

Lemma N_of_digits_app (a b : jsstring) :
  N_of_digits (a ++ b)
  = fold_left (fun acc c => acc * 10 + (c - 48)) b (N_of_digits a).
Proof. unfold N_of_digits. apply fold_left_app. Qed.

Lemma N_of_digits_zeros (j : nat) (x : jsstring) :
  N_of_digits (repeat 48 j ++ x) = N_of_digits x.
Proof.
  induction j as [|j IH]; [reflexivity|]. cbn [repeat app].
  unfold N_of_digits in *. cbn [fold_left]. exact IH.
Qed.

Lemma decimal_last (m : N) :
  (m mod 10 =? 0) = false ->
  exists ds' d, decimal m = ds' ++ [d] /\ (d =? 48) = false.
Proof.
  intros Hm.
  assert (Hne : decimal m <> []).
  { intros E. pose proof (N_of_digits_decimal m) as H. rewrite E in H.
    cbn in H. subst m. discriminate. }
  destruct (exists_last Hne) as (ds' & d & E).
  exists ds', d. split; [exact E|].
  pose proof (N_of_digits_decimal m) as H. rewrite E, N_of_digits_app in H.
  cbn [fold_left] in H.
  pose proof (units_are_digits (N.to_uint m)) as Hd. fold (decimal m) in Hd.
  rewrite E, forallb_app in Hd. apply andb_true_iff in Hd as [_ Hd].
  cbn [forallb] in Hd. rewrite andb_true_r in Hd.
  unfold is_digit in Hd. apply andb_true_iff in Hd as [H1 H2].
  apply N.leb_le in H1, H2.
  apply N.eqb_neq. intros ->. apply N.eqb_neq in Hm. apply Hm.
  rewrite <- H. change (48 - 48) with 0. rewrite N.add_0_r. apply N.Div0.mod_mul.
Qed.

Lemma lit_dot : lit "." = [46].
Proof. vm_compute. reflexivity. Qed.
Lemma lit_minus : lit "-" = [45].
Proof. vm_compute. reflexivity. Qed.
Lemma lit_zero : lit "0" = [48].
Proof. vm_compute. reflexivity. Qed.
Lemma lit_zero_dot : lit "0." = [48; 46].
Proof. vm_compute. reflexivity. Qed.

Lemma digit_not_minus (d : code_unit) : is_digit d = true -> (d =? 45) = false.
Proof.
  unfold is_digit. intros H. apply andb_true_iff in H as [H _].
  apply N.leb_le in H. apply N.eqb_neq. lia.
Qed.

Lemma parse_decimal_shape (neg : bool) (d : code_unit)
      (s ip fp s2 rest : jsstring) :
  is_digit d = true ->
  parse_int_part (d :: s) = Some (ip, s2) ->
  parse_frac_part s2 = Some (fp, rest) ->
  follow_ok rest = true ->
  parse_decimal ((if neg then [45] else []) ++ d :: s)
  = Some ((neg, N_of_digits (ip ++ fp),
           (0 - Z.of_nat (List.length fp))%Z), rest).
Proof.
  intros Hd Hi Hf Hr. unfold parse_decimal. destruct neg; cbn [app].
  - change (45 =? 45) with true. cbv iota beta.
    rewrite Hi, Hf, (parse_exp_none rest Hr). reflexivity.
  - rewrite (digit_not_minus d Hd).
    rewrite Hi, Hf, (parse_exp_none rest Hr). reflexivity.
Qed.

Lemma is_digit_48 : is_digit 48 = true.
Proof. reflexivity. Qed.

Lemma forallb_repeat_digit (j : nat) : forallb is_digit (repeat 48 j) = true.
Proof. induction j; [reflexivity|]. cbn [repeat forallb]. now rewrite IHj. Qed.

Lemma forallb_firstn {A} (f : A -> bool) (n : nat) (l : list A) :
  forallb f l = true -> forallb f (firstn n l) = true.
Proof.
  revert l; induction n as [|n IH]; intros [|x l]; try reflexivity.
  cbn [forallb firstn]. intros H. apply andb_true_iff in H as [H1 H2].
  now rewrite H1, IH.
Qed.

Lemma forallb_skipn {A} (f : A -> bool) (n : nat) (l : list A) :
  forallb f l = true -> forallb f (skipn n l) = true.
Proof.
  revert l; induction n as [|n IH]; intros [|x l]; try reflexivity; try easy.
  cbn [forallb skipn]. intros H. apply andb_true_iff in H as [H1 H2].
  now apply IH.
Qed.

(** [JSON.parse] reads back the decimal text of an integer. *)
Lemma parse_decimal_integer (neg : bool) (m : N) (rest : jsstring) :
  m <> 0 -> follow_ok rest = true ->
  parse_decimal ((if neg then [45] else []) ++ decimal m ++ rest)
  = Some ((neg, m, 0%Z), rest).
Proof.
  intros Hm Hr.
  destruct (decimal_head m Hm) as (d & ds & E & Hd & Hnz).
  pose proof (units_are_digits (N.to_uint m)) as Hall. fold (decimal m) in Hall.
  assert (Hspan : span_digits (decimal m ++ rest) = (decimal m, rest))
    by (apply span_digits_app; [exact Hall | now apply follow_not_digit]).
  rewrite E in *. cbn [app] in *.
  rewrite (parse_decimal_shape neg d (ds ++ rest) (d :: ds) [] rest rest Hd).
  - rewrite app_nil_r, <- E, N_of_digits_decimal. reflexivity.
  - unfold parse_int_part. rewrite Hnz, Hd. now rewrite Hspan.
  - now apply parse_frac_none.
  - exact Hr.
Qed.

Lemma parse_frac_digits (fp rest : jsstring) :
  fp <> [] -> forallb is_digit fp = true -> follow_ok rest = true ->
  parse_frac_part (46 :: fp ++ rest) = Some (fp, rest).
Proof.
  intros Hne Hd Hr. unfold parse_frac_part. change (46 =? 46) with true.
  cbv iota. rewrite (span_digits_app fp rest Hd (follow_not_digit rest Hr)).
  destruct fp; [contradiction|reflexivity].
Qed.

(** The sign, digits and exponent read from the text of a plain decimal
    are the ones it was printed from. *)
Lemma parse_decimal_toString (neg : bool) (m : N) (e : Z) (rest : jsstring) :
  plain_decimal (Finite neg m e) = true -> follow_ok rest = true ->
  parse_decimal (Number_toString (Finite neg m e) ++ rest)
  = Some ((neg, m, e), rest).
Proof.
  unfold plain_decimal. intros Hok Hr.
  pose proof (units_are_digits (N.to_uint m)) as Hall. fold (decimal m) in Hall.
  destruct (Z.eqb_spec e 0) as [->|He].
  - (* integers *)
    apply andb_true_iff in Hok as [Hlen Hneg]. apply Z.leb_le in Hlen.
    unfold Number_toString. destruct (N.eqb_spec m 0) as [->|Hm].
    + destruct neg; [discriminate|]. rewrite lit_zero.
      apply (parse_decimal_shape false 48 rest [48] [] rest rest);
        [reflexivity | reflexivity | now apply parse_frac_none | exact Hr].
    + cbv zeta. destruct (digits_restore (decimal m)) as (j & E & L).
      set (s := rev (strip_zeros (rev (decimal m)))) in *.
      rewrite Z.add_0_r.
      replace ((Z.of_nat (List.length s) <=? Z.of_nat (List.length (decimal m)))
               && (Z.of_nat (List.length (decimal m)) <=? 21))%Z with true
        by (symmetry; apply andb_true_iff; split; apply Z.leb_le; lia).
      replace (Z.to_nat (Z.of_nat (List.length (decimal m))
                         - Z.of_nat (List.length s))) with j by lia.
      rewrite <- E, lit_minus.
      rewrite <- app_assoc. now apply parse_decimal_integer.
  - (* fractions *)
    apply andb_true_iff in Hok as [Hok Hhi]. apply andb_true_iff in Hok as [Hok Hlo].
    apply andb_true_iff in Hok as [Hneg Hmod].
    apply Z.ltb_lt in Hneg, Hlo. apply Z.leb_le in Hhi.
    apply negb_true_iff in Hmod.
    assert (Hm : m <> 0) by (intros ->; discriminate).
    destruct (decimal_last m Hmod) as (ds' & dl & El & Hdl).
    destruct (decimal_head m Hm) as (d & ds & E & Hd & Hnz).
    unfold Number_toString. rewrite (proj2 (N.eqb_neq m 0) Hm). cbv zeta.
    assert (Es : rev (strip_zeros (rev (decimal m))) = decimal m).
    { rewrite El, rev_app_distr. cbn [rev app].
      rewrite (strip_zeros_head dl (rev ds') Hdl).
      change (dl :: rev ds') with (rev [dl] ++ rev ds').
      now rewrite <- rev_app_distr, rev_involutive. }
    rewrite Es. set (k := List.length (decimal m)) in *.
    replace ((Z.of_nat k <=? Z.of_nat k + e) && (Z.of_nat k + e <=? 21))%Z
      with false
      by (symmetry; apply andb_false_iff; left; apply Z.leb_gt; lia).
    rewrite lit_minus, lit_dot, lit_zero_dot.
    destruct (Z.ltb_spec 0 (Z.of_nat k + e)) as [Hpos|Hnpos].
    + (* digits on both sides of the point *)
      replace (Z.of_nat k + e <=? 21)%Z with true by (symmetry; apply Z.leb_le; lia).
      cbn [andb].
      set (n := Z.to_nat (Z.of_nat k + e)).
      assert (Hn : (0 < n < k)%nat) by lia.
      assert (Hfirst : exists f', firstn n (decimal m) = d :: f').
      { rewrite E. destruct n as [|n']; [lia|]. cbn [firstn]. eauto. }
      destruct Hfirst as (f' & Ef).
      assert (Hskip : skipn n (decimal m) <> []).
      { intros Hnil. apply (f_equal (@List.length _)) in Hnil.
        rewrite length_skipn in Hnil. cbn in Hnil. fold k in Hnil. lia. }
      rewrite <- !app_assoc. rewrite Ef. cbn [app].
      rewrite (parse_decimal_shape neg d _ (firstn n (decimal m))
                 (skipn n (decimal m)) (46 :: skipn n (decimal m) ++ rest) rest Hd).
      * rewrite firstn_skipn, N_of_digits_decimal, length_skipn. fold k.
        do 2 f_equal. f_equal. lia.
      * unfold parse_int_part. rewrite Hnz, Hd.
        change (d :: f' ++ 46 :: skipn n (decimal m) ++ rest)
          with ((d :: f') ++ 46 :: skipn n (decimal m) ++ rest).
        rewrite <- Ef. rewrite span_digits_app; [reflexivity| |reflexivity].
        now apply forallb_firstn.
      * apply parse_frac_digits; [exact Hskip | now apply forallb_skipn | exact Hr].
      * exact Hr.
    + (* a value below one *)
      cbn [andb].
      replace ((-6 <? Z.of_nat k + e) && (Z.of_nat k + e <=? 0))%Z with true
        by (symmetry; apply andb_true_iff; split;
            [apply Z.ltb_lt | apply Z.leb_le]; lia).
      set (j := Z.to_nat (- (Z.of_nat k + e))).
      rewrite <- !app_assoc. cbn [app].
      rewrite (parse_decimal_shape neg 48 _ [48] (repeat 48 j ++ decimal m)
                 (46 :: (repeat 48 j ++ decimal m) ++ rest) rest is_digit_48).
      * change ([48] ++ repeat 48 j ++ decimal m)
          with (repeat 48 (S j) ++ decimal m).
        rewrite N_of_digits_zeros, N_of_digits_decimal, length_app, repeat_length.
        fold k. do 2 f_equal. f_equal. lia.
      * rewrite <- app_assoc. reflexivity.
      * apply parse_frac_digits; [ | | exact Hr].
        -- rewrite E. now destruct (repeat 48 j).
        -- rewrite forallb_app, forallb_repeat_digit. exact Hall.
      * exact Hr.
Qed.



(* ===================================================================== *)
(** ** Safe integers are Number values of their own *)
(* ===================================================================== *)

Lemma double_eqb_eq (x y : double) : double_eqb x y = true <-> x = y.
Proof.
  destruct x as [| |m q], y as [| |m' q']; cbn [double_eqb];
    try (split; [reflexivity|reflexivity]); try (split; discriminate).
  rewrite andb_true_iff, N.eqb_eq, Z.eqb_eq. split.
  - intros [-> ->]. reflexivity.
  - intros H. injection H as -> ->. now split.
Qed.

Lemma div_eucl_pair (a b : N) : N.div_eucl a b = (a / b, a mod b).
Proof. unfold N.div, N.modulo. now destruct (N.div_eucl a b). Qed.

Lemma round_half_even_integer (a : N) : round_half_even (a, 1) = a.
Proof.
  unfold round_half_even. rewrite div_eucl_pair, N.div_1_r, N.mod_1_r.
  reflexivity.
Qed.

Lemma ilog2_integer (a : N) : a <> 0 -> ilog2 (a, 1) = Z.of_N (N.log2 a).
Proof.
  intros Ha. unfold ilog2. change (N.log2 1) with 0.
  rewrite Z.sub_0_r. unfold scale.
  replace (0 <=? Z.of_N (N.log2 a))%Z with true by (symmetry; apply Z.leb_le; lia).
  rewrite N2Z.id, N.mul_1_l.
  destruct (N.log2_spec a ltac:(lia)) as [Hlo _].
  replace (a <? 2 ^ N.log2 a) with false by (symmetry; apply N.ltb_ge; exact Hlo).
  reflexivity.
Qed.

(** A positive integer below [2^53] is a Number value as it is. *)
Lemma round_integer (a : N) :
  0 < a -> a < 9007199254740992 ->
  round_to_double (a, 1)
  = DFinite (a * 2 ^ (52 - N.log2 a)) (Z.of_N (N.log2 a) - 52).
Proof.
  intros Hpos Hlt. unfold round_to_double. cbn [fst].
  replace (a =? 0) with false by (symmetry; apply N.eqb_neq; lia).
  rewrite ilog2_integer by lia.
  destruct (N.log2_spec a Hpos) as [Hlo Hhi].
  assert (HL : N.log2 a <= 52).
  { apply N.lt_succ_r. apply (N.pow_lt_mono_r_iff 2); [reflexivity|].
    change (2 ^ N.succ 52) with 9007199254740992. lia. }
  set (L := N.log2 a) in *.
  rewrite Z.max_l by lia.
  assert (Hscale : round_half_even (scale 2 (a, 1) (Z.of_N L - 52))
                   = a * 2 ^ (52 - L)).
  { unfold scale. destruct (Z.leb_spec 0 (Z.of_N L - 52)) as [H|H].
    - assert (L = 52) by lia. subst L. replace (N.log2 a) with 52 by lia.
      change (Z.of_N 52 - 52)%Z with 0%Z. cbn [Z.to_N].
      change (52 - 52) with 0. rewrite !N.pow_0_r, !N.mul_1_r.
      apply round_half_even_integer.
    - replace (Z.to_N (- (Z.of_N L - 52))) with (52 - L) by lia.
      apply round_half_even_integer. }
  rewrite Hscale.
  assert (Hpow : 2 ^ L * 2 ^ (52 - L) = 4503599627370496).
  { rewrite <- N.pow_add_r. replace (L + (52 - L)) with 52 by lia. reflexivity. }
  rewrite N.pow_succ_r' in Hhi.
  assert (Hy : 0 < 2 ^ (52 - L)) by (apply N.neq_0_lt_0, N.pow_nonzero; discriminate).
  set (X := 2 ^ L) in *. set (Y := 2 ^ (52 - L)) in *.
  assert (Hm1 : 4503599627370496 <= a * Y) by nia.
  assert (Hm2 : a * Y < 9007199254740992) by nia.
  replace (a * Y =? 0) with false by (symmetry; apply N.eqb_neq; lia).
  change (2 ^ 53) with 9007199254740992.
  replace (a * Y =? 9007199254740992) with false
    by (symmetry; apply N.eqb_neq; lia).
  replace (971 <? Z.of_N L - 52)%Z with false by (symmetry; apply Z.ltb_ge; lia).
  reflexivity.
Qed.

(** Two positive integers below [2^53] with the same Number value are
    equal. *)
Lemma round_integer_inj (a b : N) :
  0 < a -> a < 9007199254740992 -> 0 < b -> b < 9007199254740992 ->
  round_to_double (a, 1) = round_to_double (b, 1) -> a = b.
Proof.
  intros Ha1 Ha2 Hb1 Hb2. rewrite !round_integer by assumption.
  intros H. injection H as Hm Hq.
  assert (HL : N.log2 a = N.log2 b) by lia. rewrite HL in Hm.
  apply N.mul_cancel_r in Hm; [exact Hm|]. apply N.pow_nonzero. discriminate.
Qed.

(** An integer from [2^53] on has a Number value with a positive binary
    exponent, or none. *)
Lemma round_large (a m : N) (q : Z) :
  9007199254740992 <= a -> round_to_double (a, 1) = DFinite m q -> (0 < q)%Z.
Proof.
  intros Ha. unfold round_to_double. cbn [fst].
  replace (a =? 0) with false by (symmetry; apply N.eqb_neq; lia).
  rewrite ilog2_integer by lia.
  assert (HL : 53 <= N.log2 a).
  { change 53 with (N.log2 9007199254740992). now apply N.log2_le_mono. }
  rewrite Z.max_l by lia.
  destruct (round_half_even _ =? 0); [discriminate|].
  destruct (round_half_even _ =? 2 ^ 53).
  - destruct (971 <? Z.of_N (N.log2 a) - 52 + 1)%Z; [discriminate|].
    intros [= _ <-]. lia.
  - destruct (971 <? Z.of_N (N.log2 a) - 52)%Z; [discriminate|].
    intros [= _ <-]. lia.
Qed.

Lemma log2_safe_integer (n : N) :
  0 < n -> n < 9007199254740992 -> N.log2 n <= 52.
Proof.
  intros Hpos Hlt. apply N.lt_succ_r.
  apply (N.pow_lt_mono_r_iff 2); [reflexivity|].
  destruct (N.log2_spec n Hpos) as [Hlo _].
  change (2 ^ N.succ 52) with 9007199254740992. lia.
Qed.

Lemma ratio_of_safe_integer (n : N) :
  0 < n -> n < 9007199254740992 ->
  exists w, 0 < w
            /\ ratio_of_double (n * 2 ^ (52 - N.log2 n))
                               (Z.of_N (N.log2 n) - 52)
               = (n * w, w).
Proof.
  intros Hpos Hlt. unfold ratio_of_double.
  pose proof (log2_safe_integer n Hpos Hlt) as HL52.
  destruct (Z.leb_spec 0 (Z.of_N (N.log2 n) - 52)) as [H|H].
  - exists 1. split; [reflexivity|].
    replace (Z.to_N (Z.of_N (N.log2 n) - 52)) with 0 by lia.
    assert (HL : 52 - N.log2 n = 0) by lia. rewrite HL.
    now rewrite !N.pow_0_r, !N.mul_1_r.
  - exists (2 ^ (52 - N.log2 n)). split.
    + apply N.neq_0_lt_0, N.pow_nonzero. discriminate.
    + replace (Z.to_N (- (Z.of_N (N.log2 n) - 52))) with (52 - N.log2 n) by lia.
      reflexivity.
Qed.

(** The search for the position of the decimal point stops at the
    number of digits of the integer part. *)
Lemma digits_above_spec (a b : N) (fuel : nat) (j : N) :
  (1 <= fuel)%nat ->
  a < b * 10 ^ (j + N.of_nat fuel - 1) ->
  (j = 1 \/ b * 10 ^ (j - 1) <= a) ->
  1 <= j ->
  exists D, digits_above fuel a (b * 10 ^ j) (Z.of_N j) = Z.of_N D
            /\ 1 <= D /\ a < b * 10 ^ D /\ (D = 1 \/ b * 10 ^ (D - 1) <= a).
Proof.
  revert j. induction fuel as [|f IH]; intros j Hf Hup Hlow Hj; [lia|].
  cbn [digits_above]. destruct (N.ltb_spec a (b * 10 ^ j)) as [Hlt|Hge].
  - exists j. repeat split; assumption.
  - destruct f as [|f'].
    + exfalso. replace (j + N.of_nat 1 - 1) with j in Hup by lia. lia.
    + destruct (IH (j + 1)) as (D & E & H1 & H2 & H3).
      * lia.
      * replace (j + 1 + N.of_nat (S f') - 1) with (j + N.of_nat (S (S f')) - 1)
          by lia. exact Hup.
      * right. now replace (j + 1 - 1) with j by lia.
      * lia.
      * exists D. split; [|now repeat split].
        rewrite <- E. f_equal.
        -- rewrite N.pow_add_r. change (10 ^ 1) with 10. lia.
        -- lia.
Qed.

Lemma pow2_le_pow10 (k : N) : 2 ^ k <= 10 ^ k.
Proof. apply N.pow_le_mono_l. lia. Qed.

Lemma decimal_point_integer (n w : N) :
  0 < n -> n < 9007199254740992 -> 0 < w ->
  exists D, decimal_point (n * w, w) = Z.of_N D
            /\ 1 <= D <= 16 /\ n < 10 ^ D /\ 10 ^ (D - 1) <= n.
Proof.
  intros Hpos Hlt Hw. unfold decimal_point.
  replace (w <=? n * w) with true by (symmetry; apply N.leb_le; nia).
  destruct (digits_above_spec (n * w) w (S (N.to_nat (N.log2 (n * w)))) 1)
    as (D & E & H1 & H2 & H3).
  - lia.
  - replace (1 + N.of_nat (S (N.to_nat (N.log2 (n * w)))) - 1)
      with (N.succ (N.log2 (n * w))) by lia.
    destruct (N.log2_spec (n * w) ltac:(nia)) as [_ Hhi].
    pose proof (pow2_le_pow10 (N.succ (N.log2 (n * w)))) as Hp.
    assert (0 < 10 ^ N.succ (N.log2 (n * w)))
      by (apply N.neq_0_lt_0, N.pow_nonzero; discriminate).
    nia.
  - now left.
  - lia.
  - change (w * 10) with (w * 10 ^ 1). change 1%Z with (Z.of_N 1).
    exists D. split; [exact E|].
    assert (Hn : n < 10 ^ D) by nia.
    assert (Hlow : 10 ^ (D - 1) <= n).
    { destruct H3 as [-> | H3]; [cbn; lia | nia]. }
    repeat split; try assumption.
    assert (D - 1 < 16); [|lia].
    apply (N.pow_lt_mono_r_iff 10); [reflexivity|].
    change (10 ^ 16) with 10000000000000000. lia.
Qed.

Lemma div_scaled (n w p : N) :
  0 < w -> 0 < p -> n * w / (w * p) = n / p.
Proof.
  intros Hw Hp. rewrite (N.mul_comm n w).
  apply N.Div0.div_mul_cancel_l. lia.
Qed.

Lemma mod_scaled (n w p : N) :
  0 < w -> 0 < p -> (n * w) mod (w * p) = w * (n mod p).
Proof.
  intros Hw Hp. rewrite (N.mul_comm n w).
  apply N.Div0.mul_mod_distr_l.
Qed.

(** The shortest decimal of a safe integer is found at the first
    power of ten that divides it, and denotes the integer. *)
Lemma shortest_integer (n w m : N) (q : Z) (fuel : nat) (t : N) :
  0 < n -> n < 9007199254740992 -> 0 < w ->
  round_to_double (n, 1) = DFinite m q -> (q <= 0)%Z ->
  (N.to_nat t < fuel)%nat -> 10 ^ t <= n ->
  exists s t', shortest_from fuel (DFinite m q) (n * w, w) (Z.of_N t)
               = (s, Z.of_N t')
               /\ s * 10 ^ t' = n.
Proof.
  intros Hpos Hlt Hw Hd Hq. revert t.
  induction fuel as [|f IH]; intros t Hf Ht; [lia|].
  cbn [shortest_from]. unfold candidate, scale.
  replace (0 <=? Z.of_N t)%Z with true by (symmetry; apply Z.leb_le; lia).
  rewrite N2Z.id.
  assert (Hp : 0 < 10 ^ t) by (apply N.neq_0_lt_0, N.pow_nonzero; discriminate).
  rewrite div_eucl_pair, div_scaled, mod_scaled by assumption.
  unfold ratio_of_decimal.
  replace (0 <=? Z.of_N t)%Z with true by (symmetry; apply Z.leb_le; lia).
  rewrite N2Z.id.
  pose proof (N.div_mod n (10 ^ t) ltac:(lia)) as Hdm.
  pose proof (N.mod_lt n (10 ^ t) ltac:(lia)) as Hm.
  set (s := n / 10 ^ t) in *. set (r := n mod 10 ^ t) in *.
  assert (Hs : 1 <= s).
  { destruct (N.eq_dec s 0) as [E|E]; [|lia]. rewrite E in Hdm. lia. }
  assert (Hhi : double_eqb (round_to_double ((s + 1) * 10 ^ t, 1)) (DFinite m q)
                = false).
  { destruct (double_eqb _ _) eqn:E; [|reflexivity]. exfalso.
    apply double_eqb_eq in E.
    destruct (N.lt_ge_cases ((s + 1) * 10 ^ t) 9007199254740992) as [Hsm|Hbig].
    - rewrite <- Hd in E. apply round_integer_inj in E; try assumption; nia.
    - apply round_large in E; [lia | exact Hbig]. }
  rewrite Hhi, andb_false_r.
  destruct (N.eq_dec r 0) as [Hr|Hr].
  - assert (En : s * 10 ^ t = n) by lia.
    rewrite En, Hd.
    replace (double_eqb (DFinite m q) (DFinite m q)) with true
      by (symmetry; now apply double_eqb_eq).
    exists s, t. split; [reflexivity | exact En].
  - assert (Hlo : double_eqb (round_to_double (s * 10 ^ t, 1)) (DFinite m q)
                  = false).
    { destruct (double_eqb (round_to_double (s * 10 ^ t, 1)) (DFinite m q))
        eqn:E; [|reflexivity]. exfalso.
      apply double_eqb_eq in E. rewrite <- Hd in E.
      apply round_integer_inj in E; try assumption; nia. }
    rewrite Hlo.
    assert (Ht0 : t <> 0).
    { intros ->. subst r. rewrite N.pow_0_r, N.mod_1_r in Hr. now apply Hr. }
    replace (Z.of_N t - 1)%Z with (Z.of_N (t - 1)) by lia.
    apply IH; [lia|].
    transitivity (10 ^ t); [|exact Ht].
    apply N.pow_le_mono_r; lia.
Qed.

(** The Number value of the digits of a safe integer is the integer. *)
Lemma number_of_safe_integer (neg : bool) (n : N) :
  n < 9007199254740992 -> number_of_decimal neg n 0 = Finite neg n 0.
Proof.
  intros Hlt. unfold number_of_decimal, ratio_of_decimal.
  change (0 <=? 0)%Z with true. cbv iota. change (Z.to_N 0) with 0.
  rewrite N.pow_0_r, N.mul_1_r.
  destruct (N.eq_dec n 0) as [->|Hn]; [reflexivity|].
  assert (Hpos : 0 < n) by lia.
  pose proof (round_integer n Hpos Hlt) as Hd. rewrite Hd.
  pose proof (log2_safe_integer n Hpos Hlt) as HL.
  unfold shortest_decimal.
  destruct (ratio_of_safe_integer n Hpos Hlt) as (w & Hw & Ex). rewrite Ex.
  destruct (decimal_point_integer n w Hpos Hlt Hw) as (D & ED & HD & Hup & Hlow).
  rewrite ED. replace (Z.of_N D - 1)%Z with (Z.of_N (D - 1)) by lia.
  destruct (shortest_integer n w _ _ 17 (D - 1) Hpos Hlt Hw Hd)
    as (s & t' & Es & Est); [lia | lia | exact Hlow |].
  rewrite Es. unfold canonical.
  replace (0 <=? Z.of_N t')%Z with true by (symmetry; apply Z.leb_le; lia).
  now rewrite N2Z.id, Est.
Qed.

Lemma digits_lower_bound (ds : jsstring) (acc : N) :
  forallb is_digit ds = true ->
  acc * 10 ^ N.of_nat (List.length ds)
  <= fold_left (fun a c => a * 10 + (c - 48)) ds acc.
Proof.
  revert acc. induction ds as [|d ds IH]; intros acc Hd.
  - cbn [List.length fold_left]. change (N.of_nat 0) with 0.
    rewrite N.pow_0_r. lia.
  - cbn [forallb] in Hd. apply andb_true_iff in Hd as [_ Hd].
    cbn [fold_left List.length]. etransitivity; [|apply IH; exact Hd].
    rewrite Nat2N.inj_succ, N.pow_succ_r'.
    assert (0 < 10 ^ N.of_nat (List.length ds))
      by (apply N.neq_0_lt_0, N.pow_nonzero; discriminate).
    nia.
Qed.

(** A positive integer below [10^k] has at most [k] digits. *)
Lemma decimal_length (m k : N) :
  m <> 0 -> m < 10 ^ k -> N.of_nat (List.length (decimal m)) <= k.
Proof.
  intros Hm Hlt. destruct (decimal_head m Hm) as (d & ds & E & Hd & Hnz).
  pose proof (units_are_digits (N.to_uint m)) as Hall. fold (decimal m) in Hall.
  pose proof (N_of_digits_decimal m) as Hv. rewrite E in *.
  cbn [forallb] in Hall. apply andb_true_iff in Hall as [_ Hall].
  unfold N_of_digits in Hv. cbn [fold_left] in Hv.
  pose proof (digits_lower_bound ds (0 * 10 + (d - 48)) Hall) as Hlow.
  rewrite Hv in Hlow.
  unfold is_digit in Hd. apply andb_true_iff in Hd as [Hd1 Hd2].
  apply N.leb_le in Hd1, Hd2. apply N.eqb_neq in Hnz.
  assert (H1 : 10 ^ N.of_nat (List.length ds) <= m).
  { assert (0 < 10 ^ N.of_nat (List.length ds))
      by (apply N.neq_0_lt_0, N.pow_nonzero; discriminate).
    nia. }
  assert (N.of_nat (List.length ds) < k).
  { apply (N.pow_lt_mono_r_iff 10); [reflexivity|]. lia. }
  cbn [List.length]. lia.
Qed.

Lemma number_ok_plain (x : number) :
  number_ok x = true -> plain_decimal x = true.
Proof.
  destruct x as [| |neg m e]; try discriminate. cbn [number_ok plain_decimal].
  intros H. apply andb_true_iff in H as [H Hz].
  apply andb_true_iff in H as [He Hm]. rewrite He, Hz, andb_true_r.
  apply N.ltb_lt in Hm. apply Z.leb_le.
  destruct (N.eq_dec m 0) as [->|Hn]; [cbn; lia|].
  pose proof (decimal_length m 16 Hn) as Hl.
  change (10 ^ 16) with 10000000000000000 in Hl. lia.
Qed.

(** [JSON.parse] reads back the text of a safe integer as the same
    Number. *)
Lemma parse_number_toString (x : number) (rest : jsstring) :
  number_ok x = true -> follow_ok rest = true ->
  parse_number (Number_toString x ++ rest) = Some (x, rest).
Proof.
  intros Hok Hr. pose proof (number_ok_plain x Hok) as Hp.
  destruct x as [| |neg m e]; try discriminate.
  unfold parse_number. rewrite (parse_decimal_toString neg m e rest Hp Hr).
  cbn [number_ok] in Hok. apply andb_true_iff in Hok as [Hok _].
  apply andb_true_iff in Hok as [He Hm].
  apply Z.eqb_eq in He. apply N.ltb_lt in Hm. subst e.
  now rewrite number_of_safe_integer.
Qed.

Lemma hex_value_digit (d : N) : d < 16 -> hex_value (hex_digit d) = Some d.
Proof.
  intros H. unfold hex_digit, hex_value, is_digit.
  destruct (N.ltb_spec d 10) as [Hlt|Hge].
  - replace ((48 <=? 48 + d) && (48 + d <=? 57)) with true
      by (symmetry; apply andb_true_iff; split; apply N.leb_le; lia).
    f_equal. lia.
  - replace ((48 <=? 97 + (d - 10)) && (97 + (d - 10) <=? 57)) with false
      by (symmetry; apply andb_false_iff; right; apply N.leb_gt; lia).
    replace ((97 <=? 97 + (d - 10)) && (97 + (d - 10) <=? 102)) with true
      by (symmetry; apply andb_true_iff; split; apply N.leb_le; lia).
    f_equal. lia.
Qed.

Lemma land_15 (x : N) : N.land x 15 = x mod 16.
Proof. change 15 with (N.ones 4). now rewrite N.land_ones. Qed.

(** The four hexadecimal digits of a code unit denote it. *)
Lemma hex4_value_hex4 (c : code_unit) :
  c < 65536 ->
  hex4_value (hex_digit (N.land (N.shiftr c 12) 15))
             (hex_digit (N.land (N.shiftr c 8) 15))
             (hex_digit (N.land (N.shiftr c 4) 15))
             (hex_digit (N.land c 15)) = Some c.
Proof.
  intros Hc. rewrite !land_15, !N.shiftr_div_pow2.
  change (2 ^ 12) with 4096. change (2 ^ 8) with 256. change (2 ^ 4) with 16.
  unfold hex4_value.
  rewrite !hex_value_digit by (apply N.mod_lt; discriminate).
  f_equal.
  pose proof (N.div_mod c 16 ltac:(discriminate)) as E0.
  pose proof (N.div_mod (c / 16) 16 ltac:(discriminate)) as E1.
  pose proof (N.div_mod (c / 16 / 16) 16 ltac:(discriminate)) as E2.
  rewrite !N.Div0.div_div in E1, E2. change (16 * 16) with 256 in *.
  rewrite !N.Div0.div_div in E2. change (256 * 16) with 4096 in *.
  assert (H3 : c / 4096 < 16) by (apply N.Div0.div_lt_upper_bound; lia).
  rewrite (N.mod_small (c / 4096) 16 H3).
  rewrite (N.mod_small (c / 4096) 16 H3) in E2 || idtac.
  lia.
Qed.

Lemma lit_bs_u : lit "\u" = [92; 117].
Proof. vm_compute. reflexivity. Qed.
Lemma lit_bs_b : lit "\b" = [92; 98].
Proof. vm_compute. reflexivity. Qed.
Lemma lit_bs_t : lit "\t" = [92; 116].
Proof. vm_compute. reflexivity. Qed.
Lemma lit_bs_n : lit "\n" = [92; 110].
Proof. vm_compute. reflexivity. Qed.
Lemma lit_bs_f : lit "\f" = [92; 102].
Proof. vm_compute. reflexivity. Qed.
Lemma lit_bs_r : lit "\r" = [92; 114].
Proof. vm_compute. reflexivity. Qed.

Lemma parse_unicode_escape (c : code_unit) (t : jsstring) :
  c < 65536 ->
  parse_string_body (unicode_escape c ++ t) = push_unit c (parse_string_body t).
Proof.
  intros Hc. unfold unicode_escape, hex4. rewrite lit_bs_u. cbn [app].
  cbn [parse_string_body]. change (92 =? 34) with false.
  change (92 =? 92) with true. change (117 =? 117) with true. cbv iota.
  now rewrite (hex4_value_hex4 c Hc).
Qed.

Lemma parse_plain_unit (c : code_unit) (t : jsstring) :
  (c =? 34) = false -> (c =? 92) = false -> (c <? 32) = false ->
  parse_string_body (c :: t) = push_unit c (parse_string_body t).
Proof. intros H1 H2 H3. cbn [parse_string_body]. now rewrite H1, H2, H3. Qed.

Lemma parse_quoted_unit (c : code_unit) (t : jsstring) :
  parse_string_body (quote_code_unit c ++ t) = push_unit c (parse_string_body t).
Proof.
  unfold quote_code_unit.
  destruct (N.eqb_spec c 8) as [->|H8]; [now rewrite lit_bs_b|].
  destruct (N.eqb_spec c 9) as [->|H9]; [now rewrite lit_bs_t|].
  destruct (N.eqb_spec c 10) as [->|H10]; [now rewrite lit_bs_n|].
  destruct (N.eqb_spec c 12) as [->|H12]; [now rewrite lit_bs_f|].
  destruct (N.eqb_spec c 13) as [->|H13]; [now rewrite lit_bs_r|].
  destruct (N.eqb_spec c 34) as [->|H34]; [reflexivity|].
  destruct (N.eqb_spec c 92) as [->|H92]; [reflexivity|].
  destruct (N.ltb_spec c 32) as [Hlt|Hge].
  - apply parse_unicode_escape. lia.
  - cbn [app]. apply parse_plain_unit;
      [now apply N.eqb_neq | now apply N.eqb_neq | now apply N.ltb_ge].
Qed.

Lemma surrogate_plain (c : code_unit) :
  55296 <= c -> (c =? 34) = false /\ (c =? 92) = false /\ (c <? 32) = false.
Proof.
  intros H. repeat split; [apply N.eqb_neq | apply N.eqb_neq | apply N.ltb_ge]; lia.
Qed.

(** The parser reads back every quoted string, whatever follows the
    closing quotation mark. *)
Lemma parse_quote_units_len (n : nat) (s rest : jsstring) :
  (List.length s <= n)%nat ->
  parse_string_body (quote_units s ++ 34 :: rest) = Some (s, rest).
Proof.
  revert s. induction n as [|n IH]; intros [|c r] Hlen; cbn [List.length] in Hlen;
    try lia; try reflexivity.
  cbn [quote_units].
  destruct (is_high_surrogate c) eqn:Hh.
  - unfold is_high_surrogate in Hh. apply andb_true_iff in Hh as [Hh1 Hh2].
    apply N.leb_le in Hh1, Hh2.
    destruct (surrogate_plain c Hh1) as (P1 & P2 & P3).
    destruct r as [|d r'].
    + rewrite parse_unicode_escape by lia. reflexivity.
    + destruct (is_low_surrogate d) eqn:Hl.
      * unfold is_low_surrogate in Hl. apply andb_true_iff in Hl as [Hl1 Hl2].
        apply N.leb_le in Hl1, Hl2.
        destruct (surrogate_plain d ltac:(lia)) as (Q1 & Q2 & Q3).
        cbn [app]. rewrite (parse_plain_unit c _ P1 P2 P3).
        rewrite (parse_plain_unit d _ Q1 Q2 Q3).
        rewrite IH by (cbn [List.length] in Hlen; lia). reflexivity.
      * rewrite <- app_assoc, parse_unicode_escape by lia.
        rewrite IH by lia. reflexivity.
  - destruct (is_low_surrogate c) eqn:Hl.
    + unfold is_low_surrogate in Hl. apply andb_true_iff in Hl as [Hl1 Hl2].
      apply N.leb_le in Hl1, Hl2.
      rewrite <- app_assoc, parse_unicode_escape by lia.
      rewrite IH by lia. reflexivity.
    + rewrite <- app_assoc, parse_quoted_unit.
      rewrite IH by lia. reflexivity.
Qed.

Lemma parse_QuoteJSONString (s rest : jsstring) :
  parse_string_body (quote_units s ++ 34 :: rest) = Some (s, rest).
Proof. apply (parse_quote_units_len (List.length s)). lia. Qed.






Lemma eqb_eq (s t : jsstring) : JsString.eqb s t = true <-> s = t.
Proof.
  revert t. induction s as [|c s IH]; intros [|d t]; cbn [JsString.eqb].
  - tauto.
  - split; discriminate.
  - split; discriminate.
  - rewrite andb_true_iff, N.eqb_eq, IH. split.
    + intros [H1 H2]. now subst.
    + intros H. injection H as H1 H2. now split.
Qed.

Lemma eqb_refl (s : jsstring) : JsString.eqb s s = true.
Proof. now apply eqb_eq. Qed.

Lemma eqb_sym (s t : jsstring) : JsString.eqb s t = JsString.eqb t s.
Proof.
  destruct (JsString.eqb s t) eqn:E1.
  - apply eqb_eq in E1. rewrite E1. symmetry. apply eqb_refl.
  - destruct (JsString.eqb t s) eqn:E2; [|reflexivity].
    apply eqb_eq in E2. rewrite E2, eqb_refl in E1. discriminate.
Qed.

Lemma has_key_map (k : jsstring) (o : jsobject) :
  has_key k o = existsb (JsString.eqb k) (map fst o).
Proof.
  unfold has_key. induction o as [|p o IH]; [reflexivity|].
  cbn [existsb map]. now rewrite IH.
Qed.

(** A key that is new and has to come before none of the keys present
    is added at the end. *)
Lemma define_property_fresh (acc : jsobject) (k : jsstring) (v : jsval) :
  existsb (JsString.eqb k) (map fst acc) = false ->
  forallb (fun k' => negb (key_before k k')) (map fst acc) = true ->
  define_property acc k v = acc ++ [(k, v)].
Proof.
  intros Hnew Hlast. unfold define_property. rewrite has_key_map, Hnew.
  clear Hnew. induction acc as [|[k' v'] acc IH]; [reflexivity|].
  cbn [map fst forallb insert_property app] in *.
  apply andb_true_iff in Hlast as [H1 H2]. apply negb_true_iff in H1.
  rewrite H1. now rewrite IH.
Qed.

Lemma ordered_keys_app (a : list jsstring) (k : jsstring) (b : list jsstring) :
  ordered_keys (a ++ k :: b) = true ->
  forallb (fun k' => negb (key_before k k')) a = true
  /\ ordered_keys ((a ++ [k]) ++ b) = true.
Proof.
  intros H. split.
  - induction a as [|x a IH]; [reflexivity|].
    cbn [app ordered_keys forallb] in *.
    apply andb_true_iff in H as [H1 H2].
    rewrite forallb_app in H1. apply andb_true_iff in H1 as [_ H1].
    cbn [forallb] in H1. apply andb_true_iff in H1 as [H1 _].
    rewrite H1. cbn [andb]. now apply IH.
  - now rewrite <- app_assoc.
Qed.

Lemma distinct_keys_app (a : list jsstring) (k : jsstring) (b : list jsstring) :
  distinct_keys (a ++ k :: b) = true ->
  existsb (JsString.eqb k) a = false /\ distinct_keys ((a ++ [k]) ++ b) = true.
Proof.
  intros H. split.
  - induction a as [|x a IH]; [reflexivity|].
    cbn [app distinct_keys existsb] in *.
    apply andb_true_iff in H as [H1 H2]. apply negb_true_iff in H1.
    rewrite existsb_app in H1. apply orb_false_iff in H1 as [_ H1].
    cbn [existsb] in H1. apply orb_false_iff in H1 as [H1 _].
    rewrite eqb_sym, H1. cbn [orb]. now apply IH.
  - now rewrite <- app_assoc.
Qed.

Lemma lit_rbracket : lit "]" = [93].
Proof. vm_compute. reflexivity. Qed.
Lemma lit_comma : lit "," = [44].
Proof. vm_compute. reflexivity. Qed.
Lemma lit_colon : lit ":" = [58].
Proof. vm_compute. reflexivity. Qed.
Lemma lit_null : lit "null" = [110; 117; 108; 108].
Proof. vm_compute. reflexivity. Qed.
Lemma lit_true : lit "true" = [116; 114; 117; 101].
Proof. vm_compute. reflexivity. Qed.
Lemma lit_false : lit "false" = [102; 97; 108; 115; 101].
Proof. vm_compute. reflexivity. Qed.

Lemma serialize_ok (v : jsval) :
  json_ok v = true -> SerializeJSONProperty v = Some (text_of v).
Proof. unfold text_of. destruct v; try discriminate; reflexivity. Qed.

Lemma text_array (l : list jsval) :
  text_of (JArray l) = 91 :: join [44] (map text_of l) ++ [93].
Proof.
  unfold text_of at 1. cbn [SerializeJSONProperty].
  rewrite lit_lbracket, lit_rbracket, lit_comma. reflexivity.
Qed.

Lemma member_text_eq (p : jsstring * jsval) :
  member_text p = 34 :: quote_units (fst p) ++ 34 :: 58 :: text_of (snd p).
Proof.
  unfold member_text, QuoteJSONString, DQUOTE. rewrite lit_colon.
  cbn [app]. rewrite <- app_assoc. reflexivity.
Qed.

Lemma members_flat_map (ps : jsobject) :
  forallb (fun p => json_ok (snd p)) ps = true ->
  flat_map (fun p => match SerializeJSONProperty (snd p) with
                     | Some t => [QuoteJSONString (fst p) ++ lit ":" ++ t]
                     | None => []
                     end) ps
  = map member_text ps.
Proof.
  induction ps as [|p ps IH]; [reflexivity|]. cbn [forallb flat_map map].
  intros H. apply andb_true_iff in H as [H1 H2].
  rewrite (serialize_ok _ H1), IH by exact H2. reflexivity.
Qed.

Lemma text_object (ps : jsobject) :
  forallb (fun p => json_ok (snd p)) ps = true ->
  text_of (JObject ps) = 123 :: join [44] (map member_text ps) ++ [125].
Proof.
  intros H. unfold text_of at 1. cbn [SerializeJSONProperty].
  rewrite (members_flat_map ps H), lit_lbrace, lit_rbrace, lit_comma. reflexivity.
Qed.

Lemma parse_keyword_app (kw : jsstring) (v : jsval) (rest : jsstring) :
  parse_keyword kw v (kw ++ rest) = Ok v rest.
Proof.
  unfold parse_keyword. rewrite startsWith_app. f_equal.
  induction kw as [|c kw IH]; [reflexivity|exact IH].
Qed.

Lemma skip_ws_head (c : code_unit) (r : jsstring) :
  is_json_ws c = false -> skip_ws (c :: r) = c :: r.
Proof. intros H. cbn [skip_ws]. now rewrite H. Qed.

(** The text of a number in the domain starts with a minus sign or a digit. *)
Lemma number_head (x : number) :
  number_ok x = true ->
  exists c t, Number_toString x = c :: t /\ ((c =? 45) || is_digit c) = true.
Proof.
  intros Hok. pose proof (number_ok_plain x Hok) as Hp.
  destruct x as [| |neg m e]; try discriminate.
  pose proof (parse_decimal_toString neg m e [44] Hp eq_refl) as H.
  destruct (Number_toString (Finite neg m e)) as [|c t]; [discriminate|].
  exists c, t. split; [reflexivity|].
  unfold parse_decimal in H. cbn [app] in H.
  destruct (N.eqb_spec c 45) as [->|Hc]; [reflexivity|]. cbn [orb].
  unfold parse_int_part in H.
  destruct (N.eqb_spec c 48) as [->|H0]; [reflexivity|].
  destruct (is_digit c); [reflexivity|discriminate].
Qed.


Lemma sign_or_digit (c : code_unit) :
  ((c =? 45) || is_digit c) = true ->
  is_json_ws c = false /\ (c =? 123) = false /\ (c =? 91) = false
  /\ (c =? 34) = false /\ (c =? 93) = false /\ (c =? 125) = false.
Proof.
  intros H. assert (Hc : c = 45 \/ 48 <= c <= 57).
  { apply orb_true_iff in H as [H|H]; [left; now apply N.eqb_eq|right].
    unfold is_digit in H. apply andb_true_iff in H as [H1 H2].
    apply N.leb_le in H1, H2. lia. }
  unfold is_json_ws.
  repeat split; repeat (apply orb_false_iff; split); apply N.eqb_neq; lia.
Qed.

Lemma text_head (v : jsval) :
  json_ok v = true ->
  exists c t, text_of v = c :: t /\ opens_value c = true.
Proof.
  destruct v as [| |b|x|s|l|ps]; cbn [json_ok]; intros H; try discriminate.
  - exists 110, [117; 108; 108]. unfold text_of. cbn [SerializeJSONProperty].
    now rewrite lit_null.
  - destruct b; unfold text_of; cbn [SerializeJSONProperty].
    + exists 116, [114; 117; 101]. now rewrite lit_true.
    + exists 102, [97; 108; 115; 101]. now rewrite lit_false.
  - destruct (number_head x H) as (c & t & E & Hc).
    exists c, t. unfold text_of. cbn [SerializeJSONProperty].
    assert (Hf : is_finite x = true) by (destruct x; [discriminate..|reflexivity]).
    rewrite Hf. split; [exact E|].
    destruct (sign_or_digit c Hc) as (W & _ & _ & _ & B & C).
    unfold opens_value. now rewrite W, B, C.
  - exists 34, (quote_units s ++ [34]). split; reflexivity.
  - rewrite text_array. eexists _, _. split; reflexivity.
  - apply andb_true_iff in H as [_ H]. rewrite (text_object ps H).
    eexists _, _. split; reflexivity.
Qed.

Lemma skip_ws_text (v : jsval) (rest : jsstring) :
  json_ok v = true ->
  exists c t, text_of v ++ rest = c :: t /\ skip_ws (text_of v ++ rest) = c :: t
              /\ (c =? 93) = false /\ (c =? 125) = false.
Proof.
  intros H. destruct (text_head v H) as (c & t & E & Hc).
  unfold opens_value in Hc. apply andb_true_iff in Hc as [Hc H3].
  apply andb_true_iff in Hc as [H1 H2]. apply negb_true_iff in H1, H2, H3.
  exists c, (t ++ rest). rewrite E. cbn [app].
  repeat split; [now apply skip_ws_head | exact H2 | exact H3].
Qed.

Lemma join_cons (sep x : jsstring) (y : jsstring) (l : list jsstring) :
  join sep (x :: y :: l) = x ++ sep ++ join sep (y :: l).
Proof. reflexivity. Qed.

Lemma follow_comma (r : jsstring) : follow_ok (44 :: r) = true.
Proof. reflexivity. Qed.
Lemma follow_rbracket (r : jsstring) : follow_ok (93 :: r) = true.
Proof. reflexivity. Qed.
Lemma follow_rbrace (r : jsstring) : follow_ok (125 :: r) = true.
Proof. reflexivity. Qed.

Local Open Scope nat_scope.

(** Reading back the text of a value, of the elements of an array and
    of the members of an object, with a recursion budget of at least
    the weight of what is read. *)
Lemma round_trip_fuel (fuel : nat) :
  (forall v rest, weight v <= fuel -> json_ok v = true -> follow_ok rest = true ->
                  parse_value fuel (text_of v ++ rest) = Ok v rest)
  /\ (forall l acc rest,
         l <> [] -> list_sum (map (fun x => S (weight x)) l) <= fuel ->
         forallb json_ok l = true ->
         parse_elements fuel acc (join [44%N] (map text_of l) ++ 93%N :: rest)
         = Ok (JArray (rev acc ++ l)) rest)
  /\ (forall ps acc rest,
         ps <> [] -> list_sum (map (fun p => S (weight (snd p))) ps) <= fuel ->
         forallb (fun p => json_ok (snd p)) ps = true ->
         distinct_keys (map fst (acc ++ ps)) = true ->
         ordered_keys (map fst (acc ++ ps)) = true ->
         parse_members fuel acc (join [44%N] (map member_text ps) ++ 125%N :: rest)
         = Ok (JObject (acc ++ ps)) rest).
Proof.
  induction fuel as [|f (IHv & IHe & IHm)].
  { split; [|split].
    - intros v rest Hw. destruct v; cbn [weight] in Hw; lia.
    - intros [|x l] acc rest Hne Hw; [contradiction|]. cbn [map list_sum fold_right] in Hw. lia.
    - intros [|x l] acc rest Hne Hw; [contradiction|]. cbn [map list_sum fold_right] in Hw. lia. }
  split; [|split].
  - (* a value *)
    intros v rest Hw Hok Hr.
    destruct v as [| |b|x|s|l|ps]; cbn [json_ok] in Hok; try discriminate.
    + unfold text_of. cbn [SerializeJSONProperty]. rewrite lit_null.
      cbn [parse_value]. rewrite lit_null. simpl.
      apply (parse_keyword_app [110; 117; 108; 108]%N).
    + destruct b; unfold text_of; cbn [SerializeJSONProperty].
      * rewrite lit_true. cbn [parse_value]. rewrite lit_true. simpl.
        apply (parse_keyword_app [116; 114; 117; 101]%N).
      * rewrite lit_false. cbn [parse_value]. rewrite lit_false. simpl.
        apply (parse_keyword_app [102; 97; 108; 115; 101]%N).
    + destruct (number_head x Hok) as (c & t & E & Hc).
      pose proof (parse_number_toString x rest Hok Hr) as Hp.
      unfold text_of. cbn [SerializeJSONProperty].
      assert (Hf : is_finite x = true) by (destruct x; [discriminate..|reflexivity]).
      rewrite Hf. rewrite E in *. cbn [app] in *.
      destruct (sign_or_digit c Hc) as (W & B1 & B2 & B3 & _ & _).
      cbn [parse_value]. rewrite (skip_ws_head c _ W), B1, B2, B3, Hc, Hp.
      reflexivity.
    + unfold text_of. cbn [SerializeJSONProperty].
      unfold QuoteJSONString, DQUOTE. cbn [app parse_value].
      rewrite (skip_ws_head 34%N) by reflexivity.
      change (34 =? 123)%N with false. change (34 =? 91)%N with false.
      change (34 =? 34)%N with true. cbv iota.
      rewrite <- app_assoc. cbn [app]. now rewrite parse_QuoteJSONString.
    + rewrite text_array. cbn [app parse_value].
      rewrite (skip_ws_head 91%N) by reflexivity.
      change (91 =? 123)%N with false. change (91 =? 91)%N with true. cbv iota.
      rewrite <- app_assoc. cbn [app].
      destruct l as [|e l]; [reflexivity|].
      cbn [forallb] in Hok. pose proof Hok as Hok'.
      apply andb_true_iff in Hok' as [He _].
      assert (Hhead : exists c t,
                 skip_ws (join [44%N] (map text_of (e :: l)) ++ 93%N :: rest) = c :: t
                 /\ (c =? 93)%N = false).
      { cbn [map]. destruct (map text_of l) as [|y ys].
        - cbn [join]. destruct (skip_ws_text e (93%N :: rest) He)
            as (c & t & _ & E & H1 & _). now exists c, t.
        - rewrite join_cons, <- !app_assoc.
          destruct (skip_ws_text e ([44%N] ++ join [44%N] (y :: ys) ++ 93%N :: rest) He)
            as (c & t & _ & E & H1 & _). now exists c, t. }
      destruct Hhead as (c & t & Es & Hc). rewrite Es, Hc.
      cbn [weight] in Hw.
      rewrite (IHe (e :: l) [] rest); [reflexivity|discriminate|lia|exact Hok].
    + apply andb_true_iff in Hok as [Hd Hok].
      apply andb_true_iff in Hd as [Hd Ho].
      apply andb_true_iff in Hd as [_ Hd]. rewrite (text_object ps Hok).
      cbn [app parse_value]. rewrite (skip_ws_head 123%N) by reflexivity.
      change (123 =? 123)%N with true. cbv iota.
      rewrite <- app_assoc. cbn [app].
      destruct ps as [|p ps]; [reflexivity|].
      assert (Hhead : exists t,
                 skip_ws (join [44%N] (map member_text (p :: ps)) ++ 125%N :: rest)
                 = 34%N :: t).
      { cbn [map]. rewrite member_text_eq. destruct (map member_text ps) as [|y ys].
        - cbn [join app]. eexists. now apply skip_ws_head.
        - rewrite join_cons. cbn [app]. eexists. now apply skip_ws_head. }
      destruct Hhead as (t & Es). rewrite Es.
      change (34 =? 125)%N with false. cbv iota.
      cbn [weight] in Hw.
      rewrite (IHm (p :: ps) [] rest);
        [reflexivity|discriminate|lia|exact Hok|exact Hd|exact Ho].
  - (* the elements of an array *)
    intros [|e l] acc rest Hne Hw Hok; [contradiction|].
    cbn [map list_sum fold_right forallb] in Hw, Hok. apply andb_true_iff in Hok as [He Hl].
    cbn [parse_elements map].
    destruct l as [|e' l].
    + cbn [map join]. rewrite (IHv e (93%N :: rest)) by (try lia; easy).
      rewrite (skip_ws_head 93%N) by reflexivity.
      change (93 =? 44)%N with false. change (93 =? 93)%N with true. cbv iota.
      cbn [rev]. reflexivity.
    + cbn [map]. rewrite join_cons, <- !app_assoc. cbn [app].
      rewrite (IHv e (44%N :: _)) by (try lia; easy).
      rewrite (skip_ws_head 44%N) by reflexivity.
      change (44 =? 44)%N with true. cbv iota.
      change (text_of e' :: map text_of l) with (map text_of (e' :: l)).
      rewrite (IHe (e' :: l) (e :: acc) rest);
        [|discriminate|cbn [map list_sum fold_right] in *; lia|exact Hl].
      cbn [rev]. now rewrite <- app_assoc.
  - (* the members of an object *)
    intros [|[k v] ps] acc rest Hne Hw Hok Hd Ho; [contradiction|].
    cbn [map list_sum fold_right forallb snd] in Hw, Hok. apply andb_true_iff in Hok as [Hv Hps].
    rewrite map_app in Hd, Ho. cbn [map fst] in Hd, Ho.
    apply distinct_keys_app in Hd as [Hfresh Hd].
    apply ordered_keys_app in Ho as [Hlast Ho].
    cbn [parse_members map]. rewrite member_text_eq. cbn [fst snd].
    assert (Hstep : forall tail,
               follow_ok tail = true ->
               parse_string_body
                 (quote_units k ++ 34%N :: 58%N :: text_of v ++ tail)
               = Some (k, 58%N :: text_of v ++ tail)
               /\ parse_value f (text_of v ++ tail) = Ok v tail).
    { intros tail Ht. split; [apply parse_QuoteJSONString|].
      apply IHv; [lia|exact Hv|exact Ht]. }
    destruct ps as [|p' ps].
    + cbn [map join app]. rewrite (skip_ws_head 34%N) by reflexivity.
      change (34 =? 34)%N with true. cbv iota.
      repeat (rewrite <- app_assoc; cbn [app]).
      destruct (Hstep (125%N :: rest) eq_refl) as [-> E2].
      rewrite (skip_ws_head 58%N) by reflexivity.
      change (58 =? 58)%N with true. cbv iota. rewrite E2.
      rewrite (skip_ws_head 125%N) by reflexivity.
      change (125 =? 44)%N with false. change (125 =? 125)%N with true. cbv iota.
      now rewrite (define_property_fresh acc k v Hfresh Hlast).
    + cbn [map]. rewrite join_cons. cbn [app].
      rewrite (skip_ws_head 34%N) by reflexivity.
      change (34 =? 34)%N with true. cbv iota.
      repeat (rewrite <- app_assoc; cbn [app]).
      destruct (Hstep (44%N :: join [44%N] (member_text p' :: map member_text ps)
                         ++ 125%N :: rest) eq_refl) as [-> E2].
      rewrite (skip_ws_head 58%N) by reflexivity.
      change (58 =? 58)%N with true. cbv iota. rewrite E2.
      rewrite (skip_ws_head 44%N) by reflexivity.
      change (44 =? 44)%N with true. cbv iota.
      rewrite (define_property_fresh acc k v Hfresh Hlast).
      change (member_text p' :: map member_text ps)
        with (map member_text (p' :: ps)).
      rewrite (IHm (p' :: ps) (acc ++ [(k, v)]) rest);
        [|discriminate|cbn [map list_sum fold_right] in *; lia|exact Hps| |].
      * now rewrite <- app_assoc.
      * rewrite !map_app. cbn [map fst] in *. exact Hd.
      * rewrite !map_app. cbn [map fst] in *. exact Ho.
Qed.

Local Close Scope nat_scope.

Local Open Scope nat_scope.


(** The parser's result does not depend on the budget once it is large
    enough for the value read. *)
Lemma parse_value_text (v : jsval) (rest : jsstring) :
  json_ok v = true -> follow_ok rest = true ->
  parse_value (fuel_for (text_of v ++ rest)) (text_of v ++ rest) = Ok v rest.
Proof.
  intros Hok Hr. set (s := text_of v ++ rest).
  pose proof (proj1 (round_trip_fuel (weight v)) v rest (le_n _) Hok Hr) as Hw.
  fold s in Hw.
  destruct (Nat.le_ge_cases (weight v) (fuel_for s)) as [Hle|Hge].
  - rewrite (proj1 (parse_fuel_mono (weight v)) s (fuel_for s) Hle)
      by (rewrite Hw; discriminate).
    exact Hw.
  - rewrite <- (proj1 (parse_fuel_mono (fuel_for s)) s (weight v) Hge)
      by apply parse_value_fuel.
    exact Hw.
Qed.

Local Close Scope nat_scope.

(** [JSON.parse(JSON.stringify(v))] is [v]. *)
Lemma JSON_parse_stringify (v : jsval) :
  json_ok v = true ->
  exists t, JSON_stringify v = Some t /\ JSON_parse t = Value v.
Proof.
  intros Hok. exists (text_of v). split; [now apply serialize_ok|].
  unfold JSON_parse. pose proof (parse_value_text v [] Hok eq_refl) as H.
  rewrite app_nil_r in H. rewrite H. reflexivity.
Qed.



(* ===================================================================== *)
(** ** Replies and context blocks that hold JSON text *)
(* ===================================================================== *)

Lemma JSON_parse_text (v : jsval) :
  json_ok v = true -> JSON_parse (text_of v) = Value v.
Proof.
  intros Hok. unfold JSON_parse.
  pose proof (parse_value_text v [] Hok eq_refl) as H.
  rewrite app_nil_r in H. rewrite H. reflexivity.
Qed.

Lemma object_text (ps : jsobject) :
  exists mid, text_of (JObject ps) = lit "{" ++ mid ++ lit "}".
Proof. unfold text_of. cbn [SerializeJSONProperty]. eexists. reflexivity. Qed.

Lemma structured_text (v : jsval) :
  is_structured v = true ->
  exists c mid d, text_of v = c :: mid ++ [d]
                  /\ (c = 123 \/ c = 91) /\ (d = 125 \/ d = 93).
Proof.
  destruct v as [| |b|x|s|l|ps]; try discriminate; intros _.
  - rewrite text_array. eexists _, _, _. split; [reflexivity|]. split; now right.
  - unfold text_of. cbn [SerializeJSONProperty]. rewrite lit_lbrace, lit_rbrace.
    eexists _, _, _. split; [reflexivity|]. split; now left.
Qed.

Lemma structured_text_trim (v : jsval) :
  is_structured v = true ->
  trim (text_of v) = text_of v
  /\ startsWith (text_of v) (lit "{") || startsWith (text_of v) (lit "[") = true
  /\ text_of v <> [].
Proof.
  intros Hs. destruct (structured_text v Hs) as (c & mid & d & E & Hc & Hd).
  rewrite E, lit_lbrace, lit_lbracket. split; [|split; [|discriminate]].
  - unfold trim. rewrite trimStart_solid.
    + apply trimEnd_solid. change (c :: mid ++ [d]) with ((c :: mid) ++ [d]).
      apply ends_solid_app. destruct Hd as [-> | ->]; reflexivity.
    + destruct Hc as [-> | ->]; reflexivity.
  - cbn [startsWith]. rewrite !startsWith_nil, !andb_true_r.
    destruct Hc as [-> | ->]; reflexivity.
Qed.

Lemma flat_map_defined {B : Type} (F : jsstring * jsval -> list B) (o : jsobject) :
  (forall k, F (k, JUndefined) = []) ->
  flat_map F o = flat_map F (defined_properties o).
Proof.
  intros HF. induction o as [|[k v] o IH]; [reflexivity|].
  cbn [flat_map defined_properties filter snd].
  destruct v; cbn [is_undefined negb flat_map]; fold (defined_properties o);
    rewrite ?HF, IH; reflexivity.
Qed.

Lemma stringify_defined (o : jsobject) :
  JSON_stringify (JObject o) = JSON_stringify (JObject (defined_properties o)).
Proof.
  unfold JSON_stringify. cbn [SerializeJSONProperty].
  rewrite (flat_map_defined _ o); [reflexivity|]. intros k. reflexivity.
Qed.

Lemma stringify_text (v : jsval) (t : jsstring) :
  JSON_stringify v = Some t -> text_of v = t.
Proof. unfold JSON_stringify, text_of. now intros ->. Qed.

Lemma candidate_structured_text (v : jsval) :
  is_structured v = true ->
  extract_candidate (Some (text_of v)) = Some (text_of v).
Proof.
  intros Hs. destruct (structured_text_trim v Hs) as (Etrim & Hstart & Hne).
  revert Etrim Hstart Hne. generalize (text_of v).
  intros [|c l] E1 E2 E3; [contradiction|].
  unfold extract_candidate. now rewrite E1, E2.
Qed.

(** X4: a reply that is exactly the JSON text of an object or array,
    possibly surrounded by white space, is handed to the parser as it is
    and comes back as the value. *)
Theorem strict_reply_recovered (v : jsval) (t a b : jsstring) :
  is_structured v = true -> json_ok v = true ->
  JSON_stringify v = Some t ->
  forallb is_white_space a = true -> forallb is_white_space b = true ->
  parseAssistantJson (Some (a ++ t ++ b)) = ([t], Value v).
Proof.
  intros Hs Hok Ht Ha Hb. apply stringify_text in Ht. subst t.
  rewrite parseAssistantJson_eq. unfold extract_spec.
  rewrite (extract_candidate_trim _ _ (trim_pad a (text_of v) b Ha Hb)).
  rewrite (candidate_structured_text v Hs). unfold try_parse.
  now rewrite (JSON_parse_text v Hok).
Qed.

Lemma strict_reply_recovered_witness :
  parseAssistantJson
    (Some ([32; 10] ++ litq "{`intent`:`greet`,`data`:{`kcal`:[500,-120]}}" ++ [10]))
  = ([litq "{`intent`:`greet`,`data`:{`kcal`:[500,-120]}}"],
     Value (JObject [(lit "intent", JString (lit "greet"));
                     (lit "data",
                      JObject [(lit "kcal",
                                JArray [JNumber (Finite false 500 0);
                                        JNumber (Finite true 120 0)])])])).
Proof.
  apply (strict_reply_recovered
           (JObject [(lit "intent", JString (lit "greet"));
                     (lit "data",
                      JObject [(lit "kcal",
                                JArray [JNumber (Finite false 500 0);
                                        JNumber (Finite true 120 0)])])])
           (litq "{`intent`:`greet`,`data`:{`kcal`:[500,-120]}}")
           [32; 10] [10]);
    vm_compute; reflexivity.
Defined.

(** X5: an object's JSON text inside prose is recovered as the object when
    the prose before it is not blank, does not start with a bracket and
    has no opening brace, and the prose after it has no closing brace. *)
Theorem embedded_reply_recovered (ps : jsobject) (t pre post : jsstring) :
  json_ok (JObject ps) = true ->
  JSON_stringify (JObject ps) = Some t ->
  includes pre (lit "{") = false ->
  includes post (lit "}") = false ->
  trimStart pre <> [] ->
  startsWith (trimStart pre) (lit "[") = false ->
  parseAssistantJson (Some (pre ++ t ++ post)) = ([t], Value (JObject ps)).
Proof.
  intros Hok Ht H1 H2 H3 H4. apply stringify_text in Ht. subst t.
  destruct (object_text ps) as (mid & E). rewrite E.
  rewrite (embedded_object_recovered pre mid post H1 H2 H3 H4).
  rewrite <- E. unfold try_parse. now rewrite (JSON_parse_text _ Hok).
Qed.

Lemma embedded_reply_recovered_witness :
  parseAssistantJson
    (Some (lit "Logged it: " ++ litq "{`added_kcal`:320,`items`:[`dal`,`rice`]}"
             ++ lit " Anything else?"))
  = ([litq "{`added_kcal`:320,`items`:[`dal`,`rice`]}"],
     Value (JObject [(lit "added_kcal", JNumber (Finite false 320 0));
                     (lit "items", JArray [JString (lit "dal");
                                           JString (lit "rice")])])).
Proof.
  apply (embedded_reply_recovered
           [(lit "added_kcal", JNumber (Finite false 320 0));
            (lit "items", JArray [JString (lit "dal"); JString (lit "rice")])]
           (litq "{`added_kcal`:320,`items`:[`dal`,`rice`]}")
           (lit "Logged it: ") (lit " Anything else?"));
    try (vm_compute; reflexivity).
  vm_compute. discriminate.
Defined.

(** X6: the JSON text that [buildMessages] writes into the profile and the
    session block reads back, with [JSON.parse], as the object given. *)
Theorem context_block_parses_back (o : jsobject) :
  o <> [] -> json_ok (JObject o) = true ->
  exists t,
    profileBlock (Some o) = lit "User profile: " ++ t ++ lit "."
    /\ sessionBlock (Some o) = lit "Session state: " ++ t ++ lit "."
    /\ JSON_parse t = Value (JObject o).
Proof.
  intros Hne Hok. exists (text_of (JObject o)).
  unfold profileBlock, sessionBlock, Object_keys.
  destruct o as [|p o]; [contradiction|]. cbn [map List.length Nat.eqb negb].
  unfold JSON_stringify. rewrite (serialize_ok _ Hok). cbn [ToString_opt].
  repeat split. now apply JSON_parse_text.
Qed.

Lemma context_block_parses_back_witness :
  exists t,
    profileBlock (Some sampleProfile) = lit "User profile: " ++ t ++ lit "."
    /\ sessionBlock (Some sampleProfile) = lit "Session state: " ++ t ++ lit "."
    /\ JSON_parse t = Value (JObject sampleProfile).
Proof.
  apply (context_block_parses_back sampleProfile);
    [discriminate | vm_compute; reflexivity].
Defined.

(** X7: a property whose value is [undefined] counts as a key of the
    profile (or session) object but is left out of its block; an object
    with only such properties is written as an empty object, not as the
    placeholder. *)
Theorem undefined_fields_dropped (o : jsobject) :
  o <> [] ->
  profileBlock (Some o)
  = lit "User profile: "
    ++ ToString_opt (JSON_stringify (JObject (defined_properties o))) ++ lit "."
  /\ sessionBlock (Some o)
     = lit "Session state: "
       ++ ToString_opt (JSON_stringify (JObject (defined_properties o))) ++ lit "."
  /\ (defined_properties o = [] ->
      profileBlock (Some o) = lit "User profile: {}."
      /\ sessionBlock (Some o) = lit "Session state: {}.").
Proof.
  intros Hne.
  assert (Hp : profileBlock (Some o)
               = lit "User profile: "
                 ++ ToString_opt (JSON_stringify (JObject (defined_properties o)))
                 ++ lit ".").
  { unfold profileBlock, Object_keys. destruct o as [|p o]; [contradiction|].
    cbn [map List.length Nat.eqb negb]. now rewrite stringify_defined. }
  assert (Hs : sessionBlock (Some o)
               = lit "Session state: "
                 ++ ToString_opt (JSON_stringify (JObject (defined_properties o)))
                 ++ lit ".").
  { unfold sessionBlock, Object_keys. destruct o as [|p o]; [contradiction|].
    cbn [map List.length Nat.eqb negb]. now rewrite stringify_defined. }
  split; [exact Hp|]. split; [exact Hs|].
  intros E. rewrite Hp, Hs, E. split; vm_compute; reflexivity.
Qed.

Lemma undefined_fields_dropped_witness :
  profileBlock (Some [(lit "name", JUndefined); (lit "age", JNumber (num_of_Z 28))])
  = litq "User profile: {`age`:28}."
  /\ profileBlock (Some [(lit "name", JUndefined)]) = lit "User profile: {}.".
Proof.
  split.
  - etransitivity.
    + apply (proj1 (undefined_fields_dropped
                      [(lit "name", JUndefined); (lit "age", JNumber (num_of_Z 28))]
                      ltac:(discriminate))).
    + vm_compute. reflexivity.
  - apply (proj2 (proj2 (undefined_fields_dropped [(lit "name", JUndefined)]
                           ltac:(discriminate)))).
    reflexivity.
Defined.

Lemma surrounding_white_space_ignored_witness :
  parseAssistantJson (Some ([32; 10] ++ lit "[1, 2]" ++ [9; 13; 10]))
  = parseAssistantJson (Some (lit "[1, 2]")).
Proof.
  apply (surrounding_white_space_ignored [32; 10] (lit "[1, 2]") [9; 13; 10]);
    reflexivity.
Defined.

Lemma no_brace_no_value_witness :
  parseAssistantJson (Some (lit "42")) = ([], Value JNull).
Proof.
  apply (no_brace_no_value (lit "42"));
    [vm_compute; reflexivity | vm_compute; reflexivity
     | left; vm_compute; reflexivity].
Defined.

(* ===================================================================== *)
(** ** Calls of [buildMessages] in a shared heap *)
(* ===================================================================== *)

Local Open Scope nat_scope.

Lemma read_lt (h : heap) (a : nat) (c : cell) :
  read h a = Some c -> a < List.length h.
Proof. unfold read. intros H. apply nth_error_Some. congruence. Qed.

Lemma read_alloc_old (c : cell) (h : heap) (a : nat) :
  a < List.length h -> read (h ++ [c]) a = read h a.
Proof. intros H. unfold read. now rewrite nth_error_app1. Qed.

Lemma read_alloc_new (c : cell) (h : heap) :
  read (h ++ [c]) (List.length h) = Some c.
Proof. unfold read. now rewrite nth_error_app2, Nat.sub_diag by lia. Qed.

Lemma length_write (h : heap) (r : nat) (c : cell) :
  List.length (write h r c) = List.length h.
Proof.
  revert r. induction h as [|x h IH]; intros [|r]; cbn [write List.length];
    try reflexivity. now rewrite IH.
Qed.

Lemma read_write_same (h : heap) (r : nat) (c : cell) :
  r < List.length h -> read (write h r c) r = Some c.
Proof.
  revert r. induction h as [|x h IH]; intros [|r] H; cbn [List.length] in H;
    try lia; cbn [write]; [reflexivity|].
  apply IH. lia.
Qed.

Lemma read_write_other (h : heap) (r a : nat) (c : cell) :
  a <> r -> read (write h r c) a = read h a.
Proof.
  revert r a. induction h as [|x h IH]; intros [|r] [|a] H; cbn [write];
    try reflexivity; try congruence.
  apply IH. congruence.
Qed.

(** The objects an array holds are read at references below the length
    of the heap; a heap that keeps them keeps what the array holds. *)
Lemma holds_kept (h h' : heap) (l : list nat) (ms : list ChatMessage) :
  (forall a c, read h a = Some c -> In a l -> read h' a = Some c) ->
  Forall2 (fun x m => read h x = Some (MessageObject m)) l ms ->
  Forall2 (fun x m => read h' x = Some (MessageObject m)) l ms.
Proof.
  intros Hk H. induction H as [|x m l ms Hx H IH]; constructor.
  - apply Hk; [exact Hx | now left].
  - apply IH. intros a c Ha Hin. apply Hk; [exact Ha | now right].
Qed.

Lemma array_holds_kept (h h' : heap) (r : nat) (ms : list ChatMessage) :
  (forall a, a < List.length h -> read h' a = read h a) ->
  array_holds h r ms -> array_holds h' r ms.
Proof.
  intros Hk (l & Hr & Hl). exists l. split.
  - rewrite Hk; [exact Hr | now apply read_lt in Hr].
  - apply (holds_kept h); [|exact Hl].
    intros a c Ha _. rewrite Hk; [exact Ha | now apply read_lt in Ha].
Qed.

Lemma message_eta (e : ChatMessage) :
  {| role := role e; content := content e |} = e.
Proof. now destruct e. Qed.

Lemma Forall2_nth_error {A B : Type} (R : A -> B -> Prop)
      (l : list A) (l' : list B) (i : nat) (x : A) :
  Forall2 R l l' -> nth_error l i = Some x ->
  exists y, nth_error l' i = Some y /\ R x y.
Proof.
  intros H. revert i. induction H as [|a b l l' Hab H IH]; intros [|i] Hi;
    cbn [nth_error] in *; try discriminate.
  - injection Hi as <-. now exists b.
  - now apply IH.
Qed.

Lemma skipn_nth_error {A : Type} (l : list A) (i : nat) (x : A) :
  nth_error l i = Some x -> skipn i l = x :: skipn (S i) l.
Proof.
  revert i. induction l as [|a l IH]; intros [|i] H; cbn [nth_error] in H;
    try discriminate.
  - now injection H as <-.
  - cbn [skipn]. now apply IH.
Qed.

Lemma alloc_messages_spec (ms : list ChatMessage) (h : heap) :
  (forall a, a < List.length h -> read (snd (alloc_messages ms h)) a = read h a)
  /\ List.length h <= List.length (snd (alloc_messages ms h))
  /\ Forall2 (fun x m => read (snd (alloc_messages ms h)) x
                         = Some (MessageObject m))
             (fst (alloc_messages ms h)) ms.
Proof.
  revert h. induction ms as [|m ms IH]; intros h; cbn [alloc_messages].
  - cbn [fst snd]. repeat split; [lia | constructor].
  - unfold alloc. cbv iota beta.
    destruct (IH (h ++ [MessageObject m])) as (H1 & H2 & H3).
    destruct (alloc_messages ms (h ++ [MessageObject m])) as [rs h2].
    cbn [fst snd] in *.
    assert (Hl : List.length (h ++ [MessageObject m]) = S (List.length h))
      by (rewrite length_app; cbn [List.length]; lia).
    rewrite Hl in H1, H2.
    split; [|split].
    + intros a Ha. rewrite H1 by lia. now apply read_alloc_old.
    + lia.
    + constructor; [|exact H3]. rewrite H1 by lia. apply read_alloc_new.
Qed.

(** Loading the module binds [fewShotExamples] to an array that holds
    the examples. *)
Lemma load_module_holds (h : heap) :
  array_holds (snd (load_module h)) (fst (load_module h)) fewShotExamples.
Proof.
  unfold load_module.
  destruct (alloc_messages_spec fewShotExamples h) as (H1 & H2 & H3).
  destruct (alloc_messages fewShotExamples h) as [rs h1].
  cbn [fst snd] in *. unfold alloc. cbn [fst snd].
  exists rs. split; [apply read_alloc_new|].
  apply (holds_kept h1); [|exact H3].
  intros a c Ha _. rewrite read_alloc_old; [exact Ha | now apply read_lt in Ha].
Qed.

Section Loop.

Variables fewShot messages : nat.
Variable refs : list nat.
Variable exs : list ChatMessage.

Local Notation body := (push_copy messages).

(** The loop over the few-shot examples appends to [messages] new
    objects with the contents of the examples not yet visited and
    writes to no other object. *)
Lemma for_of_copies (fuel i : nat) (h : heap) (l : list nat)
      (ms : list ChatMessage) :
  fewShot <> messages -> ~ In messages refs ->
  read h fewShot = Some (ArrayObject refs) ->
  Forall2 (fun x m => read h x = Some (MessageObject m)) refs exs ->
  read h messages = Some (ArrayObject l) ->
  Forall2 (fun x m => read h x = Some (MessageObject m)) l ms ->
  ~ In messages l ->
  List.length refs - i < fuel ->
  exists l',
    read (for_of fuel fewShot i body h) messages = Some (ArrayObject (l ++ l'))
    /\ Forall2 (fun x m => read (for_of fuel fewShot i body h) x
                           = Some (MessageObject m))
               (l ++ l') (ms ++ skipn i exs)
    /\ (forall a, a < List.length h -> a <> messages ->
                  read (for_of fuel fewShot i body h) a = read h a)
    /\ List.length h <= List.length (for_of fuel fewShot i body h)
    /\ Forall (fun x => List.length h <= x) l'.
Proof.
  intros Hne Hnin. revert i h l ms.
  induction fuel as [|f IH]; intros i h l ms Hf Hrefs Hm Hl Hml Hfuel; [lia|].
  cbn [for_of]. rewrite Hf.
  destruct (nth_error refs i) as [x|] eqn:Ex.
  - destruct (Forall2_nth_error _ _ _ _ _ Hrefs Ex) as (e & Ee & Hx).
    assert (Hlt : i < List.length refs)
      by (apply nth_error_Some; congruence).
    assert (Hbody : body x h
                    = write (h ++ [MessageObject e]) messages
                            (ArrayObject (l ++ [List.length h]))).
    { unfold push_copy. rewrite Hx. unfold alloc, array_push.
      rewrite message_eta.
      rewrite read_alloc_old by (now apply read_lt in Hm). now rewrite Hm. }
    rewrite Hbody. set (h1 := write _ _ _).
    assert (Hmlt : messages < List.length h) by (now apply read_lt in Hm).
    assert (Hlen1 : List.length h1 = S (List.length h)).
    { unfold h1. rewrite length_write, length_app. cbn [List.length]. lia. }
    assert (Hold : forall a, a < List.length h -> a <> messages ->
                             read h1 a = read h a).
    { intros a Ha Hna. unfold h1.
      rewrite read_write_other by exact Hna. now apply read_alloc_old. }
    assert (Hkeep : forall l0 ms0,
               ~ In messages l0 ->
               Forall2 (fun x m => read h x = Some (MessageObject m)) l0 ms0 ->
               Forall2 (fun x m => read h1 x = Some (MessageObject m)) l0 ms0).
    { intros l0 ms0 Hn0 H0. apply (holds_kept h); [|exact H0].
      intros a c Ha Hin. rewrite Hold; [exact Ha| |].
      - now apply read_lt in Ha.
      - intros ->. now apply Hn0. }
    destruct (IH (S i) h1 (l ++ [List.length h]) (ms ++ [e]))
      as (l' & H1 & H2 & H3 & H4 & H5).
    + rewrite Hold; [exact Hf | now apply read_lt in Hf | exact Hne].
    + now apply Hkeep.
    + unfold h1. apply read_write_same. rewrite length_app. cbn [List.length]. lia.
    + apply Forall2_app; [now apply Hkeep|]. constructor; [|constructor].
      unfold h1. rewrite read_write_other by lia. apply read_alloc_new.
    + rewrite in_app_iff. intros [H|[H|[]]]; [now apply Hml | lia].
    + lia.
    + exists (List.length h :: l').
      rewrite <- app_assoc in H1. rewrite <- (app_assoc l), <- (app_assoc ms) in H2.
      cbn [app] in H1, H2.
      rewrite (skipn_nth_error exs i e Ee).
      repeat split.
      * exact H1.
      * exact H2.
      * intros a Ha Hna. rewrite H3 by lia. now apply Hold.
      * lia.
      * constructor; [lia|]. eapply Forall_impl; [|exact H5].
        cbn beta. intros a Ha. lia.
  - assert (Hge : List.length refs <= i) by (now apply nth_error_None).
    assert (Hex : skipn i exs = []).
    { apply skipn_all2. rewrite <- (Forall2_length Hrefs). exact Hge. }
    exists []. rewrite Hex, !app_nil_r. repeat split; auto.
Qed.

End Loop.

Section CallsInHeap.

Variables AI_NAME OWNER_NAME DATE_AND_TIME : jsstring.

Local Notation buildMessages := (Prompt.buildMessages AI_NAME OWNER_NAME DATE_AND_TIME).
Local Notation buildMessages_heap :=
  (Heap.buildMessages_heap AI_NAME OWNER_NAME DATE_AND_TIME).

(** A call in a heap where the module's array holds the few-shot
    examples returns a new array of new objects that holds the
    messages of the pure function, and writes to no object that was
    there before. *)
Lemma buildMessages_heap_spec (fewShot : nat) (opts : BuildMessagesOptions)
      (h : heap) :
  array_holds h fewShot fewShotExamples ->
  forall r h', buildMessages_heap fewShot opts h = (r, h') ->
  array_holds h' r (buildMessages opts)
  /\ (forall a, a < List.length h -> read h' a = read h a)
  /\ List.length h <= r
  /\ (forall l, read h' r = Some (ArrayObject l) ->
                Forall (fun x => List.length h <= x) l).
Proof.
  intros (refs & Hf & Hrefs) r h' Ecall.
  assert (Hflt : fewShot < List.length h) by (now apply read_lt in Hf).
  assert (Hrlt : forall x, In x refs -> x < List.length h).
  { intros x Hin. apply In_nth_error in Hin as (i & Hi).
    destruct (Forall2_nth_error _ _ _ _ _ Hrefs Hi) as (e & _ & Hx).
    now apply read_lt in Hx. }
  revert Ecall.
  unfold Heap.buildMessages_heap. unfold alloc at 1 2 3. cbv zeta.
  set (c1 := MessageObject {| role := system; content := _ |}).
  set (c2 := MessageObject {| role := system; content := _ |}).
  assert (Ec2 : c2 = MessageObject
                       {| role := system;
                          content := session_context_prefix opts
                                     ++ trailing_instruction opts |}).
  { unfold c2, session_context_prefix, trailing_instruction.
    do 2 f_equal. reassociate. }
  clearbody c2. subst c2.
  set (c2 := MessageObject {| role := system; content := _ |}).
  set (n := List.length h).
  set (h1 := h ++ [c1]). set (h2 := h1 ++ [c2]).
  assert (Hn1 : List.length h1 = S n)
    by (unfold h1; rewrite length_app; cbn [List.length]; lia).
  assert (Hn2 : List.length h2 = S (S n))
    by (unfold h2; rewrite length_app; cbn [List.length]; lia).
  rewrite Hn1, Hn2.
  set (h3 := h2 ++ [ArrayObject [n; S n]]).
  assert (Hn3 : List.length h3 = S (S (S n)))
    by (unfold h3; rewrite length_app; cbn [List.length]; lia).
  assert (Hold3 : forall a, a < n -> read h3 a = read h a).
  { intros a Ha. unfold h3. rewrite read_alloc_old by lia.
    unfold h2. rewrite read_alloc_old by lia.
    unfold h1. now apply read_alloc_old. }
  assert (Hf3 : read h3 fewShot = Some (ArrayObject refs))
    by (rewrite Hold3; assumption).
  assert (Hlen : array_length h3 fewShot = List.length refs)
    by (unfold array_length; now rewrite Hf3).
  rewrite Hlen.
  destruct (for_of_copies fewShot (S (S n)) refs fewShotExamples
              (S (List.length refs)) 0 h3 [n; S n]
              [ {| role := system;
                   content := Prompt.SYSTEM_PROMPT AI_NAME OWNER_NAME DATE_AND_TIME |};
                {| role := system;
                   content := session_context_prefix opts
                              ++ trailing_instruction opts |} ])
    as (l' & L1 & L2 & L3 & L4 & L5).
  - lia.
  - intros Hin. apply Hrlt in Hin. fold n in Hin. lia.
  - exact Hf3.
  - apply (holds_kept h); [|exact Hrefs].
    intros a c Ha _. rewrite Hold3; [exact Ha | now apply read_lt in Ha].
  - unfold h3. rewrite <- Hn2. apply read_alloc_new.
  - constructor; [|constructor; [|constructor]].
    + unfold h3. rewrite read_alloc_old by lia.
      unfold h2. rewrite read_alloc_old by lia.
      unfold h1. apply read_alloc_new.
    + unfold h3. rewrite read_alloc_old by lia.
      unfold h2. rewrite <- Hn1. apply read_alloc_new.
  - cbn [In]. lia.
  - lia.
  - set (h4 := for_of _ _ _ _ h3) in *.
    cbn [skipn] in L2. rewrite Hn3 in L3, L4, L5.
    unfold alloc. cbv zeta. cbn [fst snd]. fold h1. fold h2. rewrite ?Hn2.
    unfold array_push. rewrite read_alloc_old by (apply read_lt in L1; exact L1).
    rewrite L1.
    set (cu := MessageObject {| role := user; content := userMessage opts |}).
    set (h5 := write (h4 ++ [cu]) (S (S n)) _). intros [= <- <-].
    assert (Hm4 : S (S n) < List.length h4) by (now apply read_lt in L1).
    assert (Hold5 : forall a, a < List.length h4 -> a <> S (S n) ->
                              read h5 a = read h4 a).
    { intros a Ha Hna. unfold h5. rewrite read_write_other by exact Hna.
      now apply read_alloc_old. }
    assert (Hr5 : read h5 (S (S n))
                  = Some (ArrayObject (([n; S n] ++ l') ++ [List.length h4]))).
    { unfold h5. apply read_write_same. rewrite length_app. cbn [List.length]. lia. }
    assert (Hnew : Forall (fun x => n <= x) (([n; S n] ++ l') ++ [List.length h4])).
    { apply Forall_app. split; [apply Forall_app; split|].
      - repeat constructor; lia.
      - eapply Forall_impl; [|exact L5]. cbn beta. intros a Ha. lia.
      - repeat constructor. lia. }
    split; [|split; [|split]].
    + exists (([n; S n] ++ l') ++ [List.length h4]). split; [exact Hr5|].
      rewrite buildMessages_shape.
      rewrite app_assoc. apply Forall2_app.
      * apply (holds_kept h4); [|exact L2].
        intros a c Ha Hin. rewrite Hold5; [exact Ha| |].
        -- now apply read_lt in Ha.
        -- intros ->. apply in_app_iff in Hin as [Hin|Hin].
           ++ cbn [In] in Hin. lia.
           ++ rewrite Forall_forall in L5. apply L5 in Hin. lia.
      * constructor; [|constructor].
        unfold h5. rewrite read_write_other by lia. apply read_alloc_new.
    + intros a Ha. rewrite Hold5 by lia. rewrite L3 by lia. now apply Hold3.
    + lia.
    + intros l Hl. rewrite Hr5 in Hl. injection Hl as <-. exact Hnew.
Qed.

Lemma options_equal_eq (o1 o2 : BuildMessagesOptions) :
  options_equal o1 o2 -> o1 = o2.
Proof.
  destruct o1, o2. unfold options_equal. cbn.
  intros (-> & -> & -> & -> & -> & ->). reflexivity.
Qed.

Lemma array_holds_written (h : heap) (r a : nat) (c : cell)
      (ms : list ChatMessage) (n : nat) :
  (forall b, b < n -> read (write h a c) b = read h b) ->
  array_holds h r ms ->
  r < n ->
  (forall l, read h r = Some (ArrayObject l) -> Forall (fun x => x < n) l) ->
  array_holds (write h a c) r ms.
Proof.
  intros Hk (l & Hr & Hl) Hrn Hln. exists l. split.
  - now rewrite Hk.
  - apply (holds_kept h); [|exact Hl].
    intros b c0 Hb Hin. rewrite Hk; [exact Hb|].
    specialize (Hln l Hr). rewrite Forall_forall in Hln. now apply Hln.
Qed.

(** C3: calls of [buildMessages] with options that are equal field by
    field (profile and session objects with the same keys in the same
    order) return arrays that hold the same messages, those of the pure
    function, in whatever heaps the calls run as long as the module's
    array holds the few-shot examples.  A call writes to no object that
    existed before it and the array and the messages it returns are new
    objects, so that nothing a caller does to them reaches the module:
    the module's array holds the examples after the call and after any
    write to an object the call allocated. *)
Theorem buildMessages_deterministic
        (fewShot : nat) (h1 h2 : heap) (o1 o2 : BuildMessagesOptions) :
  array_holds h1 fewShot fewShotExamples ->
  array_holds h2 fewShot fewShotExamples ->
  options_equal o1 o2 ->
  array_holds (snd (buildMessages_heap fewShot o1 h1))
              (fst (buildMessages_heap fewShot o1 h1)) (buildMessages o1)
  /\ array_holds (snd (buildMessages_heap fewShot o2 h2))
                 (fst (buildMessages_heap fewShot o2 h2)) (buildMessages o1)
  /\ (forall a, a < List.length h1 ->
                read (snd (buildMessages_heap fewShot o1 h1)) a = read h1 a)
  /\ List.length h1 <= fst (buildMessages_heap fewShot o1 h1)
  /\ (forall l, read (snd (buildMessages_heap fewShot o1 h1))
                     (fst (buildMessages_heap fewShot o1 h1))
                = Some (ArrayObject l) ->
                Forall (fun x => List.length h1 <= x) l)
  /\ array_holds (snd (buildMessages_heap fewShot o1 h1)) fewShot fewShotExamples
  /\ (forall a c, List.length h1 <= a ->
                  array_holds (write (snd (buildMessages_heap fewShot o1 h1)) a c)
                              fewShot fewShotExamples).
Proof.
  intros Hm1 Hm2 Heq. apply options_equal_eq in Heq. subst o2.
  destruct (buildMessages_heap fewShot o1 h1) as [r1 h1'] eqn:E1.
  destruct (buildMessages_heap fewShot o1 h2) as [r2 h2'] eqn:E2.
  cbn [fst snd].
  destruct (buildMessages_heap_spec fewShot o1 h1 Hm1 r1 h1' E1)
    as (A1 & A2 & A3 & A4).
  destruct (buildMessages_heap_spec fewShot o1 h2 Hm2 r2 h2' E2)
    as (B1 & _ & _ & _).
  assert (Hkept : array_holds h1' fewShot fewShotExamples)
    by (apply (array_holds_kept h1); assumption).
  repeat (split; [assumption|]).
  intros a c Ha.
  destruct Hm1 as (l & Hr & Hl).
  apply (array_holds_written h1' fewShot a c fewShotExamples (List.length h1)).
  - intros b Hb. apply read_write_other. lia.
  - exact Hkept.
  - now apply read_lt in Hr.
  - intros l0 Hl0. rewrite A2 in Hl0 by (now apply read_lt in Hr).
    rewrite Hr in Hl0. injection Hl0 as <-.
    apply Forall_forall. intros x Hin.
    apply In_nth_error in Hin as (i & Hi).
    destruct (Forall2_nth_error _ _ _ _ _ Hl Hi) as (e & _ & Hx).
    now apply read_lt in Hx.
Qed.

End CallsInHeap.

Local Close Scope nat_scope.

(** C3 at the request of [exampleBuild], made twice: once in the heap
    the module is loaded into, once after the caller has emptied the
    array the first call returned and overwritten its first message. *)
Lemma buildMessages_deterministic_witness :
  let fewShot := fst (load_module []) in
  let h0 := snd (load_module []) in
  let call1 :=
    buildMessages_heap AI_NAME_sample OWNER_NAME_sample DATE_AND_TIME_sample
      fewShot exampleOptions h0 in
  let h2 :=
    write (write (snd call1) (fst call1) (ArrayObject []))
          (List.length h0)
          (MessageObject {| role := user; content := lit "overwritten" |}) in
  let call2 :=
    buildMessages_heap AI_NAME_sample OWNER_NAME_sample DATE_AND_TIME_sample
      fewShot
      (with_language None (with_userName (Some (lit "Riya")) exampleOptions))
      h2 in
  array_holds (snd call2) (fst call2)
    (buildMessages AI_NAME_sample OWNER_NAME_sample DATE_AND_TIME_sample
       exampleOptions).
Proof.
  cbv zeta.
  refine (proj1 (proj2
            (buildMessages_deterministic AI_NAME_sample OWNER_NAME_sample
               DATE_AND_TIME_sample (fst (load_module [])) (snd (load_module []))
               _ exampleOptions
               (with_language None
                  (with_userName (Some (lit "Riya")) exampleOptions))
               _ _ _))).
  - apply load_module_holds.
  - vm_compute. eexists. split; [reflexivity|]. repeat constructor.
  - repeat split.
Defined.

(** Two requests that are structurally equal, their profiles holding
    the same properties in a different order, do not give the same
    messages. *)
Lemma buildMessages_deterministic_counterexample :
  options_structurally_equal nameFirstOptions ageFirstOptions = true
  /\ buildMessages AI_NAME_sample OWNER_NAME_sample DATE_AND_TIME_sample
       nameFirstOptions
     <> buildMessages AI_NAME_sample OWNER_NAME_sample DATE_AND_TIME_sample
          ageFirstOptions.
Proof. split; [vm_compute; reflexivity | vm_compute; discriminate]. Qed.

